(** * Stock-Sense: the KSE-30 prediction core, embedded in Rocq

    A shallow embedding of the two predictor classes of the repository,
    [HybridEnsemblePredictor] (Model/kse_hybrid_ensemble.py) and
    [KSEStockPredictor] (stockSense-model/kse_stock_model.py): the indicator
    helpers, the regime detector, the confidence score, the signal state
    machine, and the [predict] / [predict_all] drivers.

    Numbers.  Python and numpy compute on binary64 floats.  A float is
    modelled by [fval]: a finite value is an exact rational, and the three
    special values (the two infinities and NaN) follow IEEE 754.  Rounding,
    overflow and the sign of zero are not modelled; decimal literals of the
    source ([1.2], [0.4], [1e-10]) are read as the rationals they denote.
    Comparisons with NaN are false, numpy division by zero yields an
    infinity or NaN, and division of Python floats by zero raises
    [ZeroDivisionError], as in the source language. *)

From Stdlib Require Import QArith Qround Qabs Qminmax Lqa Lia ZArith String List.
From stdpp Require Import gmap strings list fin_maps sorting pretty.

Open Scope Q_scope.

(* ===================================================================== *)
(** * Numbers *)
(* ===================================================================== *)

Inductive fval : Type :=
| Num (q : Q)
| PInf
| NInf
| NaN.

Definition Qltb (x y : Q) : bool := negb (Qle_bool y x).
Definition Qzerob (x : Q) : bool := Qeq_bool x 0.

(** Sign of a value that is not NaN: -1, 0 or 1. *)
Definition fsign (v : fval) : Z :=
  match v with
  | Num q => Z.sgn (Qnum q)
  | PInf => 1
  | NInf => -1
  | NaN => 0
  end.

(** The infinity of a given sign; sign 0 is the invalid operation. *)
Definition inf_of_sign (s : Z) : fval :=
  match s with
  | Zpos _ => PInf
  | Zneg _ => NInf
  | Z0 => NaN
  end.

Definition fneg (a : fval) : fval :=
  match a with
  | Num x => Num (- x)
  | PInf => NInf
  | NInf => PInf
  | NaN => NaN
  end.

Definition fadd (a b : fval) : fval :=
  match a, b with
  | NaN, _ | _, NaN => NaN
  | Num x, Num y => Num (x + y)
  | PInf, NInf | NInf, PInf => NaN
  | PInf, _ | _, PInf => PInf
  | NInf, _ | _, NInf => NInf
  end.

Definition fsub (a b : fval) : fval := fadd a (fneg b).

Definition fmul (a b : fval) : fval :=
  match a, b with
  | NaN, _ | _, NaN => NaN
  | Num x, Num y => Num (x * y)
  | _, _ => inf_of_sign (fsign a * fsign b)
  end.

(** numpy / pandas division: never raises. *)
Definition fdiv (a b : fval) : fval :=
  match a, b with
  | NaN, _ | _, NaN => NaN
  | Num x, Num y => if Qzerob y then inf_of_sign (fsign a) else Num (x / y)
  | Num _, _ => Num 0
  | _, Num y => if Qzerob y then a else inf_of_sign (fsign a * fsign b)
  | _, _ => NaN
  end.

Definition fabs (a : fval) : fval :=
  match a with
  | Num x => Num (Qabs x)
  | PInf | NInf => PInf
  | NaN => NaN
  end.

(** [a < b]; false as soon as one side is NaN. *)
Definition flt (a b : fval) : bool :=
  match a, b with
  | NaN, _ | _, NaN => false
  | Num x, Num y => Qltb x y
  | NInf, NInf | PInf, _ | _, NInf => false
  | _, _ => true
  end.

Definition fgt (a b : fval) : bool := flt b a.

Definition isnan (a : fval) : bool :=
  match a with NaN => true | _ => false end.

Definition isinf (a : fval) : bool :=
  match a with PInf | NInf => true | _ => false end.

(** Python's builtin [min(a, b)] and [max(a, b)] on two arguments: the
    first argument is kept unless the second compares strictly below
    (above) it. *)
Definition py_min (a b : fval) : fval := if flt b a then b else a.
Definition py_max (a b : fval) : fval := if fgt b a then b else a.

(** Rounding to the nearest integer, ties to even. *)
Definition round_half_even (x : Q) : Z :=
  let n := Qfloor x in
  let r := x - inject_Z n in
  if Qltb r (1 # 2) then n
  else if Qltb (1 # 2) r then (n + 1)%Z
  else if Z.even n then n else (n + 1)%Z.

(** The idealised [round(a, digits)]. *)
Definition round_dec (digits : nat) (a : fval) : fval :=
  let unit := inject_Z (10 ^ Z.of_nat digits) in
  match a with
  | Num x => Num (inject_Z (round_half_even (x * unit)) / unit)
  | _ => a
  end.

Declare Scope fval_scope.
Delimit Scope fval_scope with F.
Bind Scope fval_scope with fval.
Infix "+" := fadd : fval_scope.
Infix "-" := fsub : fval_scope.
Infix "*" := fmul : fval_scope.
Infix "/" := fdiv : fval_scope.
Notation "- x" := (fneg x) : fval_scope.
Infix "<?" := flt : fval_scope.
Infix ">?" := fgt : fval_scope.

(** A rational literal as a float. *)
Coercion Num : Q >-> fval.

(* ===================================================================== *)
(** * Exceptions *)
(* ===================================================================== *)

Inductive exn : Type :=
| ValueError (msg : string)
| KeyError (key : string)
| IndexError
| ZeroDivisionError.

Inductive result (A : Type) : Type :=
| Ok (a : A)
| Raise (e : exn).
Arguments Ok {A} a.
Arguments Raise {A} e.

(** The error monad; [x ← m; k] is stdpp's notation for bind. *)
#[global] Instance result_ret : MRet result := fun A a => Ok a.
#[global] Instance result_bind : MBind result := fun A B k m =>
  match m with
  | Ok a => k a
  | Raise e => Raise e
  end.

(** Division of two Python floats. *)
Definition py_div (a b : fval) : result fval :=
  match b with
  | Num y => if Qzerob y then Raise ZeroDivisionError else Ok (a / b)%F
  | _ => Ok (a / b)%F
  end.

(** [str(e)]: the message carried by the exception. *)
Definition str_of_exn (e : exn) : string :=
  match e with
  | ValueError msg => msg
  | KeyError key => ("'" ++ key ++ "'")%string
  | IndexError => "single positional indexer is out-of-bounds"
  | ZeroDivisionError => "float division by zero"
  end.

(* ===================================================================== *)
(** * Series: the pandas operations the source uses *)
(* ===================================================================== *)

(** A pandas Series of floats, indexed 0 .. n-1. *)
Abbreviation Series := (list fval).

(** [s.shift(n)] for [n >= 0]: [n] undefined values in front, same length. *)
Definition shift (n : nat) (s : Series) : Series :=
  take (length s) (replicate n NaN ++ s).

(** [s.shift(-n)]: the first [n] values dropped, undefined values behind. *)
Definition shift_back (n : nat) (s : Series) : Series :=
  drop n s ++ replicate (n `min` length s) NaN.

(** [s.diff(n)]. *)
Definition diff (n : nat) (s : Series) : Series := zip_with fsub s (shift n s).

(** [s.pct_change(n)] on a series without missing values: [s / s.shift(n) - 1]. *)
Definition pct_change (n : nat) (s : Series) : Series :=
  (λ r, r - 1)%F <$> zip_with fdiv s (shift n s).

(** [s.fillna(v)]. *)
Definition fillna (v : fval) (s : Series) : Series :=
  (λ x, if isnan x then v else x) <$> s.

(** [s.where(cond, other)] and [np.where(cond, s, other)], with the
    condition a test on the value itself. *)
Definition where_ (cond : fval → bool) (other : fval) (s : Series) : Series :=
  (λ x, if cond x then x else other) <$> s.

(** The trailing window of [rolling(w, min_periods=1)] at position [i]:
    positions [i+1-w .. i], cut at the start of the series. *)
Definition window {A} (w i : nat) (s : list A) : list A :=
  drop (S i - w) (take (S i) s).

Definition rolling (w : nat) (agg : list fval → fval) (s : Series) : Series :=
  imap (λ i _, agg (window w i s)) s.

(** The observations of a window: pandas skips NaN. *)
Definition valid (win : list fval) : list fval :=
  filter (λ v, isnan v = false) win.

Definition fsum (l : list fval) : fval := foldl fadd (Num 0) l.
Definition fcount (l : list fval) : fval := Num (inject_Z (Z.of_nat (length l))).

(** Aggregations with [min_periods=1]: undefined only without observation. *)
Definition mean_agg (win : list fval) : fval :=
  match valid win with
  | [] => NaN
  | vs => (fsum vs / fcount vs)%F
  end.

Definition sum_agg (win : list fval) : fval :=
  match valid win with
  | [] => NaN
  | vs => fsum vs
  end.

Definition min_agg (win : list fval) : fval :=
  match valid win with
  | [] => NaN
  | v :: vs => foldl (λ m x, if (x <? m)%F then x else m) v vs
  end.

Definition max_agg (win : list fval) : fval :=
  match valid win with
  | [] => NaN
  | v :: vs => foldl (λ m x, if (x >? m)%F then x else m) v vs
  end.

Definition rolling_mean (w : nat) : Series → Series := rolling w mean_agg.
Definition rolling_sum (w : nat) : Series → Series := rolling w sum_agg.
Definition rolling_min (w : nat) : Series → Series := rolling w min_agg.
Definition rolling_max (w : nat) : Series → Series := rolling w max_agg.

(** Element-wise arithmetic of two series and of a series with a scalar. *)
Definition sadd (a b : Series) : Series := zip_with fadd a b.
Definition ssub (a b : Series) : Series := zip_with fsub a b.
Definition smul (a b : Series) : Series := zip_with fmul a b.
Definition sdiv (a b : Series) : Series := zip_with fdiv a b.
Definition sabs (a : Series) : Series := fabs <$> a.
Definition sneg (a : Series) : Series := fneg <$> a.

(** [(a <= b)] on floats; false as soon as one side is NaN. *)
Definition fleb (a b : fval) : bool :=
  match a, b with
  | NaN, _ | _, NaN => false
  | _, _ => negb (flt b a)
  end.

(** [np.sign]. *)
Definition np_sign (a : fval) : fval :=
  match a with
  | NaN => NaN
  | _ => Num (inject_Z (fsign a))
  end.

(** [s.clip(lo, hi)]; an undefined value stays undefined. *)
Definition clip (lo hi : fval) (s : Series) : Series :=
  (λ x, if (x <? lo)%F then lo else if (x >? hi)%F then hi else x) <$> s.

(** [(cond).astype(int)]. *)
Definition as_int (b : bool) : fval := if b then 1 else 0.

(** [s.ewm(span=span, adjust=False).mean()] on a series without missing
    values: [y0 = x0], [y_t = (1 - a) y_(t-1) + a x_t] with [a = 2 / (span + 1)]. *)
Fixpoint ewm_from (alpha prev : fval) (s : Series) : Series :=
  match s with
  | [] => []
  | x :: rest =>
      let y := ((1 - alpha) * prev + alpha * x)%F in
      y :: ewm_from alpha y rest
  end.

Definition ewm_mean (span : nat) (s : Series) : Series :=
  match s with
  | [] => []
  | x :: rest => x :: ewm_from (2 / (Num (inject_Z (Z.of_nat span)) + 1))%F x rest
  end.

(* ===================================================================== *)
(** * Scalers *)
(* ===================================================================== *)

(** [sklearn.preprocessing.StandardScaler], one mean and scale per column
    of the matrix it was fitted on. *)
Module StandardScaler.
Record t : Type := { mean_ : list fval; scale_ : list fval }.

(** [transform(X)], [X] given by its columns.  The input validation of
    sklearn lets NaN through and refuses an infinity; the number of columns
    has to be the fitted one. *)
Definition transform (sc : t) (X : list Series) : result (list Series) :=
  if existsb (existsb isinf) X then
    Raise (ValueError "Input X contains infinity or a value too large")
  else if decide (length X = length (mean_ sc)) then
    Ok (zip_with (λ column '(m, d), (λ x, (x - m) / d)%F <$> column)
          X (zip (mean_ sc) (scale_ sc)))
  else Raise (ValueError "X has a different number of features than the scaler").
End StandardScaler.

(** [sklearn.preprocessing.MinMaxScaler] on the single price column. *)
Module MinMaxScaler.
Record t : Type := { min_ : fval; scale_ : fval }.

(** [transform(X)]; sklearn refuses an infinity and an array without a
    sample. *)
Definition transform (sc : t) (X : Series) : result Series :=
  if existsb isinf X then
    Raise (ValueError "Input X contains infinity or a value too large")
  else
    match X with
    | [] => Raise (ValueError "Found array with 0 sample(s)")
    | _ => Ok ((λ x, x * scale_ sc + min_ sc)%F <$> X)
    end.

Definition inverse_transform (sc : t) (x : fval) : fval :=
  ((x - min_ sc) / scale_ sc)%F.
End MinMaxScaler.

(* ===================================================================== *)
(** * Library kernels *)
(* ===================================================================== *)

(** The pandas / numpy operations whose values are not rational: they are
    taken as given, one function per operation.
    - [rolling_std w s]  is  [s.rolling(w, min_periods=1).std()],
    - [rolling_skew w s] is  [s.rolling(w, min_periods=1).skew()],
    - [rolling_kurt w s] is  [s.rolling(w, min_periods=1).kurt()],
    - [np_log s]         is  [np.log(s)],
    - [standard_scaler_fit X] is [StandardScaler().fit(X)], [X] by columns. *)
Class Kernels : Type := {
  rolling_std : nat → Series → Series;
  rolling_skew : nat → Series → Series;
  rolling_kurt : nat → Series → Series;
  np_log : Series → Series;
  standard_scaler_fit : list Series → StandardScaler.t
}.

(* ===================================================================== *)
(** * Frames *)
(* ===================================================================== *)

(** One daily bar of the history, as [load_data] reads it: finite numbers.
    (The constant [Ticker] column of a per-symbol frame is left out.) *)
Record Bar : Type := {
  Date : Z;
  Open : Q;
  High : Q;
  Low : Q;
  Close : Q;
  Volume : Q
}.

(** The raw columns of a history. *)
Definition col (f : Bar → Q) (df : list Bar) : Series := (λ b, Num (f b)) <$> df.

(** A working frame: the bars, then the computed columns in the order of
    their first assignment. *)
Record DataFrame : Type := {
  bars : list Bar;
  num_cols : list (string * Series);
  str_cols : list (string * list string)
}.

Definition frame_of (history : list Bar) : DataFrame :=
  {| bars := history; num_cols := []; str_cols := [] |}.

(** [cols[name] = v]: in place when the column exists, appended otherwise. *)
Fixpoint assign {V} (name : string) (v : V) (cols : list (string * V))
    : list (string * V) :=
  match cols with
  | [] => [(name, v)]
  | (n, w) :: rest =>
      if String.eqb n name then (n, v) :: rest else (n, w) :: assign name v rest
  end.

Fixpoint column {V} (name : string) (cols : list (string * V)) : option V :=
  match cols with
  | [] => None
  | (n, w) :: rest => if String.eqb n name then Some w else column name rest
  end.

Definition set_col (name : string) (v : Series) (df : DataFrame) : DataFrame :=
  {| bars := bars df; num_cols := assign name v (num_cols df); str_cols := str_cols df |}.

Definition set_str_col (name : string) (v : list string) (df : DataFrame) : DataFrame :=
  {| bars := bars df; num_cols := num_cols df; str_cols := assign name v (str_cols df) |}.

(** The rows at the given positions, in that order ([df.iloc[rows]]). *)
Definition take_rows {A} (rows : list nat) (l : list A) : list A :=
  omap (λ i, l !! i) rows.

Definition reindex (rows : list nat) (df : DataFrame) : DataFrame :=
  {| bars := take_rows rows (bars df);
     num_cols := (λ '(n, s), (n, take_rows rows s)) <$> num_cols df;
     str_cols := (λ '(n, s), (n, take_rows rows s)) <$> str_cols df |}.

(** [df.sort_values('Date').reset_index(drop=True)]. *)
Definition date_le (a b : Z * nat) : Prop := (a.1 <= b.1)%Z.
#[global] Instance date_le_dec a b : Decision (date_le a b) := Z_le_dec a.1 b.1.

Definition sort_values_Date (df : DataFrame) : DataFrame :=
  let keyed := zip (Date <$> bars df) (seq 0 (length (bars df))) in
  reindex (snd <$> merge_sort date_le keyed) df.

(** [df.dropna()]: the rows without an undefined number. *)
Definition row_defined (df : DataFrame) (i : nat) : bool :=
  forallb (λ '(_, s), match s !! i with Some v => negb (isnan v) | None => true end)
    (num_cols df).

Definition dropna (df : DataFrame) : DataFrame :=
  reindex (List.filter (row_defined df) (seq 0 (length (bars df)))) df.

(* ===================================================================== *)
(** * Regime detector (the same text in both classes) *)
(* ===================================================================== *)

Definition detect_market_regime `{Kernels} (df : DataFrame) (window : nat) : DataFrame :=
  let close := col Close (bars df) in
  let returns := pct_change 1 close in
  let df := set_col "Returns" returns df in
  let annual_return := fillna 0 (pct_change window close) in
  let df := set_col "Annual_Return" annual_return df in
  let df := set_col "Annual_Volatility" (rolling_std window returns) df in
  let regime := replicate (length (bars df)) "Sideways"%string in
  let regime := zip_with (λ a r, if (a >? 0.1)%F then "Bull"%string else r) annual_return regime in
  let regime := zip_with (λ a r, if (a <? -0.1)%F then "Bear"%string else r) annual_return regime in
  set_str_col "Regime" regime df.

(* ===================================================================== *)
(** * Indicator helpers (the same text in both classes) *)
(* ===================================================================== *)

(** The source's [1e-10]. *)
Definition eps : fval := 0.0000000001.

Definition calculate_rsi (prices : Series) (period : nat) : Series :=
  let delta := diff 1 prices in
  let gain := rolling_mean period (where_ (λ d, d >? 0)%F 0 delta) in
  let loss := rolling_mean period (sneg (where_ (λ d, d <? 0)%F 0 delta)) in
  let rs := zip_with (λ g l, g / (l + eps))%F gain loss in
  let rsi := (λ r, 100 - (100 / (1 + r)))%F <$> rs in
  fillna 50 rsi.

Definition calculate_stochastic (prices : Series) (period : nat) : Series * Series :=
  let lowest_low := rolling_min period prices in
  let highest_high := rolling_max period prices in
  let k := zip_with (λ num range, 100 * num / (range + eps))%F
             (ssub prices lowest_low) (ssub highest_high lowest_low) in
  let d := rolling_mean 3 k in
  (fillna 50 k, fillna 50 d).

Definition calculate_atr (df : list Bar) (period : nat) : Series :=
  let high_low := ssub (col High df) (col Low df) in
  let high_close := sabs (ssub (col High df) (shift 1 (col Close df))) in
  let low_close := sabs (ssub (col Low df) (shift 1 (col Close df))) in
  let true_range :=
    zip_with (λ hl '(hc, lc), max_agg [hl; hc; lc]) high_low (zip high_close low_close) in
  rolling_mean period true_range.

Definition calculate_adx (df : list Bar) (period : nat) : Series :=
  let high_diff := diff 1 (col High df) in
  let low_diff := sneg (diff 1 (col Low df)) in
  let plus_dm :=
    zip_with (λ hd ld, if (hd >? ld)%F && (hd >? 0)%F then hd else 0) high_diff low_diff in
  let minus_dm :=
    zip_with (λ hd ld, if (ld >? hd)%F && (ld >? 0)%F then ld else 0) high_diff low_diff in
  let atr := calculate_atr df period in
  let plus_di :=
    zip_with (λ m a, 100 * m / (a + eps))%F (rolling_mean period plus_dm) atr in
  let minus_di :=
    zip_with (λ m a, 100 * m / (a + eps))%F (rolling_mean period minus_dm) atr in
  let dx :=
    zip_with (λ p m, 100 * fabs (p - m) / (p + m + eps))%F plus_di minus_di in
  let adx := rolling_mean period dx in
  fillna 50 adx.

Definition calculate_obv (df : list Bar) : Series :=
  match df with
  | [] => []
  | b0 :: rest =>
      let step '(prev_close, prev_obv, acc) (b : Bar) :=
        let obv :=
          if Qltb prev_close (Close b) then (prev_obv + Num (Volume b))%F
          else if Qltb (Close b) prev_close then (prev_obv - Num (Volume b))%F
          else prev_obv in
        (Close b, obv, acc ++ [obv]) in
      (foldl step (Close b0, Num (Volume b0), [Num (Volume b0)]) rest).2
  end.

Definition calculate_supertrend (df : list Bar) (period : nat) (multiplier : fval) : Series :=
  let hl2 := (λ x, x / 2)%F <$> sadd (col High df) (col Low df) in
  let atr := calculate_atr df period in
  let matr := (λ a, multiplier * a)%F <$> atr in
  let upperband := sadd hl2 matr in
  let lowerband := ssub hl2 matr in
  imap (λ i '(c, (m, (u, (l, u_prev)))),
          match i with
          | O => m
          | S _ => if fleb c u_prev then u else l
          end)
    (zip (col Close df) (zip hl2 (zip upperband (zip lowerband (shift 1 upperband))))).

(* ===================================================================== *)
(** * Indicator engine (the same text in both classes) *)
(* ===================================================================== *)

Definition scale (c : fval) (s : Series) : Series := (λ x, x * c)%F <$> s.
Definition plus_eps (s : Series) : Series := (λ x, x + eps)%F <$> s.

(** The price-action block. *)
Definition price_action (df : DataFrame) : DataFrame :=
  let high := col High (bars df) in
  let low := col Low (bars df) in
  let close := col Close (bars df) in
  let open := col Open (bars df) in
  let df := set_col "High_Low_Range" (sdiv (ssub high low) low) df in
  let df := set_col "Close_Position" (sdiv (ssub close low) (plus_eps (ssub high low))) df in
  let df := set_col "Open_Close_Ratio" (sdiv (ssub close open) (plus_eps open)) df in
  let df := set_col "High_Close_Ratio" (sdiv (ssub high close) close) df in
  set_col "Low_Close_Ratio" (sdiv (ssub close low) close) df.

(** One pass of the Bollinger loop. *)
Definition bollinger `{Kernels} (df : DataFrame) (period : nat) : DataFrame :=
  let close := col Close (bars df) in
  let name suffix := ("BB_" +:+ pretty period +:+ suffix)%string in
  let bb_mid := rolling_mean period close in
  let bb_std := rolling_std period close in
  let upper := sadd bb_mid (scale 2 bb_std) in
  let lower := ssub bb_mid (scale 2 bb_std) in
  let df := set_col (name "_Upper") upper df in
  let df := set_col (name "_Lower") lower df in
  let df := set_col (name "_Mid") bb_mid df in
  let width := ssub upper lower in
  let df := set_col (name "_Width") width df in
  let bb_position := sdiv (ssub close lower) (plus_eps width) in
  let df := set_col (name "_Position") (clip 0 1 bb_position) df in
  set_col (name "_Squeeze") (sdiv width (scale 0.02 close)) df.

Definition calculate_advanced_indicators `{Kernels} (df : DataFrame) : DataFrame :=
  let df := sort_values_Date df in
  let history := bars df in
  let close := col Close history in
  let volume := col Volume history in
  let sma period := rolling_mean period close in
  let ema period := ewm_mean period close in
  let returns := pct_change 1 close in
  let df := set_col "Returns" returns df in
  let df := set_col "Log_Returns" (np_log (sdiv close (shift 1 close))) df in
  (* Moving averages *)
  let df :=
    foldl (λ df period,
             set_col ("EMA_" +:+ pretty period) (ema period)
               (set_col ("SMA_" +:+ pretty period) (sma period) df))
      df [3; 5; 10; 20; 50; 100; 200]%nat in
  (* MA crossovers *)
  let cross a b := zip_with (λ x y, if (x >? y)%F then Num 1 else Num (-1)) a b in
  let df := set_col "SMA_5_20_Cross" (cross (sma 5%nat) (sma 20%nat)) df in
  let df := set_col "SMA_20_50_Cross" (cross (sma 20%nat) (sma 50%nat)) df in
  let df := set_col "SMA_50_200_Cross" (cross (sma 50%nat) (sma 200%nat)) df in
  let df := set_col "SMA_5_200_Cross" (cross (sma 5%nat) (sma 200%nat)) df in
  (* Price-to-MA ratios *)
  let df :=
    foldl (λ df period,
             set_col ("Price_EMA" +:+ pretty period +:+ "_Ratio")
               (sdiv close (plus_eps (ema period)))
               (set_col ("Price_SMA" +:+ pretty period +:+ "_Ratio")
                  (sdiv close (plus_eps (sma period))) df))
      df [20; 50; 200]%nat in
  (* RSI *)
  let df :=
    foldl (λ df period, set_col ("RSI_" +:+ pretty period) (calculate_rsi close period) df)
      df [5; 14; 21]%nat in
  let rsi_14 := calculate_rsi close 14 in
  (* MACD *)
  let macd := ssub (ewm_mean 12 close) (ewm_mean 26 close) in
  let df := set_col "MACD" macd df in
  let macd_signal := ewm_mean 9 macd in
  let df := set_col "MACD_Signal" macd_signal df in
  let macd_diff := ssub macd macd_signal in
  let df := set_col "MACD_Diff" macd_diff df in
  let df := set_col "MACD_Histogram" (np_sign <$> macd_diff) df in
  (* Stochastic oscillator *)
  let df := set_col "Stoch_K" (calculate_stochastic close 14).1 df in
  let df := set_col "Stoch_D" (calculate_stochastic close 14).2 df in
  (* ROC *)
  let df :=
    foldl (λ df period,
             set_col ("ROC_" +:+ pretty period)
               (scale 100 (sdiv (ssub close (shift period close))
                              (plus_eps (shift period close)))) df)
      df [5; 10; 20]%nat in
  (* Momentum *)
  let df :=
    foldl (λ df period, set_col ("Momentum_" +:+ pretty period) (diff period close) df)
      df [1; 3; 5; 10; 20]%nat in
  (* Volatility *)
  let df := set_col "Volatility_5" (rolling_std 5 returns) df in
  let df := set_col "Volatility_10" (rolling_std 10 returns) df in
  let volatility_20 := rolling_std 20 returns in
  let df := set_col "Volatility_20" volatility_20 df in
  let df := set_col "Volatility_60" (rolling_std 60 returns) df in
  (* ATR *)
  let atr := calculate_atr history 14 in
  let df := set_col "ATR" atr df in
  let df := set_col "ATR_Percent" (sdiv atr (plus_eps close)) df in
  (* Bollinger bands *)
  let df := foldl bollinger df [20; 50]%nat in
  (* Volume analysis *)
  let volume_sma_5 := rolling_mean 5 volume in
  let volume_sma_20 := rolling_mean 20 volume in
  let df := set_col "Volume_SMA_5" volume_sma_5 df in
  let df := set_col "Volume_SMA_20" volume_sma_20 df in
  let volume_ratio := sdiv volume (plus_eps volume_sma_20) in
  let df := set_col "Volume_Ratio" volume_ratio df in
  let df := set_col "Volume_Trend" (sdiv volume_sma_5 (plus_eps volume_sma_20)) df in
  let obv := calculate_obv history in
  let df := set_col "OBV" obv df in
  let obv_sma := rolling_mean 20 obv in
  let df := set_col "OBV_SMA" obv_sma df in
  let df := set_col "OBV_Signal" (np_sign <$> ssub obv obv_sma) df in
  let pvt := rolling_sum 20 (smul returns volume) in
  let df := set_col "PVT" pvt df in
  let df := set_col "PVT_SMA" (rolling_mean 20 pvt) df in
  (* Price action *)
  let df := price_action df in
  (* Trend indicators *)
  let df := set_col "ADX" (calculate_adx history 14) df in
  let df := set_col "SuperTrend" (calculate_supertrend history 10 3) df in
  (* Lag features *)
  let df :=
    foldl (λ df lag,
             set_col ("RSI_Lag_" +:+ pretty lag) (shift lag rsi_14)
               (set_col ("Return_Lag_" +:+ pretty lag) (shift lag returns)
                  (set_col ("Close_Lag_" +:+ pretty lag) (shift lag close) df)))
      df [1; 2; 3; 5; 7; 10; 20; 30]%nat in
  (* Cumulative features *)
  let df :=
    foldl (λ df period,
             set_col ("Cumulative_Return_" +:+ pretty period) (rolling_sum period returns) df)
      df [5; 10; 20; 60]%nat in
  (* Interaction features *)
  let count3 (a b c : Series) :=
    zip_with fadd (zip_with fadd a b) c in
  let df :=
    set_col "Bullish_Signal"
      (count3 (zip_with (λ x y, as_int (x >? y)%F) (sma 5%nat) (sma 20%nat))
              ((λ r, as_int (r <? 70)%F) <$> rsi_14)
              ((λ m, as_int (m >? 0)%F) <$> macd_diff)) df in
  let df :=
    set_col "Bearish_Signal"
      (count3 (zip_with (λ x y, as_int (x <? y)%F) (sma 5%nat) (sma 20%nat))
              ((λ r, as_int (r >? 30)%F) <$> rsi_14)
              ((λ m, as_int (m <? 0)%F) <$> macd_diff)) df in
  let df := set_col "Volume_Price_Trend" (smul volume_ratio volatility_20) df in
  (* Historical reference points *)
  let high_52w := rolling_max 252 close in
  let low_52w := rolling_min 252 close in
  let df := set_col "High_52W" high_52w df in
  let df := set_col "Low_52W" low_52w df in
  let df :=
    set_col "Position_52W"
      (sdiv (ssub close low_52w) (plus_eps (ssub high_52w low_52w))) df in
  (* Statistical features *)
  foldl (λ df period,
           set_col ("Kurtosis_" +:+ pretty period) (rolling_kurt period returns)
             (set_col ("Skewness_" +:+ pretty period) (rolling_skew period returns) df))
    df [20; 60]%nat.

(* ===================================================================== *)
(** * Signals *)
(* ===================================================================== *)

Inductive Action : Type := BUY | SELL | HOLD.

(** The fragments appended to [reasoning]; the formatted numbers are kept
    as arguments, their rendering as text is not modelled. *)
Inductive Reason : Type :=
| Upward (predicted_return confidence : fval)
| Downward (predicted_return confidence : fval)
| Neutral (predicted_return : fval)
| STRONG_BULLISH
| STRONG_BEARISH
| RSI_overbought
| RSI_elevated
| RSI_oversold
| RSI_depressed
| Weak_bullish
| Weak_bearish
| Bull_wait_for_dips
| Bear_wait_for_bounces.

Record Signal : Type := {
  action : Action;
  confidence : fval;
  reasoning : list Reason
}.

(* ===================================================================== *)
(** * Model bundles *)
(* ===================================================================== *)

(** A trained sub-model is the function its [predict] method computes: the
    sequence model maps the scaled price window to a scaled price, a tree
    model maps one row of scaled features to a price. *)
Definition SeqModel : Type := list fval → fval.
Definition TreeModel : Type := list fval → fval.

(** [dict.get(key, default)]. *)
Definition dict_get (d : gmap string fval) (key : string) (default : fval) : fval :=
  match d !! key with
  | Some v => v
  | None => default
  end.

(** [d[key]]. *)
Definition dict_item {V} (d : gmap string V) (key : string) : result V :=
  match d !! key with
  | Some v => Ok v
  | None => Raise (KeyError key)
  end.

(* ===================================================================== *)
(** * State and exceptions *)
(* ===================================================================== *)

(** A method of a predictor object: it reads and updates the object and
    either returns or raises.  The updated object is kept when it raises. *)
Definition st (S A : Type) : Type := S → S * result A.

#[global] Instance st_ret {S} : MRet (st S) := λ A a s, (s, Ok a).
#[global] Instance st_bind {S} : MBind (st S) := λ A B k m s,
  match m s with
  | (s', Ok a) => k a s'
  | (s', Raise e) => (s', Raise e)
  end.

Definition raise {S A} (e : exn) : st S A := λ s, (s, Raise e).
Definition gets {S A} (f : S → A) : st S A := λ s, (s, Ok (f s)).
Definition modify {S} (f : S → S) : st S unit := λ s, (f s, Ok tt).
Definition lift {S A} (r : result A) : st S A := λ s, (s, r).

(** [l.iloc[-1]]. *)
Definition iloc_last {A} (l : list A) : result A :=
  match last l with
  | Some x => Ok x
  | None => Raise IndexError
  end.

(** [df[name]] on the computed columns. *)
Definition getitem {V} (cols : list (string * V)) (name : string) : result V :=
  match column name cols with
  | Some v => Ok v
  | None => Raise (KeyError name)
  end.

(** [mapM] in the error monad, left to right. *)
Fixpoint traverse {A B} (f : A → result B) (l : list A) : result (list B) :=
  match l with
  | [] => Ok []
  | x :: rest => y ← f x; ys ← traverse f rest; mret (y :: ys)
  end.

(* ===================================================================== *)
(** * Feature pipeline (the same text in both classes) *)
(* ===================================================================== *)

(** The attributes the two predictor classes share. *)
Record Core : Type := {
  prediction_days : nat;
  feature_cols : list string;
  data_dict : gmap string (list Bar);
  scalers : gmap string StandardScaler.t
}.

Definition set_feature_cols (cols : list string) (c : Core) : Core :=
  {| prediction_days := prediction_days c; feature_cols := cols;
     data_dict := data_dict c; scalers := scalers c |}.

Definition set_scaler (ticker : string) (sc : StandardScaler.t) (c : Core) : Core :=
  {| prediction_days := prediction_days c; feature_cols := feature_cols c;
     data_dict := data_dict c; scalers := <[ticker := sc]> (scalers c) |}.

(** The frame [prepare_features] returns: the scaled feature columns, then
    [Target], [Target_Return], [Date] and [Regime]. *)
Record ScaledFrame : Type := {
  scaled : list (string * Series);
  sf_Target : Series;
  sf_Target_Return : Series;
  sf_Date : list Z;
  sf_Regime : list string
}.

Definition exclude_cols : list string :=
  ["Date"; "Ticker"; "Target"; "Target_Return"; "Open"; "High"; "Low"; "Close";
   "Volume"; "Regime"; "Annual_Return"; "Annual_Volatility"].

Definition prepare_features `{Kernels} (df : DataFrame) (ticker : string)
    (fit_scaler : bool) : st Core ScaledFrame :=
  days ← gets prediction_days;
  let df := detect_market_regime df 252 in
  let df := calculate_advanced_indicators df in
  let close := col Close (bars df) in
  let target := shift_back days close in
  let df := set_col "Target" target df in
  let df :=
    set_col "Target_Return" (scale 100 (sdiv (ssub target close) (plus_eps close))) df in
  let df := dropna df in
  if decide (length (bars df) = 0%nat) then
    raise (ValueError ("No valid data for " +:+ ticker))
  else
    _ ← modify (set_feature_cols
                  (List.filter (λ name, negb (bool_decide (name ∈ exclude_cols)))
                     (num_cols df).*1));
    names ← gets feature_cols;
    X ← lift (traverse (getitem (num_cols df)) names);
    X_scaled ←
      (if fit_scaler then
         _ ← modify (set_scaler ticker (standard_scaler_fit X));
         sc ← gets (λ c, dict_item (scalers c) ticker);
         lift (sc' ← sc; StandardScaler.transform sc' X)
       else
         known ← gets scalers;
         match known !! ticker with
         | None => raise (ValueError ("No scaler for " +:+ ticker +:+ ". Train first."))
         | Some sc => lift (StandardScaler.transform sc X)
         end);
    target ← lift (getitem (num_cols df) "Target");
    target_return ← lift (getitem (num_cols df) "Target_Return");
    regime ← lift (getitem (str_cols df) "Regime");
    mret {| scaled := zip names X_scaled;
            sf_Target := target;
            sf_Target_Return := target_return;
            sf_Date := Date <$> bars df;
            sf_Regime := regime |}.

(** [df_prepared[feature_cols].iloc[-1:]]: the last row of the features. *)
Definition latest_row (cols : list (string * Series)) (names : list string)
    : result (list fval) :=
  traverse (λ name, s ← getitem cols name; iloc_last s) names.

(** [np.max], [np.min] and [np.mean] of the three forecasts; numpy's
    maximum and minimum are undefined as soon as one entry is. *)
Definition np_max (l : list fval) : fval :=
  if existsb isnan l then NaN else max_agg l.
Definition np_min (l : list fval) : fval :=
  if existsb isnan l then NaN else min_agg l.
Definition np_mean (l : list fval) : fval := (fsum l / fcount l)%F.

(* ===================================================================== *)
(** * HybridEnsemblePredictor *)
(* ===================================================================== *)

(** What [predict_all] stores for a symbol: the prediction, or the record
    [{'ticker': ticker, 'error': str(e)}]. *)
Inductive Entry (P : Type) : Type :=
| PredictionRecord (p : P)
| ErrorRecord (ticker error : string).
Arguments PredictionRecord {P} p.
Arguments ErrorRecord {P} ticker error.

(** [sorted(d.keys())]. *)
Definition str_le (a b : string) : Prop := String.leb a b = true.
#[global] Instance str_le_dec a b : Decision (str_le a b) :=
  decide (String.leb a b = true).

Definition sorted_keys {V} (d : gmap string V) : list string :=
  merge_sort str_le (map_to_list d).*1.

(** [d.values()] of a dictionary whose keys were inserted in sorted order,
    as [predict_all] builds it: the values in the order of the keys. *)
Definition dict_values {V} (d : gmap string V) : list V :=
  omap (λ k, d !! k) (sorted_keys d).

#[global] Instance Action_eq_dec : EqDecision Action.
Proof. solve_decision. Defined.

(** [[p for p in entries if 'error' not in p and p['signal'] == a]]. *)
Definition predictions_with {P} (signal : P → Action) (a : Action)
    (entries : list (Entry P)) : list P :=
  omap (λ e, match e with
             | PredictionRecord p => if decide (signal p = a) then Some p else None
             | ErrorRecord _ _ => None
             end) entries.

(** [l.sort(key=key, reverse=True)]: Python's sort is stable, also in
    reverse, so on keys that are totally ordered (no NaN) its result is
    the one of the stable insertion sort: an element goes behind those of
    a greater key and in front of the later ones of an equal key. *)
Fixpoint insert_desc {A} (key : A → fval) (x : A) (l : list A) : list A :=
  match l with
  | [] => [x]
  | y :: rest => if (key x <? key y)%F then y :: insert_desc key x rest else x :: l
  end.

Definition sort_desc {A} (key : A → fval) (l : list A) : list A :=
  foldr (insert_desc key) [] l.

(** [l[:n]] for an integer [n]: a negative [n] counts from the end. *)
Definition slice_to {A} (n : Z) (l : list A) : list A :=
  if (0 <=? n)%Z then take (Z.to_nat n) l
  else take (length l - Z.to_nat (- n)) l.

(** ** Loading the histories (the same text in both classes) *)

(** One record of the CSV file as [pd.read_csv] and [pd.to_datetime] hand
    it over: a symbol and a complete bar. *)
Record CsvRow : Type := {
  Ticker : string;
  bar : Bar
}.

(** [df.drop_duplicates(subset=['Date', 'Ticker'], keep='first')]: a row
    stays, the later rows of its date and symbol go. *)
Definition same_key (r r' : CsvRow) : bool :=
  bool_decide (Date (bar r') = Date (bar r)) && String.eqb (Ticker r') (Ticker r).

Fixpoint drop_duplicates (rows : list CsvRow) : list CsvRow :=
  match rows with
  | [] => []
  | r :: rest => r :: List.filter (λ r', negb (same_key r r')) (drop_duplicates rest)
  end.

(** [df.sort_values('Date').reset_index(drop=True)] on a list of rows.
    (The order pandas gives to rows of one date is not fixed; here they
    keep their order.) *)
Definition by_date {A} (date : A → Z) (a b : A) : Prop := (date a <= date b)%Z.
#[global] Instance by_date_dec {A} (date : A → Z) a b : Decision (by_date date a b) :=
  Z_le_dec (date a) (date b).

Definition sort_values {A} (date : A → Z) (rows : list A) : list A :=
  merge_sort (by_date date) rows.

Definition set_history (ticker : string) (history : list Bar) (c : Core) : Core :=
  {| prediction_days := prediction_days c; feature_cols := feature_cols c;
     data_dict := <[ticker := history]> (data_dict c); scalers := scalers c |}.

(** [load_data], from the parsed rows on.  The validation report formats
    the earliest date of the file, which raises on a file without rows. *)
Definition load_data (rows : list CsvRow) : st Core (gmap string (list Bar)) :=
  match rows with
  | [] => raise (ValueError "NaTType does not support strftime")
  | _ =>
      let df_all := drop_duplicates rows in
      let df_all := sort_values (λ r, Date (bar r)) df_all in
      let tickers := remove_dups (Ticker <$> df_all) in
      _ ← modify (λ c,
            foldl (λ c ticker,
                     let ticker_df := List.filter (λ r, String.eqb (Ticker r) ticker) df_all in
                     let ticker_df := sort_values (λ r, Date (bar r)) ticker_df in
                     set_history ticker (bar <$> ticker_df) c)
              c (merge_sort str_le tickers));
      gets data_dict
  end.

Module HybridEnsemblePredictor.

(** [self.models[ticker]]. *)
Record Bundle : Type := {
  lstm : SeqModel;
  lgb : TreeModel;
  xgb : TreeModel;
  ensemble_weights : fval * fval * fval;
  metrics : gmap string fval
}.

(** The predictor object; [core] holds [prediction_days], [feature_cols],
    [data_dict] and [scalers]. *)
Record Predictor : Type := {
  core : Core;
  lstm_sequence_length : nat;
  models : gmap string Bundle;
  lstm_scalers : gmap string MinMaxScaler.t
}.

Definition set_core (c : Core) (s : Predictor) : Predictor :=
  {| core := c; lstm_sequence_length := lstm_sequence_length s;
     models := models s; lstm_scalers := lstm_scalers s |}.

(** A method of the shared part run on the predictor. *)
Definition on_core {A} (m : st Core A) : st Predictor A := λ s,
  let '(c, r) := m (core s) in (set_core c s, r).

(** The dictionary [predict] returns. *)
Module Prediction.
Record t : Type := {
  ticker : string;
  current_price : fval;
  predicted_price : fval;
  predicted_return : fval;
  prediction_horizon_days : nat;
  current_date : Z;
  prediction_date : Z;
  signal : Action;
  confidence : fval;
  reasoning : list Reason;
  rsi_14 : fval;
  volatility : fval;
  macd_diff : fval;
  bb_position : fval;
  market_regime : string;
  adx : fval;
  pred_lstm : fval;
  pred_lightgbm : fval;
  pred_xgboost : fval;
  pred_ensemble : fval;
  lstm_r2 : fval;
  lgb_r2 : fval;
  xgb_r2 : fval;
  lgb_mae : fval;
  xgb_mae : fval;
  ensemble_agreement : fval
}.
End Prediction.

Definition calculate_confidence_ensemble
    (ticker : string) (predicted_return volatility rsi : fval) (regime : string)
    (ensemble_spread : fval) (metrics : gmap string fval) : fval :=
  let lstm_r2 := dict_get metrics "lstm_r2" 0.15 in
  let lgb_r2 := dict_get metrics "lgb_r2" 0.18 in
  let xgb_r2 := dict_get metrics "xgb_r2" 0.17 in
  let avg_r2 := ((lstm_r2 + lgb_r2 + xgb_r2) / 3)%F in
  let base_confidence : fval :=
    if (avg_r2 <? 0)%F then 35
    else if (avg_r2 <? 0.1)%F then 45
    else if (avg_r2 <? 0.2)%F then 55
    else if (avg_r2 <? 0.3)%F then 65
    else py_min 85 (55 + (avg_r2 * 80))%F in
  let agreement_boost := ((1 - py_min ensemble_spread 1) * 20)%F in
  let confidence := (base_confidence + agreement_boost)%F in
  let vol_penalty : fval :=
    if (volatility <? 0.005)%F then 0
    else if (volatility <? 0.015)%F then (-2)
    else if (volatility <? 0.03)%F then (-5)
    else (-10) in
  let confidence := (confidence + vol_penalty)%F in
  let confidence :=
    if String.eqb regime "Bull" then (confidence + 2)%F
    else if String.eqb regime "Bear" then (confidence - 2)%F
    else confidence in
  py_max 25 (py_min 95 confidence).

Definition generate_signal
    (predicted_return confidence rsi volatility : fval) (regime : string) : Signal :=
  let vol_pct := (volatility * 100)%F in
  let buy_threshold := (1.2 + (vol_pct * 0.4))%F in
  let sell_threshold := (- 1.2 - (vol_pct * 0.4))%F in
  let '(action, sig_conf, reasoning) :=
    if (predicted_return >? buy_threshold)%F then
      if (confidence >? 40)%F then
        let reasoning := [Upward predicted_return confidence] in
        if (predicted_return >? buy_threshold * 2)%F then
          let reasoning := reasoning ++ [STRONG_BULLISH] in
          if (rsi <? 75)%F then (BUY, py_min 95 (confidence + 5)%F, reasoning)
          else (HOLD, (confidence * 0.75)%F, reasoning ++ [RSI_overbought])
        else
          if (rsi <? 65)%F then (BUY, confidence, reasoning)
          else (HOLD, (confidence * 0.85)%F, reasoning ++ [RSI_elevated])
      else (HOLD, confidence, [Weak_bullish])
    else if (predicted_return <? sell_threshold)%F then
      if (confidence >? 40)%F then
        let reasoning := [Downward predicted_return confidence] in
        if (predicted_return <? sell_threshold * 2)%F then
          let reasoning := reasoning ++ [STRONG_BEARISH] in
          if (rsi >? 25)%F then (SELL, py_min 95 (confidence + 5)%F, reasoning)
          else (HOLD, (confidence * 0.75)%F, reasoning ++ [RSI_oversold])
        else
          if (rsi >? 35)%F then (SELL, confidence, reasoning)
          else (HOLD, (confidence * 0.85)%F, reasoning ++ [RSI_depressed])
      else (HOLD, confidence, [Weak_bearish])
    else
      let reasoning := [Neutral predicted_return] in
      let reasoning :=
        if String.eqb regime "Bull" then reasoning ++ [Bull_wait_for_dips]
        else if String.eqb regime "Bear" then reasoning ++ [Bear_wait_for_bounces]
        else reasoning in
      (HOLD, (confidence * 0.6)%F, reasoning)
  in
  {| action := action;
     confidence := py_max 15 sig_conf;
     reasoning := reasoning |}.

(** The spread of the three forecasts. *)
Definition ensemble_spread_of (lstm_pred lgb_pred xgb_pred : fval) : fval :=
  let predictions := [lstm_pred; lgb_pred; xgb_pred] in
  let pred_mean := np_mean predictions in
  ((np_max predictions - np_min predictions) / (pred_mean + eps))%F.

(** The agreement reported for a spread. *)
Definition ensemble_agreement_of (ensemble_spread : fval) : fval :=
  round_dec 2 (100 * (1 - py_min ensemble_spread 1))%F.

Definition predict `{Kernels} (ticker : string) : st Predictor Prediction.t :=
  known ← gets models;
  match known !! ticker with
  | None => raise (ValueError ("No ensemble for " +:+ ticker))
  | Some bundle =>
  histories ← gets (data_dict ∘ core);
  match histories !! ticker with
  | None => raise (ValueError ("No data for " +:+ ticker))
  | Some history =>
  let df := frame_of history in
  latest_bar ← lift (iloc_last history);
  let current_price := Num (Close latest_bar) in
  let current_date := Date latest_bar in
  (* LSTM prediction *)
  len ← gets lstm_sequence_length;
  let lstm_prices := drop (length history - len) (col Close history) in
  price_scalers ← gets lstm_scalers;
  price_scaler ← lift (dict_item price_scalers ticker);
  lstm_prices_scaled ← lift (MinMaxScaler.transform price_scaler lstm_prices);
  if negb (length lstm_prices_scaled =? len)%nat then
    raise (ValueError "cannot reshape array")
  else
  let lstm_pred_scaled := lstm bundle lstm_prices_scaled in
  let lstm_pred := MinMaxScaler.inverse_transform price_scaler lstm_pred_scaled in
  (* LightGBM and XGBoost predictions *)
  df_prepared ← on_core (prepare_features df ticker false);
  names ← gets (feature_cols ∘ core);
  latest_features ← lift (latest_row (scaled df_prepared) names);
  let lgb_pred := lgb bundle latest_features in
  let xgb_pred := xgb bundle latest_features in
  (* Ensemble voting *)
  let '(w0, w1, w2) := ensemble_weights bundle in
  let ensemble_pred := (w0 * lstm_pred + w1 * lgb_pred + w2 * xgb_pred)%F in
  ratio ← lift (py_div (ensemble_pred - current_price)%F current_price);
  let predicted_return := (ratio * 100)%F in
  (* Confidence from ensemble disagreement *)
  let ensemble_spread := ensemble_spread_of lstm_pred lgb_pred xgb_pred in
  (* Technical indicators for the signal *)
  let df_full := calculate_advanced_indicators (detect_market_regime df 252) in
  rsi ← lift (s ← getitem (num_cols df_full) "RSI_14"; iloc_last s);
  volatility ← lift (s ← getitem (num_cols df_full) "Volatility_20"; iloc_last s);
  regime ← lift (s ← getitem (str_cols df_full) "Regime"; iloc_last s);
  macd_diff ← lift (s ← getitem (num_cols df_full) "MACD_Diff"; iloc_last s);
  bb_position ← lift (s ← getitem (num_cols df_full) "BB_20_Position"; iloc_last s);
  adx ← lift (s ← getitem (num_cols df_full) "ADX"; iloc_last s);
  let conf :=
    calculate_confidence_ensemble ticker predicted_return volatility rsi regime
      ensemble_spread (metrics bundle) in
  let sig := generate_signal predicted_return conf rsi volatility regime in
  days ← gets (prediction_days ∘ core);
  mret {|
    Prediction.ticker := ticker;
    Prediction.current_price := round_dec 2 current_price;
    Prediction.predicted_price := round_dec 2 ensemble_pred;
    Prediction.predicted_return := round_dec 2 predicted_return;
    Prediction.prediction_horizon_days := days;
    Prediction.current_date := current_date;
    Prediction.prediction_date := (current_date + Z.of_nat days)%Z;
    Prediction.signal := action sig;
    Prediction.confidence := round_dec 2 (confidence sig);
    Prediction.reasoning := reasoning sig;
    Prediction.rsi_14 := round_dec 2 rsi;
    Prediction.volatility := round_dec 2 (volatility * 100)%F;
    Prediction.macd_diff := round_dec 2 macd_diff;
    Prediction.bb_position := round_dec 2 bb_position;
    Prediction.market_regime := regime;
    Prediction.adx := round_dec 2 adx;
    Prediction.pred_lstm := round_dec 2 lstm_pred;
    Prediction.pred_lightgbm := round_dec 2 lgb_pred;
    Prediction.pred_xgboost := round_dec 2 xgb_pred;
    Prediction.pred_ensemble := round_dec 2 ensemble_pred;
    Prediction.lstm_r2 := round_dec 4 (dict_get (metrics bundle) "lstm_r2" 0.15);
    Prediction.lgb_r2 := round_dec 4 (dict_get (metrics bundle) "lgb_r2" 0.18);
    Prediction.xgb_r2 := round_dec 4 (dict_get (metrics bundle) "xgb_r2" 0.17);
    Prediction.lgb_mae := round_dec 2 (dict_get (metrics bundle) "lgb_mae" 0);
    Prediction.xgb_mae := round_dec 2 (dict_get (metrics bundle) "xgb_mae" 0);
    Prediction.ensemble_agreement := ensemble_agreement_of ensemble_spread
  |}
  end end.

(** [predict_all]: one entry per key of [models], in sorted order; an
    exception of [predict] becomes the entry of its symbol. *)
Definition predict_all `{Kernels} (s : Predictor)
    : Predictor * gmap string (Entry Prediction.t) :=
  foldl (λ acc ticker,
           let '(s, predictions) := acc in
           match predict ticker s with
           | (s', Ok p) => (s', <[ticker := PredictionRecord p]> predictions)
           | (s', Raise e) =>
               (s', <[ticker := ErrorRecord ticker (str_of_exn e)]> predictions)
           end)
    (s, ∅) (sorted_keys (models s)).

(** [get_top_recommendations]: the BUY and the SELL predictions of
    [predict_all], each by descending confidence, cut at [top_n]. *)
Definition get_top_recommendations `{Kernels} (top_n : Z) (s : Predictor)
    : Predictor * (list Prediction.t * list Prediction.t) :=
  let '(s', all_preds) := predict_all s in
  let buys := predictions_with Prediction.signal BUY (dict_values all_preds) in
  let sells := predictions_with Prediction.signal SELL (dict_values all_preds) in
  let buys := sort_desc Prediction.confidence buys in
  let sells := sort_desc Prediction.confidence sells in
  (s', (slice_to top_n buys, slice_to top_n sells)).

(** [__init__]: the object before training (the default ensemble weights,
    which only training reads, are left out). *)
Definition init (prediction_days lstm_sequence_length : nat) : Predictor :=
  {| core := {| prediction_days := prediction_days; feature_cols := [];
                data_dict := ∅; scalers := ∅ |};
     lstm_sequence_length := lstm_sequence_length;
     models := ∅;
     lstm_scalers := ∅ |}.

End HybridEnsemblePredictor.

(* ===================================================================== *)
(** * KSEStockPredictor *)
(* ===================================================================== *)

Module KSEStockPredictor.

(** [self.models[ticker]] (the feature-importance table is left out). *)
Record Bundle : Type := {
  model : TreeModel;
  metrics : gmap string fval
}.

Record Predictor : Type := {
  core : Core;
  models : gmap string Bundle
}.

Definition set_core (c : Core) (s : Predictor) : Predictor :=
  {| core := c; models := models s |}.

Definition on_core {A} (m : st Core A) : st Predictor A := λ s,
  let '(c, r) := m (core s) in (set_core c s, r).

(** The dictionary [predict] returns. *)
Module Prediction.
Record t : Type := {
  ticker : string;
  current_price : fval;
  predicted_price : fval;
  predicted_return : fval;
  prediction_horizon_days : nat;
  current_date : Z;
  prediction_date : Z;
  signal : Action;
  confidence : fval;
  reasoning : list Reason;
  rsi_14 : fval;
  rsi_5 : fval;
  volatility : fval;
  macd_diff : fval;
  bb_position : fval;
  market_regime : string;
  adx : fval;
  model_metrics : gmap string fval
}.
End Prediction.

Definition calculate_confidence (models : gmap string Bundle)
    (ticker : string) (predicted_return volatility rsi : fval) (regime : string)
    : result fval :=
  bundle ← dict_item models ticker;
  r2 ← dict_item (metrics bundle) "r2";
  mape ← dict_item (metrics bundle) "mape";
  let base_confidence : fval :=
    if (r2 <? 0)%F then 30
    else if (r2 <? 0.05)%F then 38
    else if (r2 <? 0.1)%F then 45
    else if (r2 <? 0.15)%F then 52
    else if (r2 <? 0.2)%F then 58
    else if (r2 <? 0.3)%F then 65
    else if (r2 <? 0.5)%F then 72
    else py_min 90 (60 + (r2 * 80))%F in
  let mape_boost : fval :=
    if (mape <? 1)%F then 25
    else if (mape <? 2)%F then 20
    else if (mape <? 5)%F then 15
    else if (mape <? 10)%F then 10
    else if (mape <? 15)%F then 5
    else if (mape <? 25)%F then 0
    else (-10) in
  let confidence := (base_confidence + mape_boost)%F in
  let regime_adjust : fval :=
    if String.eqb regime "Bull" then 3
    else if String.eqb regime "Bear" then (-2)
    else 0 in
  let confidence := (confidence + regime_adjust)%F in
  let vol_penalty : fval :=
    if (volatility <? 0.005)%F then 0
    else if (volatility <? 0.015)%F then (-2)
    else if (volatility <? 0.03)%F then (-5)
    else if (volatility <? 0.05)%F then (-8)
    else (-15) in
  let confidence := (confidence + vol_penalty)%F in
  let confidence :=
    if (rsi >? 80)%F || (rsi <? 20)%F then (confidence - 3)%F else confidence in
  let mag_adjust : fval :=
    if (fabs predicted_return <? 0.3)%F then 2
    else if (fabs predicted_return <? 2)%F then 1
    else if (fabs predicted_return <? 5)%F then 0
    else if (fabs predicted_return <? 10)%F then (-5)
    else (-15) in
  let confidence := (confidence + mag_adjust)%F in
  mret (py_max 20 (py_min 95 confidence)).

Definition generate_signal
    (predicted_return confidence rsi volatility : fval) (regime : string) : Signal :=
  let vol_pct := (volatility * 100)%F in
  let buy_threshold := (1.2 + (vol_pct * 0.4))%F in
  let sell_threshold := (- 1.2 - (vol_pct * 0.4))%F in
  let '(action, sig_conf, reasoning) :=
    if (predicted_return >? buy_threshold)%F then
      if (confidence >? 38)%F then
        let reasoning := [Upward predicted_return confidence] in
        if (predicted_return >? buy_threshold * 2)%F then
          let reasoning := reasoning ++ [STRONG_BULLISH] in
          if (rsi <? 75)%F then (BUY, py_min 95 (confidence + 5)%F, reasoning)
          else (HOLD, (confidence * 0.75)%F, reasoning ++ [RSI_overbought])
        else
          if (rsi <? 65)%F then (BUY, confidence, reasoning)
          else (HOLD, (confidence * 0.85)%F, reasoning ++ [RSI_elevated])
      else (HOLD, confidence, [Weak_bullish])
    else if (predicted_return <? sell_threshold)%F then
      if (confidence >? 38)%F then
        let reasoning := [Downward predicted_return confidence] in
        if (predicted_return <? sell_threshold * 2)%F then
          let reasoning := reasoning ++ [STRONG_BEARISH] in
          if (rsi >? 25)%F then (SELL, py_min 95 (confidence + 5)%F, reasoning)
          else (HOLD, (confidence * 0.75)%F, reasoning ++ [RSI_oversold])
        else
          if (rsi >? 35)%F then (SELL, confidence, reasoning)
          else (HOLD, (confidence * 0.85)%F, reasoning ++ [RSI_depressed])
      else (HOLD, confidence, [Weak_bearish])
    else
      let reasoning := [Neutral predicted_return] in
      let reasoning :=
        if String.eqb regime "Bull" then reasoning ++ [Bull_wait_for_dips]
        else if String.eqb regime "Bear" then reasoning ++ [Bear_wait_for_bounces]
        else reasoning in
      (HOLD, (confidence * 0.6)%F, reasoning)
  in
  {| action := action;
     confidence := py_max 15 sig_conf;
     reasoning := reasoning |}.

Definition predict `{Kernels} (ticker : string) : st Predictor Prediction.t :=
  known ← gets models;
  match known !! ticker with
  | None => raise (ValueError ("No model for " +:+ ticker))
  | Some bundle =>
  histories ← gets (data_dict ∘ core);
  match histories !! ticker with
  | None => raise (ValueError ("No data for " +:+ ticker))
  | Some history =>
  let df := frame_of history in
  df_prepared ← on_core (prepare_features df ticker false);
  names ← gets (feature_cols ∘ core);
  latest_data ← lift (latest_row (scaled df_prepared) names);
  latest_bar ← lift (iloc_last history);
  let current_price := Num (Close latest_bar) in
  current_date ← lift (iloc_last (sf_Date df_prepared));
  let predicted_price := model bundle latest_data in
  let predicted_return := ((predicted_price - current_price) / current_price * 100)%F in
  let df_full := calculate_advanced_indicators (detect_market_regime df 252) in
  rsi ← lift (s ← getitem (num_cols df_full) "RSI_14"; iloc_last s);
  volatility ← lift (s ← getitem (num_cols df_full) "Volatility_20"; iloc_last s);
  regime ← lift (s ← getitem (str_cols df_full) "Regime"; iloc_last s);
  known ← gets models;
  conf ← lift (calculate_confidence known ticker predicted_return volatility rsi regime);
  let sig := generate_signal predicted_return conf rsi volatility regime in
  rsi_5 ← lift (s ← getitem (num_cols df_full) "RSI_5"; iloc_last s);
  macd_diff ← lift (s ← getitem (num_cols df_full) "MACD_Diff"; iloc_last s);
  bb_position ← lift (s ← getitem (num_cols df_full) "BB_20_Position"; iloc_last s);
  adx ← lift (s ← getitem (num_cols df_full) "ADX"; iloc_last s);
  days ← gets (prediction_days ∘ core);
  mret {|
    Prediction.ticker := ticker;
    Prediction.current_price := round_dec 2 current_price;
    Prediction.predicted_price := round_dec 2 predicted_price;
    Prediction.predicted_return := round_dec 2 predicted_return;
    Prediction.prediction_horizon_days := days;
    Prediction.current_date := current_date;
    Prediction.prediction_date := (current_date + Z.of_nat days)%Z;
    Prediction.signal := action sig;
    Prediction.confidence := round_dec 2 (confidence sig);
    Prediction.reasoning := reasoning sig;
    Prediction.rsi_14 := round_dec 2 rsi;
    Prediction.rsi_5 := round_dec 2 rsi_5;
    Prediction.volatility := round_dec 2 (volatility * 100)%F;
    Prediction.macd_diff := round_dec 2 macd_diff;
    Prediction.bb_position := round_dec 2 bb_position;
    Prediction.market_regime := regime;
    Prediction.adx := round_dec 2 adx;
    Prediction.model_metrics := metrics bundle
  |}
  end end.

Definition predict_all `{Kernels} (s : Predictor)
    : Predictor * gmap string (Entry Prediction.t) :=
  foldl (λ acc ticker,
           let '(s, predictions) := acc in
           match predict ticker s with
           | (s', Ok p) => (s', <[ticker := PredictionRecord p]> predictions)
           | (s', Raise e) =>
               (s', <[ticker := ErrorRecord ticker (str_of_exn e)]> predictions)
           end)
    (s, ∅) (sorted_keys (models s)).

Definition get_top_recommendations `{Kernels} (top_n : Z) (s : Predictor)
    : Predictor * (list Prediction.t * list Prediction.t) :=
  let '(s', all_preds) := predict_all s in
  let buys := predictions_with Prediction.signal BUY (dict_values all_preds) in
  let sells := predictions_with Prediction.signal SELL (dict_values all_preds) in
  let buys := sort_desc Prediction.confidence buys in
  let sells := sort_desc Prediction.confidence sells in
  (s', (slice_to top_n buys, slice_to top_n sells)).

(** [__init__] (the unused [regime_scalers] are left out). *)
Definition init (prediction_days : nat) : Predictor :=
  {| core := {| prediction_days := prediction_days; feature_cols := [];
                data_dict := ∅; scalers := ∅ |};
     models := ∅ |}.

End KSEStockPredictor.

(* ===================================================================== *)
(** * Sample data *)
(* ===================================================================== *)

(** Stand-ins for the library kernels, for running the pipeline on a
    sample: a volatility of 1 percent, no skewness, no excess kurtosis. *)
Definition sample_kernels : Kernels := {|
  rolling_std := λ _ s, (λ _, Num 0.01) <$> s;
  rolling_skew := λ _ s, (λ _, Num 0) <$> s;
  rolling_kurt := λ _ s, (λ _, Num 0) <$> s;
  np_log := λ s, (λ v, if isnan v then NaN else Num 0) <$> s;
  standard_scaler_fit := λ X,
    {| StandardScaler.mean_ := (λ _, Num 0) <$> X;
       StandardScaler.scale_ := (λ _, Num 1) <$> X |}
|}.

(** A flat history: thirty-three sessions at 100, the shortest history
    that leaves a row to predict from ([Return_Lag_30] is undefined on the
    first 31 rows, and the last row has no target). *)
Definition sample_bar (i : nat) : Bar :=
  {| Date := Z.of_nat i;
     Open := 100; High := 100; Low := 100; Close := 100;
     Volume := 1000 |}.

Definition sample_history : list Bar := sample_bar <$> seq 0 33.

(** The engine computes 115 feature columns. *)
Definition sample_scaler : StandardScaler.t :=
  {| StandardScaler.mean_ := replicate 115 (Num 0);
     StandardScaler.scale_ := replicate 115 (Num 1) |}.

Definition sample_core : Core := {|
  prediction_days := 1;
  feature_cols := [];
  data_dict := {[ "ENGRO" := sample_history ]};
  scalers := {[ "ENGRO" := sample_scaler ]}
|}.

Definition sample_bundle : HybridEnsemblePredictor.Bundle := {|
  HybridEnsemblePredictor.lstm := λ _, Num 0.4;
  HybridEnsemblePredictor.lgb := λ _, Num 100;
  HybridEnsemblePredictor.xgb := λ _, Num 170;
  HybridEnsemblePredictor.ensemble_weights := (Num 0.35, Num 0.35, Num 0.30);
  HybridEnsemblePredictor.metrics := {[ "lstm_r2" := Num (-0.5); "lgb_r2" := Num (-0.2); "xgb_r2" := Num (-0.1) ]}
|}.

Definition sample_predictor : HybridEnsemblePredictor.Predictor := {|
  HybridEnsemblePredictor.core := sample_core;
  HybridEnsemblePredictor.lstm_sequence_length := 3;
  HybridEnsemblePredictor.models := {[ "ENGRO" := sample_bundle ]};
  HybridEnsemblePredictor.lstm_scalers :=
    {[ "ENGRO" := {| MinMaxScaler.min_ := Num 0; MinMaxScaler.scale_ := Num 0.01 |} ]}
|}.

Definition outcome {P} (f : P → fval) (r : result P) : option fval :=
  match r with Ok p => Some (f p) | Raise _ => None end.

(** The same predictor with the last close at zero. *)
Definition zero_close_history : list Bar :=
  (sample_bar <$> seq 0 32) ++
  [{| Date := 32; Open := 100; High := 100; Low := 0; Close := 0; Volume := 1000 |}].

Definition zero_close_predictor : HybridEnsemblePredictor.Predictor := {|
  HybridEnsemblePredictor.core := {|
    prediction_days := 1;
    feature_cols := [];
    data_dict := {[ "ENGRO" := zero_close_history ]};
    scalers := {[ "ENGRO" := sample_scaler ]} |};
  HybridEnsemblePredictor.lstm_sequence_length := 3;
  HybridEnsemblePredictor.models := {[ "ENGRO" := sample_bundle ]};
  HybridEnsemblePredictor.lstm_scalers :=
    {[ "ENGRO" := {| MinMaxScaler.min_ := Num 0; MinMaxScaler.scale_ := Num 0.01 |} ]}
|}.

(** The tabular counterpart of the sample predictor. *)
Definition sample_tabular_bundle : KSEStockPredictor.Bundle := {|
  KSEStockPredictor.model := λ _, Num 100;
  KSEStockPredictor.metrics := {[ "r2" := Num 0.5; "mape" := Num 0.1 ]}
|}.

Definition sample_tabular_predictor : KSEStockPredictor.Predictor := {|
  KSEStockPredictor.core := sample_core;
  KSEStockPredictor.models := {[ "ENGRO" := sample_tabular_bundle ]}
|}.

(** Twenty sessions: too few for a feature row. *)
Definition short_history : list Bar := sample_bar <$> seq 0 20.

Definition short_core : Core := {|
  prediction_days := 1;
  feature_cols := [];
  data_dict := {[ "ENGRO" := short_history ]};
  scalers := {[ "ENGRO" := sample_scaler ]}
|}.

Definition short_predictor : HybridEnsemblePredictor.Predictor := {|
  HybridEnsemblePredictor.core := short_core;
  HybridEnsemblePredictor.lstm_sequence_length := 3;
  HybridEnsemblePredictor.models := {[ "ENGRO" := sample_bundle ]};
  HybridEnsemblePredictor.lstm_scalers :=
    {[ "ENGRO" := {| MinMaxScaler.min_ := Num 0; MinMaxScaler.scale_ := Num 0.01 |} ]}
|}.

Definition short_tabular_predictor : KSEStockPredictor.Predictor := {|
  KSEStockPredictor.core := short_core;
  KSEStockPredictor.models := {[ "ENGRO" := sample_tabular_bundle ]}
|}.

(** A file of four rows: two symbols, one date given twice. *)
Definition sample_rows : list CsvRow := [
  {| Ticker := "LUCK"; bar := sample_bar 1 |};
  {| Ticker := "ENGRO"; bar := sample_bar 0 |};
  {| Ticker := "LUCK"; bar := sample_bar 0 |};
  {| Ticker := "LUCK";
     bar := {| Date := 1; Open := 90; High := 90; Low := 90; Close := 90; Volume := 10 |} |}
].

(* ===================================================================== *)
(** * Properties *)
(* ===================================================================== *)

(** ** Comparisons and the float layer *)

Lemma Qltb_spec (x y : Q) : reflect (x < y) (Qltb x y).
Proof.
  unfold Qltb. destruct (Qle_bool y x) eqn:E.
  - apply Qle_bool_iff in E. simpl. constructor. lra.
  - simpl. constructor. apply Qnot_le_lt. intros H.
    apply Qle_bool_iff in H. congruence.
Qed.

Lemma Qzerob_spec (x : Q) : reflect (x == 0) (Qzerob x).
Proof.
  unfold Qzerob. destruct (Qeq_bool x 0) eqn:E; constructor.
  - by apply Qeq_bool_iff.
  - intros H. apply Qeq_bool_iff in H. congruence.
Qed.

(** Case analysis on every rational comparison left in the goal. *)
Ltac case_cmp :=
  repeat match goal with
  | |- context [Qltb ?x ?y] => destruct (Qltb_spec x y)
  | |- context [Qzerob ?x] => destruct (Qzerob_spec x)
  end.

(** The buy threshold of [generate_signal], on finite inputs. *)
Definition buy_threshold (volatility : Q) : Q := 1.2 + (volatility * 100) * 0.4.







(** ** Clamps *)

(** [max(lo, min(hi, c))] is a finite value of [[lo, hi]] whatever [c] is,
    NaN and the infinities included. *)
Lemma py_clamp_bounds (lo hi : Q) (c : fval) :
  lo <= hi → ∃ q, py_max lo (py_min hi c) = Num q ∧ lo <= q <= hi.
Proof.
  intros Hle. destruct c; unfold py_max, py_min, fgt; simpl; case_cmp; simpl;
    case_cmp; eexists; (split; [reflexivity | lra]).
Qed.

(** Every test of the signal state machine, taken as an opaque boolean. *)
Ltac case_tests :=
  repeat match goal with
  | |- context [if ?b then _ else _] => destruct b eqn:?
  end.

Ltac solve_signal_bounds :=
  case_tests; simpl; unfold py_max, py_min, fgt; simpl; case_cmp; simpl;
  case_cmp; eexists; (split; [reflexivity | lra]).

Lemma ensemble_signal_bounds (pr rsi vol : fval) (conf : Q) (regime : string) :
  conf <= 95 →
  ∃ c, confidence (HybridEnsemblePredictor.generate_signal pr conf rsi vol regime)
       = Num c ∧ 15 <= c <= 95.
Proof.
  intros Hc. unfold HybridEnsemblePredictor.generate_signal. solve_signal_bounds.
Qed.

Lemma tabular_signal_bounds (pr rsi vol : fval) (conf : Q) (regime : string) :
  conf <= 95 →
  ∃ c, confidence (KSEStockPredictor.generate_signal pr conf rsi vol regime)
       = Num c ∧ 15 <= c <= 95.
Proof.
  intros Hc. unfold KSEStockPredictor.generate_signal. solve_signal_bounds.
Qed.

(** ** Ranges of float values *)

(** A finite value of [[lo, hi]]. *)
Definition bounded (lo hi : Q) (v : fval) : Prop :=
  match v with
  | Num q => lo <= q <= hi
  | _ => False
  end.


(** Undefined, or non-negative (plus infinity included). *)
Definition nan_or_nonneg (v : fval) : Prop :=
  match v with
  | Num q => 0 <= q
  | PInf | NaN => True
  | NInf => False
  end.

(** Defined and non-negative. *)
Definition nonneg (v : fval) : Prop :=
  match v with
  | Num q => 0 <= q
  | PInf => True
  | _ => False
  end.

Lemma Qdiv_nonneg (a b : Q) : 0 <= a → 0 < b → 0 <= a / b.
Proof. intros Ha Hb. apply Qle_shift_div_l; [done | lra]. Qed.


Lemma Qsgn_pos (q : Q) : 0 < q → Z.sgn (Qnum q) = 1%Z.
Proof.
  intros H. apply Z.sgn_pos. unfold Qlt in H. simpl in H. lia.
Qed.


(** ** Lists of floats *)

Lemma Forall_zip_with_2 {A B C} (f : A → B → C)
    (P : A → Prop) (Q : B → Prop) (R : C → Prop) (l : list A) (k : list B) :
  (∀ x y, P x → Q y → R (f x y)) →
  Forall P l → Forall Q k → Forall R (zip_with f l k).
Proof.
  intros Hf Hl. revert k. induction Hl as [|x l Hx Hl IH]; intros k Hk; [constructor|].
  destruct Hk as [|y k Hy Hk]; simpl; [constructor|].
  constructor; [by apply Hf | by apply IH].
Qed.

Lemma Forall_any {A} (l : list A) : Forall (λ _, True) l.
Proof. by apply Forall_forall. Qed.

Lemma Forall_window {A} (P : A → Prop) (w i : nat) (s : list A) :
  Forall P s → Forall P (window w i s).
Proof.
  intros H. unfold window. apply Forall_forall. intros x Hx.
  apply subseteq_drop in Hx. apply subseteq_take in Hx.
  by eapply Forall_forall in H.
Qed.

Lemma Forall_rolling (P R : fval → Prop) (w : nat) agg (s : Series) :
  (∀ win, Forall P win → R (agg win)) →
  Forall P s → Forall R (rolling w agg s).
Proof.
  intros Hagg Hs. apply Forall_lookup. intros i x Hi.
  unfold rolling in Hi. rewrite list_lookup_imap in Hi.
  destruct (s !! i); simplify_eq/=. apply Hagg. by apply Forall_window.
Qed.

Lemma Forall_valid (P : fval → Prop) (win : list fval) :
  Forall P win → Forall (λ v, P v ∧ isnan v = false) (valid win).
Proof.
  unfold valid. induction 1 as [|x l Hx Hl IH]; [constructor|].
  rewrite filter_cons. case_decide; [constructor|]; done.
Qed.

(** ** Sums and means *)

Lemma fsum_nonneg (l : list fval) (s0 : fval) :
  nonneg s0 → Forall (λ v, nan_or_nonneg v ∧ isnan v = false) l →
  nonneg (foldl fadd s0 l).
Proof.
  intros H0 Hl. revert s0 H0. induction Hl as [|x l [Hx Hn] Hl IH]; intros s0 H0; [done|].
  simpl. apply IH. destruct s0, x; simpl in *; try done. lra.
Qed.

Definition Qlen {A} (l : list A) : Q := inject_Z (Z.of_nat (length l)).


Lemma Qlen_cons {A} (x : A) (l : list A) : Qlen (x :: l) == Qlen l + 1.
Proof.
  unfold Qlen. rewrite length_cons, Nat2Z.inj_succ, <- Z.add_1_r, inject_Z_plus.
  reflexivity.
Qed.

Lemma Qlen_nonneg {A} (l : list A) : 0 <= Qlen l.
Proof. unfold Qlen. change 0 with (inject_Z 0). rewrite <- Zle_Qle. lia. Qed.

Lemma Qlen_pos {A} (l : list A) : l ≠ [] → 0 < Qlen l.
Proof.
  destruct l as [|x l]; [done|]. intros _.
  pose proof (Qlen_cons x l). pose proof (Qlen_nonneg l). lra.
Qed.


Lemma mean_agg_nonneg (win : list fval) :
  Forall nan_or_nonneg win → nan_or_nonneg (mean_agg win).
Proof.
  intros H. apply Forall_valid in H. unfold mean_agg.
  destruct (valid win) as [|v vs] eqn:E; [done|].
  assert (Hs := fsum_nonneg (v :: vs) (Num 0) ltac:(simpl; lra) H).
  assert (Hc := Qlen_pos (v :: vs) ltac:(done)).
  unfold fsum, fcount. fold (Qlen (v :: vs)). revert Hs Hc.
  generalize (foldl fadd (Num 0) (v :: vs)).
  generalize (Qlen (v :: vs)).
  intros n t Ht Hn. destruct t as [q| | |]; simpl in *; try done.
  - destruct (Qzerob_spec n); [lra|]. simpl. by apply Qdiv_nonneg.
  - destruct (Qzerob_spec n); [lra|]. by rewrite Qsgn_pos.
Qed.


(** ** RSI *)


Lemma fdiv_Num_pos (x y : Q) : 0 < y → (Num x / Num y)%F = Num (x / y).
Proof. intros Hy. unfold fdiv. destruct (Qzerob_spec y); [lra | done]. Qed.







Lemma calculate_rsi_length (prices : Series) (period : nat) :
  length (calculate_rsi prices period) = length prices.
Proof.
  unfold calculate_rsi, fillna, rolling_mean, rolling, where_, sneg, diff, shift.
  rewrite !length_fmap, length_zip_with, !length_imap, !length_fmap,
    length_zip_with, length_take, length_app, length_replicate. lia.
Qed.

(** ** Rolling minimum and maximum *)

(** The order of the defined values, infinities included: [a <= b]. *)
Definition fle (a b : fval) : Prop :=
  isnan a = false ∧ isnan b = false ∧ (b <? a)%F = false.

Lemma fle_refl (a : fval) : isnan a = false → fle a a.
Proof.
  intros H. repeat split; try done. destruct a; simpl in *; try done.
  case_cmp; [lra | done].
Qed.

Lemma fle_trans (a b c : fval) : fle a b → fle b c → fle a c.
Proof.
  intros (Ha & Hb & Hab) (_ & Hc & Hbc). repeat split; try done.
  destruct a, b, c; simpl in *; try done.
  revert Hab Hbc. case_cmp; try done. lra.
Qed.

Lemma fle_total (a b : fval) :
  isnan a = false → isnan b = false → (a <? b)%F = true ∨ fle b a.
Proof.
  intros Ha Hb. destruct ((a <? b)%F) eqn:E; [by left | by right].
Qed.

Lemma flt_fle (a b : fval) : (a <? b)%F = true → fle a b.
Proof.
  intros H. destruct a, b; simpl in *; try done; repeat split; try done.
  simpl. revert H. case_cmp; try done. lra.
Qed.


Lemma fold_max_spec (vs : list fval) (a : fval) :
  isnan a = false → Forall (λ v, isnan v = false) vs →
  let m := foldl (λ m x, if (x >? m)%F then x else m) a vs in
  fle a m ∧ ∀ y, y ∈ vs → fle y m.
Proof.
  intros Ha Hvs. revert a Ha.
  induction Hvs as [|x vs Hx Hvs IH]; intros a Ha; simpl.
  - split; [by apply fle_refl | by intros y ?%elem_of_nil].
  - unfold fgt in *. destruct ((a <? x)%F) eqn:E.
    + destruct (IH x Hx) as [Hm Hall]. split.
      * eapply fle_trans; [apply flt_fle, E | exact Hm].
      * intros y [->|Hy]%elem_of_cons; [done | by apply Hall].
    + destruct (IH a Ha) as [Hm Hall]. split; [done|].
      intros y [->|Hy]%elem_of_cons; [|by apply Hall].
      eapply fle_trans; [|exact Hm]. by repeat split.
Qed.

Lemma valid_defined (win : list fval) : Forall (λ v, isnan v = false) (valid win).
Proof.
  eapply Forall_impl; [apply (Forall_valid (λ _, True)), Forall_any|].
  by intros v [_ ?].
Qed.

Lemma elem_of_valid (v : fval) (win : list fval) :
  v ∈ win → isnan v = false → v ∈ valid win.
Proof. intros Hv Hn. unfold valid. by apply list_elem_of_filter. Qed.


Lemma max_agg_spec (v : fval) (win : list fval) :
  v ∈ win → isnan v = false → fle v (max_agg win).
Proof.
  intros Hv Hn. apply elem_of_valid in Hv; [|done].
  pose proof (valid_defined win) as Hd. unfold max_agg.
  destruct (valid win) as [|a vs]; [by apply elem_of_nil in Hv|].
  apply Forall_cons in Hd as [Ha Hvs].
  destruct (fold_max_spec vs a Ha Hvs) as [Hm Hall].
  apply elem_of_cons in Hv as [->|Hv]; [done | by apply Hall].
Qed.



(** ** Stochastic oscillator *)






(** ** Average true range and ADX *)

(** A bar whose high is not below its low. *)
Definition well_formed_bar (b : Bar) : Prop := Low b <= High b.

Lemma fle_nonneg (a m : fval) : nonneg a → fle a m → nan_or_nonneg m.
Proof.
  intros Ha (_ & Hm & Hlt). destruct a, m; simpl in *; try done.
  revert Hlt. case_cmp; try done. lra.
Qed.

Lemma high_low_nonneg (df : list Bar) :
  Forall well_formed_bar df → Forall nonneg (ssub (col High df) (col Low df)).
Proof.
  induction 1 as [|b df Hb Hdf IH]; [constructor|].
  constructor; [|exact IH]. unfold well_formed_bar in Hb. simpl. lra.
Qed.

Lemma calculate_atr_nonneg (df : list Bar) (period : nat) :
  Forall well_formed_bar df → Forall nan_or_nonneg (calculate_atr df period).
Proof.
  intros Hdf. unfold calculate_atr, rolling_mean.
  eapply Forall_rolling; [apply mean_agg_nonneg|].
  eapply Forall_zip_with_2; [| apply high_low_nonneg, Hdf | apply Forall_any].
  intros hl [hc lc] Hhl _. simpl in Hhl |- *.
  apply (fle_nonneg hl); [done|]. apply max_agg_spec.
  - apply elem_of_cons. by left.
  - by destruct hl.
Qed.




(** ** Regime detector *)

(** The trailing [w]-day return of row [i], as the specification words it:
    the relative change of the close over the last [w] rows, undefined for
    the first [w] rows. *)
Definition trailing_return (close : list Q) (w i : nat) : fval :=
  match close !! i, close !! (i - w)%nat with
  | Some c, Some c0 => if decide (w <= i)%nat then (Num c / Num c0 - 1)%F else NaN
  | _, _ => NaN
  end.

(** The label of a row by its trailing return. *)
Definition classify (trailing : fval) : string :=
  if (trailing >? 0.1)%F then "Bull"
  else if (trailing <? -0.1)%F then "Bear"
  else "Sideways".

Lemma column_assign {V} (name : string) (v : V) (cols : list (string * V)) :
  column name (assign name v cols) = Some v.
Proof.
  induction cols as [|[n w] rest IH]; simpl.
  - by rewrite String.eqb_refl.
  - destruct (String.eqb n name) eqn:E; simpl; by rewrite E.
Qed.

Lemma column_assign_ne {V} (name other : string) (v : V) (cols : list (string * V)) :
  other ≠ name → column other (assign name v cols) = column other cols.
Proof.
  intros Hne. induction cols as [|[n w] rest IH]; simpl.
  - destruct (String.eqb_spec name other); congruence.
  - destruct (String.eqb_spec n name) as [->|]; simpl.
    + destruct (String.eqb_spec name other); congruence.
    + by rewrite IH.
Qed.

Lemma lookup_shift (n : nat) (s : Series) (i : nat) :
  shift n s !! i =
    if decide (i < length s)%nat
    then (if decide (i < n)%nat then Some NaN else s !! (i - n)%nat)
    else None.
Proof.
  unfold shift. case_decide.
  - rewrite lookup_take_lt by done. case_decide.
    + rewrite lookup_app_l by (by rewrite length_replicate).
      by apply lookup_replicate_2.
    + rewrite lookup_app_r by (rewrite length_replicate; lia).
      by rewrite length_replicate.
  - apply lookup_take_ge. lia.
Qed.

Lemma shift_length (n : nat) (s : Series) : length (shift n s) = length s.
Proof. unfold shift. rewrite length_take, length_app, length_replicate. lia. Qed.

Lemma regime_label (v : fval) :
  let a := if isnan v then Num 0 else v in
  (if (a <? -0.1)%F then "Bear"%string
   else if (a >? 0.1)%F then "Bull"%string else "Sideways"%string) = classify v.
Proof.
  unfold classify, fgt. destruct v; simpl; try done. case_cmp; try done. lra.
Qed.

Lemma detect_market_regime_labels `{Kernels} (df : DataFrame) (w : nat) :
  column "Regime" (str_cols (detect_market_regime df w)) =
    Some (imap (λ i _, classify (trailing_return (Close <$> bars df) w i)) (bars df)).
Proof.
  unfold detect_market_regime, set_str_col. cbn [str_cols bars set_col].
  rewrite column_assign. f_equal. apply list_eq. intros i.
  rewrite list_lookup_imap, !lookup_zip_with.
  unfold fillna, pct_change, col.
  rewrite !list_lookup_fmap, lookup_zip_with, lookup_shift, length_fmap,
    !list_lookup_fmap.
  unfold trailing_return. rewrite !list_lookup_fmap.
  destruct (bars df !! i) as [b|] eqn:Hb; [|done].
  apply lookup_lt_Some in Hb as Hlt. cbn [fmap option_fmap option_map mbind option_bind].
  rewrite lookup_replicate_2 by done.
  destruct (decide (i < length (bars df))%nat); [|lia].
  destruct (decide (i < w)%nat), (decide (w <= i)%nat); try lia.
  - cbn. destruct (bars df !! (i - w)%nat); by cbn.
  - destruct (bars df !! (i - w)%nat) as [b0|] eqn:Hb0.
    2:{ apply lookup_ge_None in Hb0. lia. }
    cbn [fmap option_fmap option_map mbind option_bind].
    generalize (Num (Close b) / Num (Close b0) - 1)%F. intros v.
    f_equal. apply regime_label.
Qed.


(** ** Ensemble confidence against its reference definition *)

Inductive Regime : Type := Bull | Bear | Sideways.

(** The label the regime detector writes for a regime. *)
Definition regime_name (r : Regime) : string :=
  match r with
  | Bull => "Bull"
  | Bear => "Bear"
  | Sideways => "Sideways"
  end.

(** The reference definition, term by term as the specification states it. *)
Definition reference_base (avg_r2 : Q) : Q :=
  if Qlt_le_dec avg_r2 0 then 35
  else if Qlt_le_dec avg_r2 0.1 then 45
  else if Qlt_le_dec avg_r2 0.2 then 55
  else if Qlt_le_dec avg_r2 0.3 then 65
  else Qmin 85 (55 + avg_r2 * 80).

Definition reference_agreement_boost (spread : Q) : Q := (1 - Qmin spread 1) * 20.

Definition reference_volatility_penalty (volatility : Q) : Q :=
  if Qlt_le_dec volatility 0.005 then 0
  else if Qlt_le_dec volatility 0.015 then -2
  else if Qlt_le_dec volatility 0.03 then -5
  else -10.

Definition reference_regime_adjustment (r : Regime) : Q :=
  match r with
  | Bull => 2
  | Bear => -2
  | Sideways => 0
  end.

Definition reference_confidence (avg_r2 spread volatility : Q) (r : Regime) : Q :=
  Qmax 25 (Qmin 95 (reference_base avg_r2 + reference_agreement_boost spread
                    + reference_volatility_penalty volatility
                    + reference_regime_adjustment r)).

Lemma Qmin_case (x y : Q) : (x <= y ∧ Qmin x y == x) ∨ (y < x ∧ Qmin x y == y).
Proof.
  destruct (Qlt_le_dec y x) as [Hlt|Hle].
  - right. split; [done|]. apply Q.min_r. lra.
  - left. split; [done|]. by apply Q.min_l.
Qed.

Lemma Qmax_case (x y : Q) : (y <= x ∧ Qmax x y == x) ∨ (x < y ∧ Qmax x y == y).
Proof.
  destruct (Qlt_le_dec x y) as [Hlt|Hle].
  - right. split; [done|]. apply Q.max_r. lra.
  - left. split; [done|]. by apply Q.max_l.
Qed.

(** The metrics dictionary with the three R² entries set. *)
Definition with_r2 (lstm_r2 lgb_r2 xgb_r2 : Q) (m : gmap string fval) : gmap string fval :=
  <["lstm_r2" := Num lstm_r2]> (<["lgb_r2" := Num lgb_r2]> (<["xgb_r2" := Num xgb_r2]> m)).

Lemma with_r2_get (a b c : Q) (m : gmap string fval) :
  dict_get (with_r2 a b c m) "lstm_r2" 0.15 = Num a ∧
  dict_get (with_r2 a b c m) "lgb_r2" 0.18 = Num b ∧
  dict_get (with_r2 a b c m) "xgb_r2" 0.17 = Num c.
Proof. unfold dict_get, with_r2. by simplify_map_eq. Qed.

Lemma base_confidence_reference (avg : Q) :
  ∃ x, (if (Num avg <? 0)%F then Num 35
        else if (Num avg <? 0.1)%F then Num 45
        else if (Num avg <? 0.2)%F then Num 55
        else if (Num avg <? 0.3)%F then Num 65
        else py_min 85 (55 + (Num avg * 80))%F) = Num x ∧ x == reference_base avg.
Proof.
  unfold reference_base, py_min. cbn [flt fadd fmul].
  destruct (Qmin_case 85 (55 + avg * 80)) as [[? E]|[? E]];
    repeat destruct (Qlt_le_dec _ _); case_cmp; try lra;
    eexists; (split; [reflexivity | lra]).
Qed.

Lemma agreement_boost_reference (spread : Q) :
  ∃ x, ((1 - py_min (Num spread) 1) * 20)%F = Num x ∧
       x == reference_agreement_boost spread.
Proof.
  unfold reference_agreement_boost, py_min. cbn [flt].
  destruct (Qmin_case spread 1) as [[? E]|[? E]]; case_cmp; try lra;
    cbn [fsub fadd fneg fmul]; eexists; (split; [reflexivity | lra]).
Qed.

Lemma volatility_penalty_reference (volatility : Q) :
  ∃ x, (if (Num volatility <? 0.005)%F then Num 0
        else if (Num volatility <? 0.015)%F then Num (-2)
        else if (Num volatility <? 0.03)%F then Num (-5)
        else Num (-10)) = Num x ∧ x == reference_volatility_penalty volatility.
Proof.
  unfold reference_volatility_penalty. cbn [flt].
  repeat destruct (Qlt_le_dec _ _); case_cmp; try lra;
    eexists; (split; [reflexivity | lra]).
Qed.

Lemma clamp_reference (lo hi x : Q) :
  ∃ y, py_max lo (py_min hi (Num x)) = Num y ∧ y == Qmax lo (Qmin hi x).
Proof.
  unfold py_max, py_min, fgt. cbn [flt].
  destruct (Qmin_case hi x) as [[? E]|[? E]];
    destruct (Qmax_case lo (Qmin hi x)) as [[? E']|[? E']];
    case_cmp; cbn [flt]; case_cmp; try lra;
    eexists; (split; [reflexivity | lra]).
Qed.

Lemma regime_adjustment_reference (r : Regime) (c : Q) :
  ∃ t, (if String.eqb (regime_name r) "Bull" then (Num c + 2)%F
        else if String.eqb (regime_name r) "Bear" then (Num c - 2)%F
        else Num c) = Num t ∧ t == c + reference_regime_adjustment r.
Proof. destruct r; cbn; eexists; (split; [reflexivity | lra]). Qed.

(** ** What a prediction call reads and writes *)

(** The predictor with its [feature_cols] attribute replaced: the only
    attribute a prediction call assigns. *)
Definition ensemble_with_cols (cols : list string)
    (s : HybridEnsemblePredictor.Predictor) : HybridEnsemblePredictor.Predictor :=
  HybridEnsemblePredictor.set_core
    (set_feature_cols cols (HybridEnsemblePredictor.core s)) s.

Definition tabular_with_cols (cols : list string)
    (s : KSEStockPredictor.Predictor) : KSEStockPredictor.Predictor :=
  KSEStockPredictor.set_core (set_feature_cols cols (KSEStockPredictor.core s)) s.

Lemma ensemble_with_cols_id (s : HybridEnsemblePredictor.Predictor) :
  ensemble_with_cols (feature_cols (HybridEnsemblePredictor.core s)) s = s.
Proof. by destruct s as [[] ? ? ?]. Qed.

Lemma tabular_with_cols_id (s : KSEStockPredictor.Predictor) :
  tabular_with_cols (feature_cols (KSEStockPredictor.core s)) s = s.
Proof. by destruct s as [[] ?]. Qed.

(** A small relational logic for methods.  [assign cols s] stands for the
    object [s] with [feature_cols] replaced.  A method is
    - a [reader] when it leaves the object alone and its outcome does not
      depend on [feature_cols];
    - [framed] when [feature_cols] is all it may change;
    - [settled] when, run on two objects that differ in [feature_cols] only,
      it has the same outcome, changes [feature_cols] only, returns in one
      and the same object, and raises either in that same object or with
      both objects untouched. *)
Section Lockstep.
Context {S : Type} (assign : list string → S → S).
Hypothesis assign_assign : ∀ a b s, assign a (assign b s) = assign a s.

Definition reader {A} (m : st S A) : Prop :=
  ∀ s, ∃ r, ∀ c, m (assign c s) = (assign c s, r).

Definition framed {A} (m : st S A) : Prop :=
  ∀ s c, ∃ d, (m (assign c s)).1 = assign d s.

Definition settled {A} (m : st S A) : Prop :=
  ∀ s c1 c2,
    let p1 := m (assign c1 s) in
    let p2 := m (assign c2 s) in
    p1.2 = p2.2 ∧ (∃ d, p1.1 = assign d s) ∧
    match p1.2 with
    | Ok _ => p1.1 = p2.1
    | Raise _ => (p1.1 = assign c1 s ∧ p2.1 = assign c2 s) ∨ p1.1 = p2.1
    end.

Lemma reader_gets {A} (f : S → A) :
  (∀ s c1 c2, f (assign c1 s) = f (assign c2 s)) → reader (gets f).
Proof.
  intros Hf s. exists (Ok (f (assign [] s))). intros c.
  unfold gets. by rewrite (Hf s c []).
Qed.

Lemma reader_lift {A} (r : result A) : reader (lift r).
Proof. intros s. by exists r. Qed.

Lemma reader_raise {A} (e : exn) : reader (@raise S A e).
Proof. intros s. by exists (Raise e). Qed.

Lemma framed_ret {A} (a : A) : framed (mret a).
Proof. intros s c. by exists c. Qed.

Lemma framed_raise {A} (e : exn) : framed (@raise S A e).
Proof. intros s c. by exists c. Qed.

Lemma framed_lift {A} (r : result A) : framed (lift r).
Proof. intros s c. by exists c. Qed.

Lemma framed_gets {A} (f : S → A) : framed (gets f).
Proof. intros s c. by exists c. Qed.

Lemma framed_modify (cols : list string) : framed (modify (assign cols)).
Proof. intros s c. exists cols. unfold modify. simpl. apply assign_assign. Qed.

Lemma framed_bind {A B} (m : st S A) (k : A → st S B) :
  framed m → (∀ a, framed (k a)) → framed (m ≫= k).
Proof.
  intros Hm Hk s c. destruct (Hm s c) as [d Hd].
  unfold mbind, st_bind. destruct (m (assign c s)) as [s1 [a|e]]; simpl in *.
  - subst s1. apply Hk.
  - by exists d.
Qed.

Lemma settled_raise {A} (e : exn) : settled (@raise S A e).
Proof.
  intros s c1 c2. unfold raise. simpl. split; [done|]. split; [by exists c1|].
  by left.
Qed.

Lemma settled_modify (cols : list string) : settled (modify (assign cols)).
Proof.
  intros s c1 c2. unfold modify. simpl. split; [done|].
  rewrite !assign_assign. split; [by exists cols | done].
Qed.

Lemma settled_bind_reader {A B} (m : st S A) (k : A → st S B) :
  reader m → (∀ a, settled (k a)) → settled (m ≫= k).
Proof.
  intros Hm Hk s c1 c2. destruct (Hm s) as [r Hr].
  unfold mbind, st_bind. rewrite !Hr. destruct r as [a|e].
  - apply Hk.
  - simpl. split; [done|]. split; [by exists c1 | by left].
Qed.

Lemma settled_bind {A B} (m : st S A) (k : A → st S B) :
  settled m → (∀ a, framed (k a)) → settled (m ≫= k).
Proof.
  intros Hm Hk s c1 c2. destruct (Hm s c1 c2) as (Hr & [d Hd] & Hs).
  unfold mbind, st_bind. simpl in *.
  destruct (m (assign c1 s)) as [s1 [a|e]], (m (assign c2 s)) as [s2 [a'|e']];
    simpl in *; simplify_eq.
  - split; [done|]. split; [apply Hk|].
    destruct (k a' (assign d s)) as [? [?|?]]; simpl; [done | by right].
  - split; [done|]. split; [by exists d | done].
Qed.
End Lockstep.

Lemma set_feature_cols_twice (a b : list string) (c : Core) :
  set_feature_cols a (set_feature_cols b c) = set_feature_cols a c.
Proof. reflexivity. Qed.

Lemma ensemble_with_cols_twice (a b : list string) (s : HybridEnsemblePredictor.Predictor) :
  ensemble_with_cols a (ensemble_with_cols b s) = ensemble_with_cols a s.
Proof. reflexivity. Qed.

Lemma tabular_with_cols_twice (a b : list string) (s : KSEStockPredictor.Predictor) :
  tabular_with_cols a (tabular_with_cols b s) = tabular_with_cols a s.
Proof. reflexivity. Qed.

Ltac framed_steps twice :=
  repeat lazymatch goal with
  | |- framed _ (mbind _ _) => apply framed_bind; [| intros ?]
  | |- framed _ (mret _) => apply framed_ret
  | |- framed _ (raise _) => apply framed_raise
  | |- framed _ (lift _) => apply framed_lift
  | |- framed _ (gets _) => apply framed_gets
  | |- framed _ (modify _) => apply framed_modify; apply twice
  | |- framed _ (match ?x with _ => _ end) => destruct x
  end.

Ltac read_step :=
  apply settled_bind_reader;
    [ first [ apply reader_lift | apply reader_raise
            | apply reader_gets; reflexivity ] | intros ? ].

Lemma prepare_features_settled `{Kernels} (df : DataFrame) (ticker : string) :
  settled set_feature_cols (prepare_features df ticker false).
Proof.
  unfold prepare_features. read_step. cbv beta iota zeta.
  case_decide; [apply settled_raise|].
  apply settled_bind; [apply settled_modify, set_feature_cols_twice | intros ?].
  framed_steps set_feature_cols_twice.
Qed.

Lemma ensemble_on_core_settled {A} (m : st Core A) :
  settled set_feature_cols m →
  settled ensemble_with_cols (HybridEnsemblePredictor.on_core m).
Proof.
  intros Hm s c1 c2. destruct (Hm (HybridEnsemblePredictor.core s) c1 c2) as (Hr & [d Hd] & Hs).
  unfold HybridEnsemblePredictor.on_core, ensemble_with_cols in *.
  cbn [HybridEnsemblePredictor.core HybridEnsemblePredictor.set_core] in *.
  destruct (m (set_feature_cols c1 _)) as [k1 r1], (m (set_feature_cols c2 _)) as [k2 r2].
  simpl in *. subst. split; [done|]. split; [by exists d|].
  destruct r2; [by subst|]. destruct Hs as [[-> ->]|<-]; [by left | by right].
Qed.

Lemma tabular_on_core_settled {A} (m : st Core A) :
  settled set_feature_cols m →
  settled tabular_with_cols (KSEStockPredictor.on_core m).
Proof.
  intros Hm s c1 c2. destruct (Hm (KSEStockPredictor.core s) c1 c2) as (Hr & [d Hd] & Hs).
  unfold KSEStockPredictor.on_core, tabular_with_cols in *.
  cbn [KSEStockPredictor.core KSEStockPredictor.set_core] in *.
  destruct (m (set_feature_cols c1 _)) as [k1 r1], (m (set_feature_cols c2 _)) as [k2 r2].
  simpl in *. subst. split; [done|]. split; [by exists d|].
  destruct r2; [by subst|]. destruct Hs as [[-> ->]|<-]; [by left | by right].
Qed.

Lemma ensemble_predict_settled `{Kernels} (ticker : string) :
  settled ensemble_with_cols (HybridEnsemblePredictor.predict ticker).
Proof.
  unfold HybridEnsemblePredictor.predict.
  read_step. case_match; [|apply settled_raise].
  read_step. case_match; [|apply settled_raise].
  cbv zeta. do 5 read_step. case_match; [apply settled_raise|].
  apply settled_bind; [apply ensemble_on_core_settled, prepare_features_settled | intros ?].
  framed_steps ensemble_with_cols_twice.
Qed.

Lemma tabular_predict_settled `{Kernels} (ticker : string) :
  settled tabular_with_cols (KSEStockPredictor.predict ticker).
Proof.
  unfold KSEStockPredictor.predict.
  read_step. case_match; [|apply settled_raise].
  read_step. case_match; [|apply settled_raise].
  cbv zeta.
  apply settled_bind; [apply tabular_on_core_settled, prepare_features_settled | intros ?].
  framed_steps tabular_with_cols_twice.
Qed.

(** ** Rounding *)

Lemma round_half_even_bounds (y : Q) (a b : Z) :
  inject_Z a <= y <= inject_Z b → (a <= round_half_even y <= b)%Z.
Proof.
  intros [Ha Hb]. unfold round_half_even.
  pose proof (Qfloor_le y) as Hfl. pose proof (Qlt_floor y) as Hlt.
  assert (a <= Qfloor y)%Z as Hlo.
  { rewrite <- (Qfloor_Z a). by apply Qfloor_resp_le. }
  assert (Qfloor y <= b)%Z as Hhi.
  { rewrite <- (Qfloor_Z b). by apply Qfloor_resp_le. }
  assert (y < inject_Z b → (Qfloor y + 1 <= b)%Z) as Hstep.
  { intros Hyb. assert (inject_Z (Qfloor y) < inject_Z b) as Hq by lra.
    rewrite <- Zlt_Qlt in Hq. lia. }
  assert (¬ y < inject_Z b → y - inject_Z (Qfloor y) == 0) as Hint.
  { intros Hyb. assert (y == inject_Z b) as E by lra.
    rewrite (Qfloor_comp _ _ E), Qfloor_Z. lra. }
  destruct (Qlt_le_dec y (inject_Z b)) as [Hyb|Hyb].
  - specialize (Hstep Hyb). repeat case_match; lia.
  - assert (y - inject_Z (Qfloor y) == 0) as E by (apply Hint; lra).
    destruct (Qltb_spec (y - inject_Z (Qfloor y)) (1 # 2)); [lia | lra].
Qed.

Lemma round_dec_2_bounds (lo hi : Z) (x : Q) :
  inject_Z lo <= x <= inject_Z hi →
  ∃ y, round_dec 2 (Num x) = Num y ∧ inject_Z lo <= y <= inject_Z hi.
Proof.
  intros [Hlo Hhi]. unfold round_dec. eexists. split; [reflexivity|].
  change (inject_Z (10 ^ Z.of_nat 2)) with (inject_Z 100).
  destruct (round_half_even_bounds (x * inject_Z 100) (lo * 100) (hi * 100)) as [Ha Hb].
  { rewrite !inject_Z_mult. change (inject_Z 100) with 100.
    revert Hlo Hhi. generalize (inject_Z lo), (inject_Z hi). intros l h Hlo Hhi. lra. }
  rewrite Zle_Qle, inject_Z_mult in Ha, Hb. change (inject_Z 100) with 100 in *.
  revert Ha Hb. generalize (inject_Z (round_half_even (x * 100))).
  generalize (inject_Z lo), (inject_Z hi). intros l h r Ha Hb. clear Hlo Hhi.
  split; [apply Qle_shift_div_l | apply Qle_shift_div_r]; lra.
Qed.

Lemma round_dec_2_exact (n : Z) : round_dec 2 (Num (inject_Z n)) = Num (inject_Z (n * 100) / inject_Z 100).
Proof.
  unfold round_dec. change (inject_Z (10 ^ Z.of_nat 2)) with (inject_Z 100).
  f_equal. f_equal. f_equal.
  destruct (round_half_even_bounds (inject_Z n * inject_Z 100) (n * 100) (n * 100)) as [Ha Hb].
  { rewrite inject_Z_mult. split; apply Qle_refl. }
  lia.
Qed.

(** ** Postconditions of methods *)

(** [ensures Q m]: whenever [m] returns, its value satisfies [Q]. *)
Definition ensures {S A} (Q : A → Prop) (m : st S A) : Prop :=
  ∀ s, match (m s).2 with Ok a => Q a | Raise _ => True end.

Definition returns {A} (Q : A → Prop) (r : result A) : Prop :=
  match r with Ok a => Q a | Raise _ => True end.

Lemma ensures_ret {S A} (Q : A → Prop) (a : A) : Q a → ensures (S := S) Q (mret a).
Proof. by intros Ha s. Qed.

Lemma ensures_raise {S A} (Q : A → Prop) (e : exn) : ensures Q (@raise S A e).
Proof. by intros s. Qed.

Lemma ensures_bind {S A B} (Q : B → Prop) (m : st S A) (k : A → st S B) :
  (∀ a, ensures Q (k a)) → ensures Q (m ≫= k).
Proof.
  intros Hk s. unfold mbind, st_bind. destruct (m s) as [s1 [a|e]]; [apply Hk | done].
Qed.

Lemma ensures_bind_lift {S A B} (Q : B → Prop) (r : result A) (k : A → st S B) :
  (∀ a, r = Ok a → ensures Q (k a)) → ensures Q (lift r ≫= k).
Proof.
  intros Hk s. unfold mbind, st_bind, lift. destruct r as [a|e]; [by apply Hk | done].
Qed.

Ltac ensures_steps :=
  repeat lazymatch goal with
  | |- ensures _ (mbind _ (lift (KSEStockPredictor.calculate_confidence _ _ _ _ _ _))) =>
      apply ensures_bind_lift; intros ? ?
  | |- ensures _ (mbind _ _) => apply ensures_bind; intros ?
  | |- ensures _ (raise _) => apply ensures_raise
  | |- ensures _ (match ?x with _ => _ end) => destruct x
  end.

(** ** Confidence of the prediction record *)

Lemma ensemble_confidence_bounds (ticker : string) (predicted_return volatility rsi : fval)
    (regime : string) (spread : fval) (metrics : gmap string fval) :
  bounded 25 95
    (HybridEnsemblePredictor.calculate_confidence_ensemble ticker predicted_return
       volatility rsi regime spread metrics).
Proof.
  unfold HybridEnsemblePredictor.calculate_confidence_ensemble. cbv zeta.
  match goal with |- bounded _ _ (py_max _ (py_min _ ?c)) =>
    destruct (py_clamp_bounds 25 95 c ltac:(lra)) as (q & -> & Hq) end.
  done.
Qed.

Lemma tabular_confidence_bounds (models : gmap string KSEStockPredictor.Bundle)
    (ticker : string) (predicted_return volatility rsi : fval) (regime : string) :
  returns (bounded 20 95)
    (KSEStockPredictor.calculate_confidence models ticker predicted_return
       volatility rsi regime).
Proof.
  unfold KSEStockPredictor.calculate_confidence, dict_item.
  destruct (models !! ticker) as [b|]; [|done]. cbn [mbind result_bind].
  destruct (KSEStockPredictor.metrics b !! "r2") as [r2|]; [|done].
  destruct (KSEStockPredictor.metrics b !! "mape") as [mape|]; [|done].
  cbv zeta. cbn [mbind result_bind mret result_ret returns].
  match goal with |- bounded _ _ (py_max _ (py_min _ ?c)) =>
    destruct (py_clamp_bounds 20 95 c ltac:(lra)) as (q & -> & Hq) end.
  done.
Qed.

Lemma reported_confidence_bounds (c : fval) :
  bounded 15 95 c → bounded 15 95 (round_dec 2 c).
Proof.
  destruct c as [q| | |]; try done. intros Hq.
  destruct (round_dec_2_bounds 15 95 q Hq) as (y & -> & Hy). done.
Qed.

Lemma ensemble_predict_confidence `{Kernels} (ticker : string)
    (s : HybridEnsemblePredictor.Predictor) :
  returns (λ p, bounded 15 95 (HybridEnsemblePredictor.Prediction.confidence p))
    (HybridEnsemblePredictor.predict ticker s).2.
Proof.
  revert s. change (ensures (λ p, bounded 15 95 (HybridEnsemblePredictor.Prediction.confidence p))
    (HybridEnsemblePredictor.predict ticker)).
  unfold HybridEnsemblePredictor.predict. ensures_steps.
  apply ensures_ret. cbn [HybridEnsemblePredictor.Prediction.confidence].
  apply reported_confidence_bounds.
  match goal with |- context [HybridEnsemblePredictor.calculate_confidence_ensemble ?a ?b ?c ?d ?e ?f ?g] =>
    pose proof (ensemble_confidence_bounds a b c d e f g) as Hc;
    destruct (HybridEnsemblePredictor.calculate_confidence_ensemble a b c d e f g) as [q| | |]; try done
  end.
  match goal with |- context [HybridEnsemblePredictor.generate_signal ?pr _ ?rsi ?vol ?reg] =>
    destruct (ensemble_signal_bounds pr rsi vol q reg) as (c & -> & Hb) end;
    [simpl in Hc; lra | done].
Qed.

Lemma tabular_predict_confidence `{Kernels} (ticker : string)
    (s : KSEStockPredictor.Predictor) :
  returns (λ p, bounded 15 95 (KSEStockPredictor.Prediction.confidence p))
    (KSEStockPredictor.predict ticker s).2.
Proof.
  revert s. change (ensures (λ p, bounded 15 95 (KSEStockPredictor.Prediction.confidence p))
    (KSEStockPredictor.predict ticker)).
  unfold KSEStockPredictor.predict. ensures_steps.
  apply ensures_ret. cbn [KSEStockPredictor.Prediction.confidence].
  apply reported_confidence_bounds.
  match goal with Hc : KSEStockPredictor.calculate_confidence ?a ?b ?c ?d ?e ?f = Ok ?v |- _ =>
    pose proof (tabular_confidence_bounds a b c d e f) as Hb; rewrite Hc in Hb;
    destruct v as [q| | |]; try done
  end.
  match goal with |- context [KSEStockPredictor.generate_signal ?pr _ ?rsi ?vol ?reg] =>
    destruct (tabular_signal_bounds pr rsi vol q reg) as (c & -> & Hb') end;
    [simpl in Hb; lra | done].
Qed.

(** ** Two calls in a row *)

Lemma settled_twice {S A} (assign : list string → S → S) (cols_of : S → list string)
    (m : st S A) :
  (∀ s, assign (cols_of s) s = s) →
  (∀ a b s, assign a (assign b s) = assign a s) →
  settled assign m →
  ∀ s, m (m s).1 = m s ∧ ∃ d, (m s).1 = assign d s.
Proof.
  intros Hid Htwice Hm s.
  destruct (Hm s (cols_of s) (cols_of s)) as (_ & [d Hd] & _).
  rewrite Hid in Hd. split; [|by exists d].
  destruct (Hm s (cols_of s) d) as (Hr & _ & Hs). rewrite Hid, <- Hd in Hr, Hs.
  destruct (m s) as [s1 r1] eqn:E1. simpl in *.
  destruct (m s1) as [s2 r2] eqn:E2. simpl in *. subst r2.
  f_equal. destruct r1; [done|]. by destruct Hs as [[_ ?]|?].
Qed.

(** ** The batch *)

Definition entry_of {P} (ticker : string) (r : result P) : Entry P :=
  match r with
  | Ok p => PredictionRecord p
  | Raise e => ErrorRecord ticker (str_of_exn e)
  end.

Lemma sorted_keys_elem {V} (d : gmap string V) (k : string) :
  k ∈ sorted_keys d ↔ is_Some (d !! k).
Proof.
  unfold sorted_keys. rewrite merge_sort_Permutation, list_elem_of_fmap. split.
  - intros ([k' v] & -> & Hin). apply elem_of_map_to_list in Hin. by exists v.
  - intros [v Hv]. exists (k, v). split; [done|]. by apply elem_of_map_to_list.
Qed.

Section Batch.
Context {S P : Type} (assign : list string → S → S) (cols_of : S → list string).
Context (predict : string → st S P).
Hypothesis assign_id : ∀ s, assign (cols_of s) s = s.
Hypothesis predict_settled : ∀ ticker, settled assign (predict ticker).

Definition batch_step (acc : S * gmap string (Entry P)) (ticker : string)
    : S * gmap string (Entry P) :=
  let '(s, predictions) := acc in
  match predict ticker s with
  | (s', Ok p) => (s', <[ticker := PredictionRecord p]> predictions)
  | (s', Raise e) => (s', <[ticker := ErrorRecord ticker (str_of_exn e)]> predictions)
  end.

Lemma batch_step_spec (s : S) (d : list string) (acc : gmap string (Entry P))
    (ticker : string) :
  ∃ d', batch_step (assign d s, acc) ticker =
        (assign d' s, <[ticker := entry_of ticker (predict ticker s).2]> acc).
Proof.
  destruct (predict_settled ticker s d (cols_of s)) as (Hr & [d' Hd] & _).
  rewrite assign_id in Hr. exists d'. unfold batch_step.
  destruct (predict ticker (assign d s)) as [s1 r1]. simpl in *. subst.
  by destruct (predict ticker s).2.
Qed.

Lemma batch_fold_spec (s : S) (tickers : list string) (d : list string)
    (acc : gmap string (Entry P)) :
  ∃ d', foldl batch_step (assign d s, acc) tickers =
        (assign d' s,
         foldl (λ m ticker, <[ticker := entry_of ticker (predict ticker s).2]> m)
           acc tickers).
Proof.
  revert d acc. induction tickers as [|t tickers IH]; intros d acc.
  - by exists d.
  - cbn [foldl]. destruct (batch_step_spec s d acc t) as [d1 ->]. apply IH.
Qed.
End Batch.

Lemma lookup_foldl_insert {V} (f : string → V) (tickers : list string)
    (acc : gmap string V) (k : string) :
  foldl (λ m t, <[t := f t]> m) acc tickers !! k =
    if decide (k ∈ tickers) then Some (f k) else acc !! k.
Proof.
  revert acc. induction tickers as [|t tickers IH]; intros acc; cbn [foldl].
  - case_decide as Hin; [by apply elem_of_nil in Hin | done].
  - rewrite IH. destruct (decide (k ∈ tickers)) as [Hin|Hnin].
    + case_decide as Hc; [done|]. exfalso. apply Hc. by right.
    + destruct (decide (k = t)) as [->|Hne].
      * case_decide as Hc; [by rewrite lookup_insert_eq|]. exfalso. apply Hc. by left.
      * case_decide as Hc; [|by rewrite lookup_insert_ne].
        apply elem_of_cons in Hc. tauto.
Qed.

Lemma ensemble_predict_all_lookup `{Kernels} (s : HybridEnsemblePredictor.Predictor)
    (ticker : string) :
  (HybridEnsemblePredictor.predict_all s).2 !! ticker =
    (λ _, entry_of ticker (HybridEnsemblePredictor.predict ticker s).2)
      <$> HybridEnsemblePredictor.models s !! ticker.
Proof.
  change (HybridEnsemblePredictor.predict_all s)
    with (foldl (batch_step (HybridEnsemblePredictor.predict)) (s, ∅)
            (sorted_keys (HybridEnsemblePredictor.models s))).
  rewrite <- (ensemble_with_cols_id s) at 1.
  destruct (batch_fold_spec ensemble_with_cols
              (feature_cols ∘ HybridEnsemblePredictor.core)
              HybridEnsemblePredictor.predict ensemble_with_cols_id
              ensemble_predict_settled s
              (sorted_keys (HybridEnsemblePredictor.models s))
              (feature_cols (HybridEnsemblePredictor.core s)) ∅) as [d' ->].
  cbn [snd]. rewrite lookup_foldl_insert, lookup_empty.
  destruct (HybridEnsemblePredictor.models s !! ticker) as [b|] eqn:E.
  - case_decide as Hc; [done|]. exfalso. apply Hc, sorted_keys_elem. by rewrite E.
  - case_decide as Hc; [|done]. apply sorted_keys_elem in Hc. rewrite E in Hc.
    by destruct Hc.
Qed.

Lemma tabular_predict_all_lookup `{Kernels} (s : KSEStockPredictor.Predictor)
    (ticker : string) :
  (KSEStockPredictor.predict_all s).2 !! ticker =
    (λ _, entry_of ticker (KSEStockPredictor.predict ticker s).2)
      <$> KSEStockPredictor.models s !! ticker.
Proof.
  change (KSEStockPredictor.predict_all s)
    with (foldl (batch_step (KSEStockPredictor.predict)) (s, ∅)
            (sorted_keys (KSEStockPredictor.models s))).
  rewrite <- (tabular_with_cols_id s) at 1.
  destruct (batch_fold_spec tabular_with_cols
              (feature_cols ∘ KSEStockPredictor.core)
              KSEStockPredictor.predict tabular_with_cols_id
              tabular_predict_settled s
              (sorted_keys (KSEStockPredictor.models s))
              (feature_cols (KSEStockPredictor.core s)) ∅) as [d' ->].
  cbn [snd]. rewrite lookup_foldl_insert, lookup_empty.
  destruct (KSEStockPredictor.models s !! ticker) as [b|] eqn:E.
  - case_decide as Hc; [done|]. exfalso. apply Hc, sorted_keys_elem. by rewrite E.
  - case_decide as Hc; [|done]. apply sorted_keys_elem in Hc. rewrite E in Hc.
    by destruct Hc.
Qed.

(** ** Ensemble agreement *)

(** The spread and the agreement as the specification states them. *)
Definition spread_spec (a b c : Q) : Q :=
  (Qmax a (Qmax b c) - Qmin a (Qmin b c)) / ((a + b + c) / 3 + 0.0000000001).

Definition agreement_spec (a b c : Q) : Q := 100 * (1 - Qmin (spread_spec a b c) 1).

Lemma np_max_finite (a b c : Q) :
  ∃ m, np_max [Num a; Num b; Num c] = Num m ∧ m == Qmax a (Qmax b c).
Proof.
  unfold np_max, max_agg. cbn [existsb isnan orb].
  change (valid [Num a; Num b; Num c]) with [Num a; Num b; Num c].
  cbn [foldl]. unfold fgt. cbn [flt].
  destruct (Qmax_case b c) as [[? E1]|[? E1]];
    destruct (Qmax_case a (Qmax b c)) as [[? E2]|[? E2]];
    case_cmp; cbn [flt]; case_cmp; try lra;
    eexists; (split; [reflexivity | lra]).
Qed.

Lemma np_min_finite (a b c : Q) :
  ∃ m, np_min [Num a; Num b; Num c] = Num m ∧ m == Qmin a (Qmin b c).
Proof.
  unfold np_min, min_agg. cbn [existsb isnan orb].
  change (valid [Num a; Num b; Num c]) with [Num a; Num b; Num c].
  cbn [foldl flt].
  destruct (Qmin_case b c) as [[? E1]|[? E1]];
    destruct (Qmin_case a (Qmin b c)) as [[? E2]|[? E2]];
    case_cmp; cbn [flt]; case_cmp; try lra;
    eexists; (split; [reflexivity | lra]).
Qed.

Lemma np_mean_finite (a b c : Q) :
  ∃ m, np_mean [Num a; Num b; Num c] = Num m ∧ m == (a + b + c) / 3.
Proof.
  unfold np_mean, fsum, fcount. cbn [foldl fadd length].
  change (inject_Z (Z.of_nat 3)) with 3. rewrite fdiv_Num_pos by lra.
  eexists. split; [reflexivity|]. field.
Qed.

Lemma spread_of_finite (a b c : Q) :
  0 < (a + b + c) / 3 + 0.0000000001 →
  ∃ v, HybridEnsemblePredictor.ensemble_spread_of (Num a) (Num b) (Num c) = Num v ∧
       v == spread_spec a b c ∧ 0 <= v.
Proof.
  intros Hden. unfold HybridEnsemblePredictor.ensemble_spread_of, spread_spec.
  cbv zeta.
  destruct (np_max_finite a b c) as (M & -> & HM).
  destruct (np_min_finite a b c) as (m & -> & Hm).
  destruct (np_mean_finite a b c) as (mu & -> & Hmu).
  unfold eps. cbn [fsub fadd fneg]. rewrite fdiv_Num_pos by lra.
  eexists. split; [reflexivity|]. split.
  - rewrite HM, Hm, Hmu. reflexivity.
  - apply Qdiv_nonneg; [|lra]. rewrite HM, Hm.
    destruct (Qmax_case b c) as [[? E1]|[? E1]];
      destruct (Qmax_case a (Qmax b c)) as [[? E2]|[? E2]];
      destruct (Qmin_case b c) as [[? E3]|[? E3]];
      destruct (Qmin_case a (Qmin b c)) as [[? E4]|[? E4]]; lra.
Qed.

Lemma agreement_of_finite (v : Q) :
  0 <= v →
  ∃ y, HybridEnsemblePredictor.ensemble_agreement_of (Num v) = Num y ∧
       0 <= y <= 100 ∧
       (∃ raw, raw == 100 * (1 - Qmin v 1) ∧ 0 <= raw <= 100 ∧
               HybridEnsemblePredictor.ensemble_agreement_of (Num v) = round_dec 2 (Num raw)) ∧
       (v == 0 → y == 100).
Proof.
  intros Hv. unfold HybridEnsemblePredictor.ensemble_agreement_of, py_min.
  cbn [flt].
  assert (∃ raw, (100 * (1 - (if Qltb 1 v then Num 1 else Num v)))%F = Num raw ∧
                 raw == 100 * (1 - Qmin v 1) ∧ 0 <= raw <= 100 ∧ (v == 0 → raw == 100))
    as (raw & -> & Hraw & Hb & Hz).
  { destruct (Qmin_case v 1) as [[? E]|[? E]]; case_cmp; try lra;
      cbn [fsub fadd fneg fmul]; eexists; (split; [reflexivity|]);
      repeat split; try lra. }
  destruct (round_dec_2_bounds 0 100 raw Hb) as (y & Hy & Hyb).
  exists y. split; [exact Hy|]. split; [exact Hyb|]. split.
  - exists raw. split; [exact Hraw|]. split; [exact Hb | reflexivity].
  - intros Hv0. specialize (Hz Hv0).
    assert (inject_Z 100 <= raw <= inject_Z 100) as H100.
    { change (inject_Z 100) with 100. lra. }
    destruct (round_dec_2_bounds 100 100 raw H100) as (y' & Hy' & Hyb').
    rewrite Hy in Hy'. injection Hy' as ->. change (inject_Z 100) with 100 in Hyb'. lra.
Qed.

Lemma column_assign_other {V} (name other : string) (v : V) (cols : list (string * V)) :
  String.eqb name other = false → column other (assign name v cols) = column other cols.
Proof.
  intros E. apply column_assign_ne. intros ->. by rewrite String.eqb_refl in E.
Qed.

Ltac find_column :=
  repeat (rewrite column_assign_other by (vm_compute; reflexivity));
  apply column_assign.



(** ** Indicators of the engine *)

Lemma Forall_take_rows {A} (P : A → Prop) (rows : list nat) (l : list A) :
  Forall P l → Forall P (take_rows rows l).
Proof.
  intros Hl. unfold take_rows. induction rows as [|i rows IH]; [constructor|].
  cbn. destruct (l !! i) as [x|] eqn:E; [|exact IH].
  constructor; [|exact IH]. eapply Forall_lookup in Hl; eauto.
Qed.

Lemma sorted_well_formed (df : DataFrame) :
  Forall well_formed_bar (bars df) → Forall well_formed_bar (bars (sort_values_Date df)).
Proof. intros Hdf. unfold sort_values_Date, reindex. cbn [bars]. by apply Forall_take_rows. Qed.


(** ** The floor of the signal confidence *)

Lemma py_max_15 (x : Q) : ∃ c, py_max 15 (Num x) = Num c ∧ c == Qmax 15 x.
Proof.
  unfold py_max, fgt. cbn [flt].
  destruct (Qmax_case 15 x) as [[? E]|[? E]]; case_cmp; try lra;
    eexists; (split; [reflexivity | lra]).
Qed.

Ltac solve_hold_path :=
  cbv zeta; unfold fgt, buy_threshold; cbn [flt fmul fadd fsub fneg];
  intros Hb Hs; case_cmp; try lra;
  cbn [confidence];
  match goal with |- context [py_max _ (Num ?x)] =>
    let c := fresh "c" in let Hc := fresh "Hc" in
    destruct (py_max_15 x) as (c & -> & Hc);
    exists c; split; [reflexivity | rewrite Hc; apply Q.max_compat; [reflexivity | lra]]
  end.

Lemma ensemble_hold_path (pr conf vol : Q) (rsi : fval) (regime : string) :
  ¬ buy_threshold vol < pr → ¬ pr < - buy_threshold vol →
  ∃ c, confidence (HybridEnsemblePredictor.generate_signal pr conf rsi vol regime) = Num c ∧
       c == Qmax 15 (0.6 * conf).
Proof. unfold HybridEnsemblePredictor.generate_signal. solve_hold_path. Qed.

Lemma tabular_hold_path (pr conf vol : Q) (rsi : fval) (regime : string) :
  ¬ buy_threshold vol < pr → ¬ pr < - buy_threshold vol →
  ∃ c, confidence (KSEStockPredictor.generate_signal pr conf rsi vol regime) = Num c ∧
       c == Qmax 15 (0.6 * conf).
Proof. unfold KSEStockPredictor.generate_signal. solve_hold_path. Qed.

(* ===================================================================== *)
(** * The claims *)
(* ===================================================================== *)



(** C2, as amended.  Whatever the inputs (NaN and the infinities included),
    the score of [calculate_confidence_ensemble] lies in [25, 95] and the one
    of the tabular [calculate_confidence] in [20, 95]; the confidence of the
    record [predict] returns is that score after the damping of
    [generate_signal], rounded, and lies in [15, 95], in both classes. *)
Theorem reported_confidence_range `{Kernels} (ticker regime : string)
    (predicted_return volatility rsi spread : fval) (metrics : gmap string fval)
    (models : gmap string KSEStockPredictor.Bundle)
    (s : HybridEnsemblePredictor.Predictor) (s' : KSEStockPredictor.Predictor) :
  bounded 25 95
    (HybridEnsemblePredictor.calculate_confidence_ensemble ticker predicted_return
       volatility rsi regime spread metrics) ∧
  returns (bounded 20 95)
    (KSEStockPredictor.calculate_confidence models ticker predicted_return
       volatility rsi regime) ∧
  returns (λ p, bounded 15 95 (HybridEnsemblePredictor.Prediction.confidence p))
    (HybridEnsemblePredictor.predict ticker s).2 ∧
  returns (λ p, bounded 15 95 (KSEStockPredictor.Prediction.confidence p))
    (KSEStockPredictor.predict ticker s').2.
Proof.
  split; [apply ensemble_confidence_bounds|].
  split; [apply tabular_confidence_bounds|].
  split; [apply ensemble_predict_confidence | apply tabular_predict_confidence].
Qed.

(** C2 as stated fails: on the sample predictor the ensemble [predict]
    returns a record whose confidence is below 25. *)
Lemma reported_confidence_below_25 :
  ∃ c, outcome HybridEnsemblePredictor.Prediction.confidence
         (@HybridEnsemblePredictor.predict sample_kernels "ENGRO" sample_predictor).2
       = Some (Num c) ∧ c < 25.
Proof. eexists. split; [vm_compute; reflexivity | reflexivity]. Qed.


(** C4, as amended.  For every triple of finite forecasts whose mean exceeds
    [-1e-10] (so for every triple of non-negative forecasts), the reported
    agreement is [100 * (1 - min(spread, 1))] rounded to two decimals, with
    [spread = (max - min) / (mean + 1e-10)]; it lies in [0, 100], and it is
    exactly 100 when the three forecasts are equal. *)
Theorem ensemble_agreement_range (lstm_pred lgb_pred xgb_pred : Q) :
  0 < (lstm_pred + lgb_pred + xgb_pred) / 3 + 0.0000000001 →
  ∃ raw y,
    raw == agreement_spec lstm_pred lgb_pred xgb_pred ∧ 0 <= raw <= 100 ∧
    HybridEnsemblePredictor.ensemble_agreement_of
      (HybridEnsemblePredictor.ensemble_spread_of (Num lstm_pred) (Num lgb_pred) (Num xgb_pred))
      = round_dec 2 (Num raw) ∧
    round_dec 2 (Num raw) = Num y ∧ 0 <= y <= 100 ∧
    (lstm_pred == lgb_pred → lgb_pred == xgb_pred → y == 100).
Proof.
  intros Hmean.
  destruct (spread_of_finite lstm_pred lgb_pred xgb_pred Hmean) as (v & -> & Hv & Hv0).
  destruct (agreement_of_finite v Hv0) as (y & Hy & Hyb & (raw & Hraw & Hrb & Hround) & Hz).
  exists raw, y. split.
  { unfold agreement_spec. rewrite Hraw, Hv. reflexivity. }
  split; [exact Hrb|]. split; [exact Hround|]. split; [by rewrite <- Hround|].
  split; [exact Hyb|]. intros E1 E2. apply Hz. rewrite Hv. unfold spread_spec.
  destruct (Qmax_case lgb_pred xgb_pred) as [[? M1]|[? M1]];
    destruct (Qmax_case lstm_pred (Qmax lgb_pred xgb_pred)) as [[? M2]|[? M2]];
    destruct (Qmin_case lgb_pred xgb_pred) as [[? M3]|[? M3]];
    destruct (Qmin_case lstm_pred (Qmin lgb_pred xgb_pred)) as [[? M4]|[? M4]];
    rewrite M2, M4, ?M1, ?M3, ?E1, ?E2; unfold Qminus; rewrite Qplus_opp_r;
    apply Qmult_0_l.
Qed.

Lemma ensemble_agreement_range_witness :
  ∃ raw y,
    raw == agreement_spec 100 101 102 ∧ 0 <= raw <= 100 ∧
    HybridEnsemblePredictor.ensemble_agreement_of
      (HybridEnsemblePredictor.ensemble_spread_of (Num 100) (Num 101) (Num 102))
      = round_dec 2 (Num raw) ∧
    round_dec 2 (Num raw) = Num y ∧ 0 <= y <= 100 ∧
    (100 == 101 → 101 == 102 → y == 100).
Proof. apply (ensemble_agreement_range 100 101 102). reflexivity. Defined.

(** C4 as stated fails: for the forecasts -3, 1 and 1 (negative mean) the
    reported agreement exceeds 100. *)
Lemma ensemble_agreement_above_100 :
  ∃ y, HybridEnsemblePredictor.ensemble_agreement_of
         (HybridEnsemblePredictor.ensemble_spread_of (Num (-3)) (Num 1) (Num 1)) = Num y ∧
       100 < y.
Proof. eexists. split; [vm_compute; reflexivity | reflexivity]. Qed.

(** C5: the code divides without a guard.  On a history whose last close is
    zero the ensemble [predict] raises [ZeroDivisionError] at the predicted
    return, and a bar with a zero low makes [High_Low_Range] infinite. *)
Theorem unguarded_divisions :
  (@HybridEnsemblePredictor.predict sample_kernels "ENGRO" zero_close_predictor).2
    = Raise ZeroDivisionError ∧
  column "High_Low_Range"
    (num_cols (price_action (frame_of
       [{| Date := 32; Open := 100; High := 100; Low := 0; Close := 0; Volume := 1000 |}])))
    = Some [PInf].
Proof. split; vm_compute; reflexivity. Qed.


Definition regular_bars : list Bar :=
  [ {| Date := 1; Open := 1; High := 3; Low := 1; Close := 2; Volume := 10 |};
    {| Date := 2; Open := 2; High := 10; Low := 2; Close := 10; Volume := 10 |};
    {| Date := 3; Open := 10; High := 11; Low := 1; Close := 10; Volume := 10 |} ].




(** C7.  Two calls of [predict] in a row on the same symbol return the same
    outcome, the second call leaves the object as the first one left it, and
    no call changes the scalers, the models or the histories: all a call may
    assign is [feature_cols]. *)
Theorem predict_twice `{Kernels} (ticker : string) (s : HybridEnsemblePredictor.Predictor) :
  let first := HybridEnsemblePredictor.predict ticker s in
  let second := HybridEnsemblePredictor.predict ticker first.1 in
  second = first ∧
  scalers (HybridEnsemblePredictor.core first.1) = scalers (HybridEnsemblePredictor.core s) ∧
  HybridEnsemblePredictor.lstm_scalers first.1 = HybridEnsemblePredictor.lstm_scalers s ∧
  HybridEnsemblePredictor.models first.1 = HybridEnsemblePredictor.models s ∧
  data_dict (HybridEnsemblePredictor.core first.1) = data_dict (HybridEnsemblePredictor.core s).
Proof.
  intros first second.
  destruct (settled_twice ensemble_with_cols (feature_cols ∘ HybridEnsemblePredictor.core)
              (HybridEnsemblePredictor.predict ticker) ensemble_with_cols_id
              ensemble_with_cols_twice (ensemble_predict_settled ticker) s) as [Htwice [d Hd]].
  split; [exact Htwice|]. subst first. rewrite Hd. done.
Qed.

(** X1.  The tabular [predict] behaves the same way: a second call in a
    row returns the same outcome and leaves the object as the first call
    left it, and no call changes the scalers or the models. *)
Lemma tabular_predict_twice `{Kernels} (ticker : string) (s : KSEStockPredictor.Predictor) :
  let first := KSEStockPredictor.predict ticker s in
  KSEStockPredictor.predict ticker first.1 = first ∧
  scalers (KSEStockPredictor.core first.1) = scalers (KSEStockPredictor.core s) ∧
  KSEStockPredictor.models first.1 = KSEStockPredictor.models s.
Proof.
  intros first.
  destruct (settled_twice tabular_with_cols (feature_cols ∘ KSEStockPredictor.core)
              (KSEStockPredictor.predict ticker) tabular_with_cols_id
              tabular_with_cols_twice (tabular_predict_settled ticker) s) as [Htwice [d Hd]].
  split; [exact Htwice|]. subst first. rewrite Hd. done.
Qed.


(** C9.  [predict_all] never raises; its dictionary has exactly the keys of
    [models]; the entry of a symbol is the record [predict] returns for it on
    the object as it was given, or the error record with the symbol and the
    message when [predict] raises: whatever happens for the other symbols.
    The same holds in the tabular class. *)
Theorem predict_all_entries `{Kernels} (s : HybridEnsemblePredictor.Predictor)
    (s' : KSEStockPredictor.Predictor) :
  (dom (HybridEnsemblePredictor.predict_all s).2 = dom (HybridEnsemblePredictor.models s) ∧
   ∀ ticker,
     (HybridEnsemblePredictor.predict_all s).2 !! ticker =
       (λ _, entry_of ticker (HybridEnsemblePredictor.predict ticker s).2)
         <$> HybridEnsemblePredictor.models s !! ticker) ∧
  (dom (KSEStockPredictor.predict_all s').2 = dom (KSEStockPredictor.models s') ∧
   ∀ ticker,
     (KSEStockPredictor.predict_all s').2 !! ticker =
       (λ _, entry_of ticker (KSEStockPredictor.predict ticker s').2)
         <$> KSEStockPredictor.models s' !! ticker).
Proof.
  split; (split; [|intros ticker;
                   first [apply ensemble_predict_all_lookup | apply tabular_predict_all_lookup]]).
  - apply set_eq. intros k. rewrite !elem_of_dom, ensemble_predict_all_lookup.
    by rewrite fmap_is_Some.
  - apply set_eq. intros k. rewrite !elem_of_dom, tabular_predict_all_lookup.
    by rewrite fmap_is_Some.
Qed.

(** C10.  For an incoming confidence of at most 95, the confidence of the
    signal lies in [15, 95] whatever the other inputs are; on the HOLD path
    (the final branch, taken when the return is within the two thresholds)
    it is exactly [max(15, 0.6 * confidence)].  Both classes. *)
Theorem signal_confidence_floor (pr vol conf : Q) (rsi other_pr other_vol : fval)
    (regime : string) :
  conf <= 95 →
  bounded 15 95
    (confidence (HybridEnsemblePredictor.generate_signal other_pr conf rsi other_vol regime)) ∧
  bounded 15 95
    (confidence (KSEStockPredictor.generate_signal other_pr conf rsi other_vol regime)) ∧
  (¬ buy_threshold vol < pr → ¬ pr < - buy_threshold vol →
   (∃ c, confidence (HybridEnsemblePredictor.generate_signal pr conf rsi vol regime) = Num c ∧
         c == Qmax 15 (0.6 * conf)) ∧
   (∃ c, confidence (KSEStockPredictor.generate_signal pr conf rsi vol regime) = Num c ∧
         c == Qmax 15 (0.6 * conf))).
Proof.
  intros Hc. split.
  { destruct (ensemble_signal_bounds other_pr rsi other_vol conf regime Hc) as (c & -> & H).
    exact H. }
  split.
  { destruct (tabular_signal_bounds other_pr rsi other_vol conf regime Hc) as (c & -> & H).
    exact H. }
  intros Hb Hs. split; [by apply ensemble_hold_path | by apply tabular_hold_path].
Qed.

Lemma signal_confidence_floor_witness :
  bounded 15 95
    (confidence (HybridEnsemblePredictor.generate_signal 5 50 50 0.01 "Bull")) ∧
  bounded 15 95
    (confidence (KSEStockPredictor.generate_signal 5 50 50 0.01 "Bull")) ∧
  (¬ buy_threshold 0.01 < 0.5 → ¬ 0.5 < - buy_threshold 0.01 →
   (∃ c, confidence (HybridEnsemblePredictor.generate_signal 0.5 50 50 0.01 "Bull") = Num c ∧
         c == Qmax 15 (0.6 * 50)) ∧
   (∃ c, confidence (KSEStockPredictor.generate_signal 0.5 50 50 0.01 "Bull") = Num c ∧
         c == Qmax 15 (0.6 * 50))).
Proof. apply (signal_confidence_floor 0.5 0.01 50 50 5 0.01 "Bull"). vm_compute. discriminate. Defined.

(* ===================================================================== *)
(** * Further properties of the pipeline *)
(* ===================================================================== *)

(** ** Symbols without a history *)

(** X3.  A symbol without a stored history cannot be predicted, in either
    class: [predict] raises [ValueError] and leaves the object as it was
    (the message names a missing model first, then the missing data), and in
    [predict_all] a trained symbol without history gets the error record
    with that message. *)
Theorem predict_without_history `{Kernels} (ticker : string)
    (s : HybridEnsemblePredictor.Predictor) (s' : KSEStockPredictor.Predictor) :
  data_dict (HybridEnsemblePredictor.core s) !! ticker = None →
  data_dict (KSEStockPredictor.core s') !! ticker = None →
  HybridEnsemblePredictor.predict ticker s =
    (s, Raise (ValueError
                 ((match HybridEnsemblePredictor.models s !! ticker with
                   | Some _ => "No data for " | None => "No ensemble for " end) +:+ ticker))) ∧
  (HybridEnsemblePredictor.predict_all s).2 !! ticker =
    (λ _, ErrorRecord ticker ("No data for " +:+ ticker))
      <$> HybridEnsemblePredictor.models s !! ticker ∧
  KSEStockPredictor.predict ticker s' =
    (s', Raise (ValueError
                  ((match KSEStockPredictor.models s' !! ticker with
                    | Some _ => "No data for " | None => "No model for " end) +:+ ticker))) ∧
  (KSEStockPredictor.predict_all s').2 !! ticker =
    (λ _, ErrorRecord ticker ("No data for " +:+ ticker))
      <$> KSEStockPredictor.models s' !! ticker.
Proof.
  intros Hs Hs'.
  assert (HybridEnsemblePredictor.predict ticker s =
    (s, Raise (ValueError
                 ((match HybridEnsemblePredictor.models s !! ticker with
                   | Some _ => "No data for " | None => "No ensemble for " end) +:+ ticker)))) as E.
  { cbv [HybridEnsemblePredictor.predict mbind st_bind gets raise compose].
    destruct (HybridEnsemblePredictor.models s !! ticker); [|done]. by rewrite Hs. }
  assert (KSEStockPredictor.predict ticker s' =
    (s', Raise (ValueError
                  ((match KSEStockPredictor.models s' !! ticker with
                    | Some _ => "No data for " | None => "No model for " end) +:+ ticker)))) as E'.
  { cbv [KSEStockPredictor.predict mbind st_bind gets raise compose].
    destruct (KSEStockPredictor.models s' !! ticker); [|done]. by rewrite Hs'. }
  repeat split; [exact E | | exact E' |].
  - rewrite ensemble_predict_all_lookup, E.
    by destruct (HybridEnsemblePredictor.models s !! ticker).
  - rewrite tabular_predict_all_lookup, E'.
    by destruct (KSEStockPredictor.models s' !! ticker).
Qed.

Lemma predict_without_history_witness :
  @HybridEnsemblePredictor.predict sample_kernels "LUCK" sample_predictor =
    (sample_predictor, Raise (ValueError
                 ((match HybridEnsemblePredictor.models sample_predictor !! "LUCK" with
                   | Some _ => "No data for " | None => "No ensemble for " end) +:+ "LUCK"))) ∧
  (@HybridEnsemblePredictor.predict_all sample_kernels sample_predictor).2 !! "LUCK" =
    (λ _, ErrorRecord "LUCK" ("No data for " +:+ "LUCK"))
      <$> HybridEnsemblePredictor.models sample_predictor !! "LUCK" ∧
  @KSEStockPredictor.predict sample_kernels "LUCK" (KSEStockPredictor.init 7) =
    (KSEStockPredictor.init 7, Raise (ValueError
                  ((match KSEStockPredictor.models (KSEStockPredictor.init 7) !! "LUCK" with
                    | Some _ => "No data for " | None => "No model for " end) +:+ "LUCK"))) ∧
  (@KSEStockPredictor.predict_all sample_kernels (KSEStockPredictor.init 7)).2 !! "LUCK" =
    (λ _, ErrorRecord "LUCK" ("No data for " +:+ "LUCK"))
      <$> KSEStockPredictor.models (KSEStockPredictor.init 7) !! "LUCK".
Proof.
  apply (@predict_without_history sample_kernels "LUCK" sample_predictor
           (KSEStockPredictor.init 7)); reflexivity.
Defined.

(** ** Rows that survive [dropna] *)

Lemma take_rows_length {A} (rows : list nat) (l : list A) :
  Forall (λ i, i < length l)%nat rows → length (take_rows rows l) = length rows.
Proof.
  unfold take_rows. induction 1 as [|i rows Hi _ IH]; [done|]. cbn.
  destruct (lookup_lt_is_Some_2 l i Hi) as [x ->]. cbn. by rewrite IH.
Qed.

Lemma sorted_rows (dates : list Z) :
  snd <$> merge_sort date_le (zip dates (seq 0 (length dates))) ≡ₚ seq 0 (length dates).
Proof.
  rewrite merge_sort_Permutation, snd_zip; [done|]. by rewrite length_seq.
Qed.

Lemma sort_values_Date_length (df : DataFrame) :
  length (bars (sort_values_Date df)) = length (bars df).
Proof.
  unfold sort_values_Date, reindex. cbn [bars].
  pose proof (sorted_rows (Date <$> bars df)) as Hp. rewrite length_fmap in Hp.
  rewrite take_rows_length.
  - by rewrite Hp, length_seq.
  - rewrite Hp. apply Forall_forall. intros i Hi. apply elem_of_seq in Hi. lia.
Qed.

Lemma column_elem_of {V} (name : string) (cols : list (string * V)) (v : V) :
  column name cols = Some v → (name, v) ∈ cols.
Proof.
  induction cols as [|[n w] rest IH]; [done|]. cbn.
  destruct (String.eqb_spec n name) as [->|].
  - intros [= ->]. left.
  - intros Hc. right. by apply IH.
Qed.

Lemma row_undefined (df : DataFrame) (name : string) (s : Series) (i : nat) :
  column name (num_cols df) = Some s → s !! i = Some NaN → row_defined df i = false.
Proof.
  intros Hc Hi. apply column_elem_of in Hc. unfold row_defined.
  apply not_true_is_false. intros Hall. rewrite forallb_forall in Hall.
  apply list_elem_of_In in Hc. specialize (Hall _ Hc). cbn in Hall. by rewrite Hi in Hall.
Qed.

Lemma lookup_shift_back_tail (n : nat) (s : Series) (i : nat) :
  (i < length s)%nat → (length s ≤ i + n)%nat → shift_back n s !! i = Some NaN.
Proof.
  intros Hi Hn. unfold shift_back.
  rewrite lookup_app_r by (rewrite length_drop; lia).
  rewrite length_drop. apply lookup_replicate_2. lia.
Qed.

Lemma lookup_lagged_return (lag : nat) (close : Series) (i : nat) :
  (i < length close)%nat → (i ≤ lag)%nat →
  shift lag (pct_change 1 close) !! i = Some NaN.
Proof.
  intros Hi Hlag. rewrite lookup_shift.
  assert (length (pct_change 1 close) = length close) as Hlen.
  { unfold pct_change. rewrite length_fmap, length_zip_with, shift_length. lia. }
  rewrite Hlen, decide_True by done. case_decide; [done|].
  assert (i = lag) as -> by lia. rewrite Nat.sub_diag.
  unfold pct_change. rewrite list_lookup_fmap, lookup_zip_with, lookup_shift.
  rewrite decide_True by lia. rewrite decide_True by lia.
  destruct (close !! 0%nat) as [x|] eqn:E.
  - cbn. by destruct x.
  - apply lookup_ge_None in E. lia.
Qed.

Lemma engine_bars `{Kernels} (df : DataFrame) :
  bars (calculate_advanced_indicators df) = bars (sort_values_Date df).
Proof.
  unfold calculate_advanced_indicators. cbv zeta. unfold bollinger, price_action.
  cbn [foldl num_cols set_col bars]. reflexivity.
Qed.

Lemma engine_return_lag_30 `{Kernels} (df : DataFrame) :
  column "Return_Lag_30" (num_cols (calculate_advanced_indicators df)) =
    Some (shift 30 (pct_change 1 (col Close (bars (sort_values_Date df))))).
Proof.
  unfold calculate_advanced_indicators. cbv zeta. unfold bollinger, price_action.
  cbn [foldl num_cols set_col bars]. find_column.
Qed.

Lemma filter_none {A} (f : A → bool) (l : list A) :
  (∀ x, x ∈ l → f x = false) → List.filter f l = [].
Proof.
  induction l as [|x l IH]; [done|]. intros Hall. cbn.
  rewrite (Hall x) by left. apply IH. intros y Hy. apply Hall. by right.
Qed.

Lemma bars_dropna_nil (df : DataFrame) :
  (∀ i, (i < length (bars df))%nat → row_defined df i = false) → bars (dropna df) = [].
Proof.
  intros Hall. unfold dropna, reindex. cbn [bars].
  rewrite filter_none; [done|]. intros i Hi. apply elem_of_seq in Hi. apply Hall. lia.
Qed.

Lemma filter_sublist {A} (f : A → bool) (l : list A) : sublist (List.filter f l) l.
Proof.
  induction l as [|x l IH]; [done|]. cbn. destruct (f x); by constructor.
Qed.

Lemma elem_of_filter_bool {A} (f : A → bool) (l : list A) (x : A) :
  x ∈ List.filter f l ↔ x ∈ l ∧ f x = true.
Proof. rewrite !list_elem_of_In. apply filter_In. Qed.

Lemma engine_lagged_return `{Kernels} (df : DataFrame) :
  let E := calculate_advanced_indicators df in
  column "Return_Lag_30" (num_cols E) = Some (shift 30 (pct_change 1 (col Close (bars E)))).
Proof. intros E. subst E. rewrite engine_bars. apply engine_return_lag_30. Qed.

Lemma engine_length `{Kernels} (df : DataFrame) :
  length (bars (calculate_advanced_indicators (detect_market_regime df 252))) =
    length (bars df).
Proof. rewrite engine_bars, sort_values_Date_length. reflexivity. Qed.

Lemma sorted_regime_bars `{Kernels} (df : DataFrame) :
  bars (sort_values_Date (detect_market_regime df 252)) = bars (sort_values_Date df).
Proof. reflexivity. Qed.

(** A row that survives [dropna] once the target is added: its 30-session
    lagged return and its target are defined. *)
Lemma target_rows (E : DataFrame) (v : Series) (days i : nat) :
  column "Return_Lag_30" (num_cols E) =
    Some (shift 30 (pct_change 1 (col Close (bars E)))) →
  (i < length (bars E))%nat →
  row_defined
    (set_col "Target_Return" v (set_col "Target" (shift_back days (col Close (bars E))) E)) i
    = true →
  (31 ≤ i ∧ i + days < length (bars E))%nat.
Proof.
  intros Hlag Hi Hrow.
  assert (length (col Close (bars E)) = length (bars E)) as Hc.
  { unfold col. by rewrite length_fmap. }
  split.
  - destruct (decide (31 ≤ i)%nat) as [|Hn]; [done|].
    rewrite (row_undefined _ "Return_Lag_30" (shift 30 (pct_change 1 (col Close (bars E)))) i)
      in Hrow; [done| |].
    + cbn [set_col num_cols]. rewrite !column_assign_other by reflexivity. exact Hlag.
    + apply lookup_lagged_return; lia.
  - destruct (decide (i + days < length (bars E))%nat) as [|Hn]; [done|].
    rewrite (row_undefined _ "Target" (shift_back days (col Close (bars E))) i)
      in Hrow; [done| |].
    + cbn [set_col num_cols]. rewrite column_assign_other by reflexivity.
      apply column_assign.
    + apply lookup_shift_back_tail; lia.
Qed.

Lemma prepare_features_short `{Kernels} (df : DataFrame) (ticker : string) (fit : bool)
    (c : Core) :
  (length (bars df) ≤ 31 + prediction_days c)%nat →
  prepare_features df ticker fit c =
    (c, Raise (ValueError ("No valid data for " +:+ ticker))).
Proof.
  intros Hshort. unfold prepare_features.
  unfold mbind at 1; unfold st_bind at 1; unfold gets at 1.
  cbv beta iota zeta.
  rewrite bars_dropna_nil; [reflexivity|].
  intros i Hi. cbn [set_col bars] in Hi. apply not_true_is_false. intros Hrow.
  apply target_rows in Hrow; [|apply engine_lagged_return|exact Hi].
  rewrite engine_length in Hrow. lia.
Qed.

(** ** What [prepare_features] returns *)

(** The frame [prepare_features] hands to [dropna]: the indicators of the
    regime-labelled frame, with the target columns. *)
Definition target_frame `{Kernels} (df : DataFrame) (days : nat) : DataFrame :=
  set_col "Target_Return"
    (scale 100
       (sdiv
          (ssub
             (shift_back days
                (col Close (bars (calculate_advanced_indicators (detect_market_regime df 252)))))
             (col Close (bars (calculate_advanced_indicators (detect_market_regime df 252)))))
          (plus_eps
             (col Close (bars (calculate_advanced_indicators (detect_market_regime df 252)))))))
    (set_col "Target"
       (shift_back days
          (col Close (bars (calculate_advanced_indicators (detect_market_regime df 252)))))
       (calculate_advanced_indicators (detect_market_regime df 252))).

(** The names [prepare_features] assigns to [feature_cols]. *)
Definition feature_names_of (df : DataFrame) : list string :=
  List.filter (λ name, negb (bool_decide (name ∈ exclude_cols))) (num_cols df).*1.

Lemma feature_cols_set (names : list string) (c : Core) :
  feature_cols (set_feature_cols names c) = names.
Proof. reflexivity. Qed.

Ltac exec_bind := unfold mbind at 1; unfold st_bind at 1.
Ltac exec_lifted r E :=
  unfold lift at 1; cbv beta iota;
  lazymatch goal with |- context [match ?x with Ok _ => _ | Raise _ => _ end] =>
    destruct x as [r|?] eqn:E; [|exact I] end.
Ltac exec_lift r E := exec_bind; exec_lifted r E.

Lemma prepare_features_returns `{Kernels} (df : DataFrame) (ticker : string) (fit : bool)
    (c : Core) :
  match prepare_features df ticker fit c with
  | (c', Ok f) =>
      let D := dropna (target_frame df (prediction_days c)) in
      bars D ≠ [] ∧
      feature_cols c' = feature_names_of D ∧
      prediction_days c' = prediction_days c ∧
      data_dict c' = data_dict c ∧
      (fit = false → scalers c' = scalers c) ∧
      sf_Date f = Date <$> bars D
  | (_, Raise _) => True
  end.
Proof.
  unfold prepare_features, feature_names_of.
  unfold mbind at 1; unfold st_bind at 1; unfold gets at 1.
  cbv beta iota zeta. fold (target_frame df (prediction_days c)).
  case_decide as Hlen; [exact I|].
  exec_bind. unfold modify at 1. cbv beta iota.
  exec_bind. unfold gets at 1. cbv beta iota. rewrite feature_cols_set.
  exec_lift X EX.
  destruct fit.
  - exec_bind. exec_bind. unfold modify at 1. cbv beta iota.
    exec_bind. unfold gets at 1. cbv beta iota.
    exec_lifted Y EY.
    exec_lift t Et. exec_lift tr Etr. exec_lift rg Erg.
    unfold mret, st_ret.
    split; [intros Hnil; by rewrite Hnil in Hlen|].
    split; [reflexivity|]. split; [reflexivity|]. split; [reflexivity|].
    split; [intros [=]|reflexivity].
  - exec_bind. exec_bind. unfold gets at 1. cbv beta iota.
    destruct (scalers (set_feature_cols _ c) !! ticker) as [sc|] eqn:Esc; [|exact I].
    exec_lifted Y EY.
    exec_lift t Et. exec_lift tr Etr. exec_lift rg Erg.
    unfold mret, st_ret.
    split; [intros Hnil; by rewrite Hnil in Hlen|].
    split; [reflexivity|]. split; [reflexivity|]. split; [reflexivity|].
    split; [reflexivity|reflexivity].
Qed.

Lemma bars_set_col (name : string) (v : Series) (df : DataFrame) :
  bars (set_col name v df) = bars df.
Proof. reflexivity. Qed.

Lemma bars_dropna (df : DataFrame) :
  bars (dropna df) =
    take_rows (List.filter (row_defined df) (seq 0 (length (bars df)))) (bars df).
Proof. reflexivity. Qed.

Lemma target_frame_bars `{Kernels} (df : DataFrame) (days : nat) :
  bars (target_frame df days) = bars (sort_values_Date df).
Proof.
  unfold target_frame.
  etrans; [apply bars_set_col|]. etrans; [apply bars_set_col|].
  rewrite engine_bars. apply sorted_regime_bars.
Qed.

Lemma target_frame_rows `{Kernels} (df : DataFrame) (days i : nat) :
  (i < length (bars df))%nat →
  row_defined (target_frame df days) i = true →
  (31 ≤ i ∧ i + days < length (bars df))%nat.
Proof.
  intros Hi Hrow. unfold target_frame in Hrow.
  apply target_rows in Hrow; [|apply engine_lagged_return|by rewrite engine_length].
  by rewrite engine_length in Hrow.
Qed.

Lemma filter_seq_window (f : nat → bool) (n a m : nat) :
  (∀ i, (i < n)%nat → f i = true → (a ≤ i < a + m)%nat) →
  sublist (List.filter f (seq 0 n)) (seq a m).
Proof.
  intros Hf. destruct (decide (a + m ≤ n)%nat) as [Hle|Hgt].
  - replace n with (a + (m + (n - a - m)))%nat by lia.
    rewrite seq_app, seq_app, !List.filter_app. cbn [Nat.add].
    rewrite (filter_none f (seq 0 a)), (filter_none f (seq (a + m) _)).
    + rewrite app_nil_r. apply filter_sublist.
    + intros i Hi. apply elem_of_seq in Hi. apply not_true_is_false. intros Ht.
      apply Hf in Ht; lia.
    + intros i Hi. apply elem_of_seq in Hi. apply not_true_is_false. intros Ht.
      apply Hf in Ht; lia.
  - replace (List.filter f (seq 0 n)) with (List.filter f (seq a (n - a))).
    + etrans; [apply filter_sublist|].
      replace m with ((n - a) + (m - (n - a)))%nat by lia.
      rewrite seq_app. by apply sublist_inserts_r.
    + destruct (decide (a ≤ n)%nat).
      * replace n with (a + (n - a))%nat at 2 by lia.
        rewrite seq_app, List.filter_app, (filter_none f (seq 0 a)); [done|].
        intros i Hi. apply elem_of_seq in Hi. apply not_true_is_false. intros Ht.
        apply Hf in Ht; lia.
      * replace (n - a)%nat with 0%nat by lia. cbn. symmetry. apply filter_none.
        intros i Hi. apply elem_of_seq in Hi. apply not_true_is_false. intros Ht.
        apply Hf in Ht; lia.
Qed.

Lemma prepare_features_dates `{Kernels} (df : DataFrame) (ticker : string) (fit : bool)
    (c : Core) :
  returns (λ f, ∃ rows, rows ≠ [] ∧
                 sublist rows (seq 31 (length (bars df) - 31 - prediction_days c)) ∧
                 sf_Date f = Date <$> take_rows rows (bars (sort_values_Date df)))
    (prepare_features df ticker fit c).2.
Proof.
  pose proof (prepare_features_returns df ticker fit c) as Hret.
  destruct (prepare_features df ticker fit c) as [c' [f|e]]; [|exact I].
  destruct Hret as (Hne & _ & _ & _ & _ & Hdate). cbn [snd returns].
  rewrite bars_dropna, target_frame_bars in Hne, Hdate.
  rewrite sort_values_Date_length in Hne, Hdate.
  eexists. split; [|split; [|exact Hdate]].
  - intros Hnil. by rewrite Hnil in Hne.
  - apply filter_seq_window. intros i Hi Hrow.
    apply target_frame_rows in Hrow; [|exact Hi]. lia.
Qed.

(** X4.  The rows [prepare_features] keeps.  With [n] bars and a horizon of
    [days] sessions, the rows of the returned frame are rows of the
    date-sorted history at increasing positions between 31 and
    [n - days - 1]: the first 31 rows have no 30-session lagged return and
    the last [days] rows have no target.  So a history of at most
    [31 + days] bars makes it raise [ValueError], the object untouched. *)
Theorem prepare_features_rows `{Kernels} (df : DataFrame) (ticker : string) (fit : bool)
    (c : Core) :
  let n := length (bars df) in
  let days := prediction_days c in
  ((n ≤ 31 + days)%nat →
   prepare_features df ticker fit c =
     (c, Raise (ValueError ("No valid data for " +:+ ticker)))) ∧
  returns (λ f, ∃ rows, rows ≠ [] ∧ sublist rows (seq 31 (n - 31 - days)) ∧
                 sf_Date f = Date <$> take_rows rows (bars (sort_values_Date df)))
    (prepare_features df ticker fit c).2.
Proof.
  intros n days. split; [apply prepare_features_short | apply prepare_features_dates].
Qed.

(** ** Histories too short to predict from *)

Ltac exec_gets := exec_bind; unfold gets at 1; cbv beta iota.

Lemma ensemble_set_core_id (s : HybridEnsemblePredictor.Predictor) :
  HybridEnsemblePredictor.set_core (HybridEnsemblePredictor.core s) s = s.
Proof. by destruct s. Qed.

Lemma tabular_set_core_id (s : KSEStockPredictor.Predictor) :
  KSEStockPredictor.set_core (KSEStockPredictor.core s) s = s.
Proof. by destruct s. Qed.

Lemma tabular_predict_short `{Kernels} (ticker : string) (s : KSEStockPredictor.Predictor)
    (history : list Bar) :
  is_Some (KSEStockPredictor.models s !! ticker) →
  data_dict (KSEStockPredictor.core s) !! ticker = Some history →
  (length history ≤ 31 + prediction_days (KSEStockPredictor.core s))%nat →
  KSEStockPredictor.predict ticker s =
    (s, Raise (ValueError ("No valid data for " +:+ ticker))).
Proof.
  intros [bundle Hmodel] Hdata Hshort. unfold KSEStockPredictor.predict.
  exec_gets. rewrite Hmodel. cbv beta iota.
  exec_gets. unfold compose at 1. rewrite Hdata. cbv beta iota zeta.
  exec_bind. unfold KSEStockPredictor.on_core at 1.
  rewrite prepare_features_short by exact Hshort. cbv beta iota.
  by rewrite tabular_set_core_id.
Qed.

Lemma ensemble_predict_short `{Kernels} (ticker : string)
    (s : HybridEnsemblePredictor.Predictor) (history : list Bar) :
  data_dict (HybridEnsemblePredictor.core s) !! ticker = Some history →
  (length history ≤ 31 + prediction_days (HybridEnsemblePredictor.core s))%nat →
  ∃ e, HybridEnsemblePredictor.predict ticker s = (s, Raise e).
Proof.
  intros Hdata Hshort. unfold HybridEnsemblePredictor.predict.
  exec_gets. destruct (HybridEnsemblePredictor.models s !! ticker) as [bundle|];
    [|eexists; reflexivity].
  exec_gets. unfold compose at 1. rewrite Hdata. cbv beta iota zeta.
  exec_bind. unfold lift at 1. cbv beta iota.
  destruct (iloc_last history) as [latest_bar|]; [|eexists; reflexivity].
  exec_gets. exec_gets.
  exec_bind. unfold lift at 1. cbv beta iota.
  destruct (dict_item (HybridEnsemblePredictor.lstm_scalers s) ticker) as [price_scaler|];
    [|eexists; reflexivity].
  exec_bind. unfold lift at 1. cbv beta iota.
  destruct (MinMaxScaler.transform price_scaler _) as [scaled_prices|];
    [|eexists; reflexivity].
  destruct (negb _); [eexists; reflexivity|].
  exec_bind. unfold HybridEnsemblePredictor.on_core at 1.
  rewrite prepare_features_short by exact Hshort. cbv beta iota.
  rewrite ensemble_set_core_id. eexists; reflexivity.
Qed.

(** X5.  A history of at most [31 + prediction_days] bars cannot be
    predicted from: every row lacks a lagged return or a target.  The
    ensemble [predict] raises and the tabular one raises [ValueError] with
    the message of [prepare_features]; both leave the object as it was, and
    the tabular [predict_all] records that message for the symbol. *)
Theorem predict_short_history `{Kernels} (ticker : string) (history history' : list Bar)
    (s : HybridEnsemblePredictor.Predictor) (s' : KSEStockPredictor.Predictor) :
  data_dict (HybridEnsemblePredictor.core s) !! ticker = Some history →
  (length history ≤ 31 + prediction_days (HybridEnsemblePredictor.core s))%nat →
  is_Some (KSEStockPredictor.models s' !! ticker) →
  data_dict (KSEStockPredictor.core s') !! ticker = Some history' →
  (length history' ≤ 31 + prediction_days (KSEStockPredictor.core s'))%nat →
  (∃ e, HybridEnsemblePredictor.predict ticker s = (s, Raise e)) ∧
  KSEStockPredictor.predict ticker s' =
    (s', Raise (ValueError ("No valid data for " +:+ ticker))) ∧
  (KSEStockPredictor.predict_all s').2 !! ticker =
    Some (ErrorRecord ticker ("No valid data for " +:+ ticker)).
Proof.
  intros Hdata Hshort Hmodel Hdata' Hshort'.
  split; [by eapply ensemble_predict_short|].
  pose proof (tabular_predict_short ticker s' history' Hmodel Hdata' Hshort') as E.
  split; [exact E|].
  rewrite tabular_predict_all_lookup, E. by destruct Hmodel as [b ->].
Qed.

Lemma predict_short_history_witness :
  (∃ e, @HybridEnsemblePredictor.predict sample_kernels "ENGRO" short_predictor =
          (short_predictor, Raise e)) ∧
  @KSEStockPredictor.predict sample_kernels "ENGRO" short_tabular_predictor =
    (short_tabular_predictor, Raise (ValueError ("No valid data for " +:+ "ENGRO"))) ∧
  (@KSEStockPredictor.predict_all sample_kernels short_tabular_predictor).2 !! "ENGRO" =
    Some (ErrorRecord "ENGRO" ("No valid data for " +:+ "ENGRO")).
Proof.
  apply (@predict_short_history sample_kernels "ENGRO" short_history short_history
           short_predictor short_tabular_predictor).
  - reflexivity.
  - vm_compute. lia.
  - exists sample_tabular_bundle. reflexivity.
  - reflexivity.
  - vm_compute. lia.
Defined.

(** ** The date of the tabular record *)





(** ** Running a method from a given object *)

(** [post Q x]: the outcome [x] of a method, if it is a return, satisfies
    [Q] (on the object left behind and the value). *)
Definition post {S A} (Q : S → A → Prop) (x : S * result A) : Prop :=
  match x with
  | (s, Ok a) => Q s a
  | (_, Raise _) => True
  end.

Lemma post_bind {S A B} (Q : S → B → Prop) (m : st S A) (k : A → st S B) (s : S) :
  post (λ s1 a, post Q (k a s1)) (m s) → post Q ((m ≫= k) s).
Proof. unfold mbind, st_bind. by destruct (m s) as [s1 [a|e]]. Qed.

Lemma post_bind_gets {S A B} (Q : S → B → Prop) (f : S → A) (k : A → st S B) (s : S) :
  post Q (k (f s) s) → post Q ((gets f ≫= k) s).
Proof. done. Qed.

Lemma post_bind_modify {S B} (Q : S → B → Prop) (f : S → S) (k : unit → st S B) (s : S) :
  post Q (k tt (f s)) → post Q ((modify f ≫= k) s).
Proof. done. Qed.

Lemma post_bind_lift {S A B} (Q : S → B → Prop) (r : result A) (k : A → st S B) (s : S) :
  (∀ a, r = Ok a → post Q (k a s)) → post Q ((lift r ≫= k) s).
Proof. intros Hk. unfold mbind, st_bind, lift. destruct r as [a|e]; [by apply Hk | done]. Qed.

Lemma post_ret {S A} (Q : S → A → Prop) (a : A) (s : S) : Q s a → post Q (@mret (st S) _ A a s).
Proof. done. Qed.

Lemma post_raise {S A} (Q : S → A → Prop) (e : exn) (s : S) : post Q (raise e s).
Proof. done. Qed.

Lemma post_ensemble_on_core {A B} (Q : HybridEnsemblePredictor.Predictor → B → Prop)
    (m : st Core A) (k : A → st HybridEnsemblePredictor.Predictor B)
    (s : HybridEnsemblePredictor.Predictor) :
  post (λ c a, post Q (k a (HybridEnsemblePredictor.set_core c s)))
    (m (HybridEnsemblePredictor.core s)) →
  post Q ((HybridEnsemblePredictor.on_core m ≫= k) s).
Proof.
  unfold mbind, st_bind, HybridEnsemblePredictor.on_core.
  by destruct (m (HybridEnsemblePredictor.core s)) as [c [a|e]].
Qed.

Lemma post_tabular_on_core {A B} (Q : KSEStockPredictor.Predictor → B → Prop)
    (m : st Core A) (k : A → st KSEStockPredictor.Predictor B)
    (s : KSEStockPredictor.Predictor) :
  post (λ c a, post Q (k a (KSEStockPredictor.set_core c s)))
    (m (KSEStockPredictor.core s)) →
  post Q ((KSEStockPredictor.on_core m ≫= k) s).
Proof.
  unfold mbind, st_bind, KSEStockPredictor.on_core.
  by destruct (m (KSEStockPredictor.core s)) as [c [a|e]].
Qed.

Lemma post_mono {S A} (P Q : S → A → Prop) (x : S * result A) :
  (∀ s a, P s a → Q s a) → post P x → post Q x.
Proof. intros HPQ. destruct x as [s [a|e]]; [apply HPQ | done]. Qed.

Lemma post_returns {S A} (Q : A → Prop) (x : S * result A) :
  post (λ _ a, Q a) x → returns Q x.2.
Proof. by destruct x as [s [a|e]]. Qed.

(** One step of a run: the reads, the pure steps and the branches. *)
Ltac post_step :=
  lazymatch goal with
  | |- post _ (mbind _ (gets _) _) =>
      apply post_bind_gets; cbv beta zeta delta [compose]
  | |- post _ (mbind _ (modify _) _) => apply post_bind_modify; cbv beta zeta
  | |- post _ (mbind _ (lift _) _) => apply post_bind_lift; intros ? ?; cbv beta zeta
  | |- post _ (raise _ _) => apply post_raise
  | |- post _ ((match ?x with _ => _ end) _) =>
      first [ match goal with H : x = _ |- _ => rewrite H end | destruct x ];
      cbv beta iota zeta
  end.

(** ** The feature columns *)

(** The columns the tree models are trained and queried on: every computed
    column but the regime statistics and the targets. *)
Definition feature_names : list string :=
  ["Returns"; "Log_Returns"; "SMA_3"; "EMA_3"; "SMA_5"; "EMA_5"; "SMA_10"; "EMA_10";
   "SMA_20"; "EMA_20"; "SMA_50"; "EMA_50"; "SMA_100"; "EMA_100"; "SMA_200"; "EMA_200";
   "SMA_5_20_Cross"; "SMA_20_50_Cross"; "SMA_50_200_Cross"; "SMA_5_200_Cross";
   "Price_SMA20_Ratio"; "Price_EMA20_Ratio"; "Price_SMA50_Ratio"; "Price_EMA50_Ratio";
   "Price_SMA200_Ratio"; "Price_EMA200_Ratio"; "RSI_5"; "RSI_14"; "RSI_21"; "MACD";
   "MACD_Signal"; "MACD_Diff"; "MACD_Histogram"; "Stoch_K"; "Stoch_D"; "ROC_5";
   "ROC_10"; "ROC_20"; "Momentum_1"; "Momentum_3"; "Momentum_5"; "Momentum_10";
   "Momentum_20"; "Volatility_5"; "Volatility_10"; "Volatility_20"; "Volatility_60";
   "ATR"; "ATR_Percent"; "BB_20_Upper"; "BB_20_Lower"; "BB_20_Mid"; "BB_20_Width";
   "BB_20_Position"; "BB_20_Squeeze"; "BB_50_Upper"; "BB_50_Lower"; "BB_50_Mid";
   "BB_50_Width"; "BB_50_Position"; "BB_50_Squeeze"; "Volume_SMA_5"; "Volume_SMA_20";
   "Volume_Ratio"; "Volume_Trend"; "OBV"; "OBV_SMA"; "OBV_Signal"; "PVT"; "PVT_SMA";
   "High_Low_Range"; "Close_Position"; "Open_Close_Ratio"; "High_Close_Ratio";
   "Low_Close_Ratio"; "ADX"; "SuperTrend"; "Close_Lag_1"; "Return_Lag_1"; "RSI_Lag_1";
   "Close_Lag_2"; "Return_Lag_2"; "RSI_Lag_2"; "Close_Lag_3"; "Return_Lag_3";
   "RSI_Lag_3"; "Close_Lag_5"; "Return_Lag_5"; "RSI_Lag_5"; "Close_Lag_7";
   "Return_Lag_7"; "RSI_Lag_7"; "Close_Lag_10"; "Return_Lag_10"; "RSI_Lag_10";
   "Close_Lag_20"; "Return_Lag_20"; "RSI_Lag_20"; "Close_Lag_30"; "Return_Lag_30";
   "RSI_Lag_30"; "Cumulative_Return_5"; "Cumulative_Return_10"; "Cumulative_Return_20";
   "Cumulative_Return_60"; "Bullish_Signal"; "Bearish_Signal"; "Volume_Price_Trend";
   "High_52W"; "Low_52W"; "Position_52W"; "Skewness_20"; "Kurtosis_20"; "Skewness_60";
   "Kurtosis_60"]
  .

Lemma reindex_names (rows : list nat) (df : DataFrame) :
  (num_cols (reindex rows df)).*1 = (num_cols df).*1.
Proof.
  unfold reindex. cbn [num_cols]. rewrite <- list_fmap_compose.
  apply list_fmap_ext. by intros _ [n v] _.
Qed.

Lemma feature_names_of_target `{Kernels} (history : list Bar) (days : nat) :
  feature_names_of (dropna (target_frame (frame_of history) days)) = feature_names.
Proof.
  unfold feature_names_of, dropna. rewrite reindex_names. vm_compute. reflexivity.
Qed.

Lemma prepare_features_cols `{Kernels} (history : list Bar) (ticker : string) (fit : bool)
    (c : Core) :
  post (λ c' _, feature_cols c' = feature_names)
    (prepare_features (frame_of history) ticker fit c).
Proof.
  pose proof (prepare_features_returns (frame_of history) ticker fit c) as Hret.
  destruct (prepare_features (frame_of history) ticker fit c) as [c' [f|e]]; [|exact I].
  destruct Hret as (_ & Hcols & _). cbn [post].
  by rewrite Hcols, feature_names_of_target.
Qed.

(** X6.  The feature columns do not depend on the data.  Whenever
    [prepare_features] returns on a stored history, and so whenever
    [predict] returns in either class, [feature_cols] holds the same 115
    names in the same order, whatever the history, the horizon and the
    flag [fit_scaler]. *)
Theorem feature_cols_fixed `{Kernels} (history : list Bar) (ticker : string) (fit : bool)
    (c : Core) (s : HybridEnsemblePredictor.Predictor) (s' : KSEStockPredictor.Predictor) :
  post (λ c' _, feature_cols c' = feature_names)
    (prepare_features (frame_of history) ticker fit c) ∧
  post (λ s1 _, feature_cols (HybridEnsemblePredictor.core s1) = feature_names)
    (HybridEnsemblePredictor.predict ticker s) ∧
  post (λ s1 _, feature_cols (KSEStockPredictor.core s1) = feature_names)
    (KSEStockPredictor.predict ticker s') ∧
  length feature_names = 115%nat ∧ NoDup feature_names.
Proof.
  split; [apply prepare_features_cols|]. split; [|split].
  - unfold HybridEnsemblePredictor.predict. repeat post_step.
    apply post_ensemble_on_core.
    eapply post_mono; [|apply prepare_features_cols].
    intros c' df_prepared Hcols. cbv beta.
    repeat post_step. apply post_ret. exact Hcols.
  - unfold KSEStockPredictor.predict. repeat post_step.
    apply post_tabular_on_core.
    eapply post_mono; [|apply prepare_features_cols].
    intros c' df_prepared Hcols. cbv beta.
    repeat post_step. apply post_ret. exact Hcols.
  - split; [reflexivity|]. apply (bool_decide_unpack (NoDup feature_names)). vm_compute. exact I.
Qed.

(** ** The top recommendations *)

(** [not_below x y]: the float [x] is not less than [y]. *)
Definition not_below (x y : fval) : Prop := (x <? y)%F = false.

Definition finite (v : fval) : Prop := ∃ q, v = Num q.

Lemma not_below_trans (x y z : fval) :
  finite x → finite y → finite z → not_below x y → not_below y z → not_below x z.
Proof.
  intros [a ->] [b ->] [c ->]. unfold not_below. cbn [flt].
  destruct (Qltb_spec a b), (Qltb_spec b c), (Qltb_spec a c); try done. lra.
Qed.

Lemma below_not_below (x y : fval) :
  finite x → finite y → (x <? y)%F = true → not_below y x.
Proof.
  intros [a ->] [b ->]. unfold not_below. cbn [flt].
  destruct (Qltb_spec a b), (Qltb_spec b a); try done. lra.
Qed.

Section Sorting.
Context {A : Type} (key : A → fval).

Definition descending : relation A := λ a b, not_below (key a) (key b).

Lemma insert_desc_perm (x : A) (l : list A) : insert_desc key x l ≡ₚ x :: l.
Proof.
  induction l as [|y l IH]; [done|]. cbn.
  destruct (key x <? key y)%F; [|done]. rewrite IH. apply Permutation_swap.
Qed.

Lemma sort_desc_perm (l : list A) : sort_desc key l ≡ₚ l.
Proof.
  induction l as [|x l IH]; [done|]. cbn [sort_desc foldr].
  fold (sort_desc key l). by rewrite insert_desc_perm, IH.
Qed.

Lemma insert_desc_sorted (x : A) (l : list A) :
  finite (key x) → Forall (λ a, finite (key a)) l →
  StronglySorted descending l → StronglySorted descending (insert_desc key x l).
Proof.
  intros Hx Hfin Hsorted. induction Hsorted as [|y l Hl IH Hy]; cbn.
  - repeat constructor.
  - apply Forall_cons in Hfin as [Hfy Hfin].
    destruct (key x <? key y)%F eqn:E.
    + constructor; [by apply IH|].
      rewrite insert_desc_perm. constructor; [|done].
      unfold descending. by apply below_not_below.
    + constructor; [by constructor|]. constructor; [exact E|].
      apply Forall_forall. intros z Hz.
      rewrite Forall_forall in Hy. rewrite Forall_forall in Hfin.
      apply (not_below_trans (key x) (key y) (key z)); auto.
      by apply Hy.
Qed.

Lemma sort_desc_sorted (l : list A) :
  Forall (λ a, finite (key a)) l → StronglySorted descending (sort_desc key l).
Proof.
  induction 1 as [|x l Hx Hl IH]; [constructor|]. cbn [sort_desc foldr].
  fold (sort_desc key l). apply insert_desc_sorted; [done| |done].
  by rewrite sort_desc_perm.
Qed.

End Sorting.

Lemma slice_to_take {A} (n : Z) (l : list A) :
  (0 <= n)%Z → slice_to n l = take (Z.to_nat n) l.
Proof. intros Hn. unfold slice_to. by rewrite (proj2 (Z.leb_le 0 n) Hn). Qed.

Lemma elem_of_predictions_with {P} (signal : P → Action) (a : Action)
    (entries : list (Entry P)) (p : P) :
  p ∈ predictions_with signal a entries ↔ PredictionRecord p ∈ entries ∧ signal p = a.
Proof.
  unfold predictions_with. rewrite list_elem_of_omap. split.
  - intros ([p'|t e] & Hin & Hp); [|done]. case_decide; [|done].
    injection Hp as ->. done.
  - intros [Hin Hs]. exists (PredictionRecord p). split; [done|]. by rewrite decide_True.
Qed.

Lemma elem_of_dict_values {V} (d : gmap string V) (v : V) :
  v ∈ dict_values d ↔ ∃ k, d !! k = Some v.
Proof.
  unfold dict_values. rewrite list_elem_of_omap. split.
  - intros (k & _ & Hk). by exists k.
  - intros [k Hk]. exists k. split; [|done]. apply sorted_keys_elem. by exists v.
Qed.

(** [is_top signal conf a n candidates top]: [top] lists at most [n] of the
    candidates with signal [a], by descending confidence, and no candidate
    with that signal that is left out has more confidence than a listed
    one. *)
Definition is_top {P} (signal : P → Action) (conf : P → fval) (a : Action) (n : Z)
    (candidate : P → Prop) (top : list P) : Prop :=
  (Z.of_nat (length top) <= n)%Z ∧
  (∀ p, p ∈ top → candidate p ∧ signal p = a) ∧
  StronglySorted (descending conf) top ∧
  (∀ p, candidate p → signal p = a → p ∉ top →
        Z.of_nat (length top) = n ∧ ∀ p', p' ∈ top → not_below (conf p') (conf p)).

Lemma top_spec {P} (signal : P → Action) (conf : P → fval) (a : Action) (n : Z)
    (entries : list (Entry P)) :
  (0 <= n)%Z →
  (∀ p, PredictionRecord p ∈ entries → finite (conf p)) →
  is_top signal conf a n (λ p, PredictionRecord p ∈ entries)
    (slice_to n (sort_desc conf (predictions_with signal a entries))).
Proof.
  intros Hn Hfin. rewrite slice_to_take by done.
  set (l := predictions_with signal a entries).
  assert (Forall (λ p, finite (conf p)) l) as Hl.
  { apply Forall_forall. intros p Hp. apply elem_of_predictions_with in Hp as [Hp _].
    by apply Hfin. }
  pose proof (sort_desc_sorted conf l Hl) as Hsorted.
  pose proof (sort_desc_perm conf l) as Hperm.
  set (sorted := sort_desc conf l) in *.
  split; [rewrite length_take; lia|]. split; [|split].
  - intros p Hp. apply elem_of_take in Hp as (i & Hp & _).
    apply list_elem_of_lookup_2 in Hp. rewrite Hperm in Hp.
    by apply elem_of_predictions_with in Hp.
  - rewrite <- (take_drop (Z.to_nat n) sorted) in Hsorted.
    by apply StronglySorted_app_1_l in Hsorted.
  - intros p Hp Hs Hout.
    assert (p ∈ sorted) as Hin by (rewrite Hperm; by apply elem_of_predictions_with).
    rewrite <- (take_drop (Z.to_nat n) sorted) in Hin, Hsorted.
    apply elem_of_app in Hin as [Hin|Hin]; [done|].
    split.
    + rewrite length_take. apply list_elem_of_lookup in Hin as [i Hi].
      apply lookup_lt_Some in Hi. rewrite length_drop in Hi. lia.
    + intros p' Hp'. by eapply (StronglySorted_app_1_elem_of (descending conf)).
Qed.

Lemma is_top_iff {P} (signal : P → Action) (conf : P → fval) (a : Action) (n : Z)
    (candidate candidate' : P → Prop) (top : list P) :
  (∀ p, candidate p ↔ candidate' p) →
  is_top signal conf a n candidate top → is_top signal conf a n candidate' top.
Proof.
  intros Hiff (Hlen & Hin & Hsorted & Hout). split; [done|]. split; [|split; [done|]].
  - intros p Hp. destruct (Hin p Hp) as [Hc Hs]. split; [by apply Hiff | done].
  - intros p Hp. apply Hout. by apply Hiff.
Qed.

Lemma bounded_finite (lo hi : Q) (v : fval) : bounded lo hi v → finite v.
Proof. destruct v as [q| | |]; try done. intros _. by exists q. Qed.

Lemma entry_of_record {P} (ticker : string) (r : result P) (p : P) :
  entry_of ticker r = PredictionRecord p ↔ r = Ok p.
Proof. destruct r as [p'|e]; cbn; split; intros [= ->]; done. Qed.

Lemma ensemble_batch_records `{Kernels} (s : HybridEnsemblePredictor.Predictor)
    (p : HybridEnsemblePredictor.Prediction.t) :
  PredictionRecord p ∈ dict_values (HybridEnsemblePredictor.predict_all s).2 ↔
  ∃ ticker, is_Some (HybridEnsemblePredictor.models s !! ticker) ∧
            (HybridEnsemblePredictor.predict ticker s).2 = Ok p.
Proof.
  rewrite elem_of_dict_values. split.
  - intros [k Hk]. rewrite ensemble_predict_all_lookup in Hk. exists k.
    destruct (HybridEnsemblePredictor.models s !! k) as [b|]; [|done].
    cbn in Hk. injection Hk as Hk. apply entry_of_record in Hk. by split.
  - intros (k & [b Hb] & Hp). exists k. rewrite ensemble_predict_all_lookup, Hb. cbn.
    f_equal. by apply entry_of_record.
Qed.

Lemma tabular_batch_records `{Kernels} (s : KSEStockPredictor.Predictor)
    (p : KSEStockPredictor.Prediction.t) :
  PredictionRecord p ∈ dict_values (KSEStockPredictor.predict_all s).2 ↔
  ∃ ticker, is_Some (KSEStockPredictor.models s !! ticker) ∧
            (KSEStockPredictor.predict ticker s).2 = Ok p.
Proof.
  rewrite elem_of_dict_values. split.
  - intros [k Hk]. rewrite tabular_predict_all_lookup in Hk. exists k.
    destruct (KSEStockPredictor.models s !! k) as [b|]; [|done].
    cbn in Hk. injection Hk as Hk. apply entry_of_record in Hk. by split.
  - intros (k & [b Hb] & Hp). exists k. rewrite tabular_predict_all_lookup, Hb. cbn.
    f_equal. by apply entry_of_record.
Qed.

(** X8.  [get_top_recommendations], in both classes, for [top_n >= 0]:
    [top_buys] lists at most [top_n] records, each the record [predict]
    returns for a trained symbol and each a BUY, by descending confidence;
    a BUY record that is left out has no more confidence than any listed
    one, and then the list is full.  The same holds for [top_sells] and
    SELL.  A symbol whose prediction fails appears in neither list. *)
Theorem top_recommendations `{Kernels} (top_n : Z)
    (s : HybridEnsemblePredictor.Predictor) (s' : KSEStockPredictor.Predictor) :
  (0 <= top_n)%Z →
  let predicted p :=
    ∃ ticker, is_Some (HybridEnsemblePredictor.models s !! ticker) ∧
              (HybridEnsemblePredictor.predict ticker s).2 = Ok p in
  let predicted' p :=
    ∃ ticker, is_Some (KSEStockPredictor.models s' !! ticker) ∧
              (KSEStockPredictor.predict ticker s').2 = Ok p in
  let top := (HybridEnsemblePredictor.get_top_recommendations top_n s).2 in
  let top' := (KSEStockPredictor.get_top_recommendations top_n s').2 in
  is_top HybridEnsemblePredictor.Prediction.signal
    HybridEnsemblePredictor.Prediction.confidence BUY top_n predicted top.1 ∧
  is_top HybridEnsemblePredictor.Prediction.signal
    HybridEnsemblePredictor.Prediction.confidence SELL top_n predicted top.2 ∧
  is_top KSEStockPredictor.Prediction.signal
    KSEStockPredictor.Prediction.confidence BUY top_n predicted' top'.1 ∧
  is_top KSEStockPredictor.Prediction.signal
    KSEStockPredictor.Prediction.confidence SELL top_n predicted' top'.2.
Proof.
  intros Hn predicted predicted' top top'.
  assert (∀ p, PredictionRecord p ∈ dict_values (HybridEnsemblePredictor.predict_all s).2 →
               finite (HybridEnsemblePredictor.Prediction.confidence p)) as Hfin.
  { intros p Hp. apply ensemble_batch_records in Hp as (k & _ & Hp).
    pose proof (ensemble_predict_confidence k s) as Hb. rewrite Hp in Hb.
    by eapply bounded_finite. }
  assert (∀ p, PredictionRecord p ∈ dict_values (KSEStockPredictor.predict_all s').2 →
               finite (KSEStockPredictor.Prediction.confidence p)) as Hfin'.
  { intros p Hp. apply tabular_batch_records in Hp as (k & _ & Hp).
    pose proof (tabular_predict_confidence k s') as Hb. rewrite Hp in Hb.
    by eapply bounded_finite. }
  pose proof (ensemble_batch_records s) as Hrec.
  pose proof (tabular_batch_records s') as Hrec'.
  subst top top'.
  unfold HybridEnsemblePredictor.get_top_recommendations,
    KSEStockPredictor.get_top_recommendations.
  destruct (HybridEnsemblePredictor.predict_all s) as [s1 all].
  destruct (KSEStockPredictor.predict_all s') as [s1' all'].
  cbn [fst snd] in *.
  split; [|split; [|split]].
  - eapply is_top_iff; [exact Hrec|]. by apply top_spec.
  - eapply is_top_iff; [exact Hrec|]. by apply top_spec.
  - eapply is_top_iff; [exact Hrec'|]. by apply top_spec.
  - eapply is_top_iff; [exact Hrec'|]. by apply top_spec.
Qed.

Lemma top_recommendations_witness :
  let s := sample_predictor in
  let s' := KSEStockPredictor.init 7 in
  let predicted p :=
    ∃ ticker, is_Some (HybridEnsemblePredictor.models s !! ticker) ∧
              (@HybridEnsemblePredictor.predict sample_kernels ticker s).2 = Ok p in
  let predicted' p :=
    ∃ ticker, is_Some (KSEStockPredictor.models s' !! ticker) ∧
              (@KSEStockPredictor.predict sample_kernels ticker s').2 = Ok p in
  let top := (@HybridEnsemblePredictor.get_top_recommendations sample_kernels 5 s).2 in
  let top' := (@KSEStockPredictor.get_top_recommendations sample_kernels 5 s').2 in
  is_top HybridEnsemblePredictor.Prediction.signal
    HybridEnsemblePredictor.Prediction.confidence BUY 5 predicted top.1 ∧
  is_top HybridEnsemblePredictor.Prediction.signal
    HybridEnsemblePredictor.Prediction.confidence SELL 5 predicted top.2 ∧
  is_top KSEStockPredictor.Prediction.signal
    KSEStockPredictor.Prediction.confidence BUY 5 predicted' top'.1 ∧
  is_top KSEStockPredictor.Prediction.signal
    KSEStockPredictor.Prediction.confidence SELL 5 predicted' top'.2.
Proof.
  apply (@top_recommendations sample_kernels 5 sample_predictor (KSEStockPredictor.init 7)).
  done.
Defined.

(** ** Symmetry and monotony of the signal *)

(** Decide the rational comparisons of the goal one after the other,
    dropping the branches the earlier ones exclude. *)
Ltac split_cmp :=
  repeat match goal with
  | |- context [Qltb ?x ?y] =>
      destruct (Qltb_spec x y); try (exfalso; lra); cbv beta iota
  end.

Ltac run_signal :=
  cbv zeta; unfold py_max, py_min, fgt; cbn [flt fmul fadd fsub fneg];
  split_cmp; cbn [action confidence].

(** The signal with BUY and SELL exchanged. *)
Definition mirror (a : Action) : Action :=
  match a with BUY => SELL | SELL => BUY | HOLD => HOLD end.

(** X9.  The signal is symmetric.  For a non-negative volatility,
    mirroring the predicted return and the RSI ([-r] for [r], [100 - rsi]
    for [rsi]) exchanges BUY and SELL, keeps HOLD, and leaves the
    confidence of the signal as it is, in both classes. *)
Theorem signal_mirror (pr conf rsi vol : Q) (regime : string) :
  0 <= vol →
  (let up := HybridEnsemblePredictor.generate_signal pr conf rsi vol regime in
   let down :=
     HybridEnsemblePredictor.generate_signal (- pr) conf (100 - rsi) vol regime in
   action down = mirror (action up) ∧ confidence down = confidence up) ∧
  (let up := KSEStockPredictor.generate_signal pr conf rsi vol regime in
   let down := KSEStockPredictor.generate_signal (- pr) conf (100 - rsi) vol regime in
   action down = mirror (action up) ∧ confidence down = confidence up).
Proof.
  intros Hvol. split.
  - unfold HybridEnsemblePredictor.generate_signal. run_signal. all: split; reflexivity.
  - unfold KSEStockPredictor.generate_signal. run_signal. all: split; reflexivity.
Qed.

Lemma signal_mirror_witness :
  (let up := HybridEnsemblePredictor.generate_signal 5 60 50 0.01 "Bull" in
   let down := HybridEnsemblePredictor.generate_signal (- 5) 60 (100 - 50) 0.01 "Bull" in
   action down = mirror (action up) ∧ confidence down = confidence up) ∧
  (let up := KSEStockPredictor.generate_signal 5 60 50 0.01 "Bull" in
   let down := KSEStockPredictor.generate_signal (- 5) 60 (100 - 50) 0.01 "Bull" in
   action down = mirror (action up) ∧ confidence down = confidence up).
Proof. apply (signal_mirror 5 60 50 0.01 "Bull"). vm_compute. discriminate. Defined.

Ltac solve_signal_confidence conf :=
  run_signal;
  (eexists; split; [reflexivity|]);
  (split; intros Hact; try discriminate; try done;
   destruct (Qmax_case 15 conf) as [[? Em]|[? Em]]; try lra).

(** X10.  The confidence of the signal against the score it is given.  For
    a score of at most 95 and finite inputs: a BUY or SELL is only issued
    above the gate (40 in the ensemble class, 38 in the tabular class) and
    its confidence is the score or up to 5 points more; a HOLD never has
    more confidence than [max(15, score)]. *)
Theorem signal_confidence_against_score (pr conf rsi vol : Q) (regime : string) :
  conf <= 95 →
  (let sg := HybridEnsemblePredictor.generate_signal pr conf rsi vol regime in
   ∃ c, confidence sg = Num c ∧
        (action sg = HOLD → c <= Qmax 15 conf) ∧
        (action sg ≠ HOLD → 40 < conf ∧ conf <= c <= conf + 5)) ∧
  (let sg := KSEStockPredictor.generate_signal pr conf rsi vol regime in
   ∃ c, confidence sg = Num c ∧
        (action sg = HOLD → c <= Qmax 15 conf) ∧
        (action sg ≠ HOLD → 38 < conf ∧ conf <= c <= conf + 5)).
Proof.
  intros Hconf. split.
  - unfold HybridEnsemblePredictor.generate_signal. solve_signal_confidence conf.
  - unfold KSEStockPredictor.generate_signal. solve_signal_confidence conf.
Qed.

Lemma signal_confidence_against_score_witness :
  (let sg := HybridEnsemblePredictor.generate_signal 5 60 50 0.01 "Bull" in
   ∃ c, confidence sg = Num c ∧
        (action sg = HOLD → c <= Qmax 15 60) ∧
        (action sg ≠ HOLD → 40 < 60 ∧ 60 <= c <= 60 + 5)) ∧
  (let sg := KSEStockPredictor.generate_signal 5 60 50 0.01 "Bull" in
   ∃ c, confidence sg = Num c ∧
        (action sg = HOLD → c <= Qmax 15 60) ∧
        (action sg ≠ HOLD → 38 < 60 ∧ 60 <= c <= 60 + 5)).
Proof.
  apply (signal_confidence_against_score 5 60 50 0.01 "Bull"). vm_compute. discriminate.
Defined.

(** X11.  More volatility never creates a signal.  For finite inputs and
    volatilities [0 <= v1 <= v2], a BUY at volatility [v2] is a BUY at [v1],
    and a SELL at [v2] is a SELL at [v1], in both classes: the thresholds
    only widen with the volatility. *)
Theorem signal_volatility_monotone (pr conf rsi v1 v2 : Q) (regime : string) :
  0 <= v1 → v1 <= v2 →
  (∀ a, a ≠ HOLD →
        action (HybridEnsemblePredictor.generate_signal pr conf rsi v2 regime) = a →
        action (HybridEnsemblePredictor.generate_signal pr conf rsi v1 regime) = a) ∧
  (∀ a, a ≠ HOLD →
        action (KSEStockPredictor.generate_signal pr conf rsi v2 regime) = a →
        action (KSEStockPredictor.generate_signal pr conf rsi v1 regime) = a).
Proof.
  intros H1 H2. split; intros a Ha.
  - unfold HybridEnsemblePredictor.generate_signal. run_signal.
    all: intros <-; done.
  - unfold KSEStockPredictor.generate_signal. run_signal.
    all: intros <-; done.
Qed.

Lemma signal_volatility_monotone_witness :
  (∀ a, a ≠ HOLD →
        action (HybridEnsemblePredictor.generate_signal 5 60 50 0.02 "Bull") = a →
        action (HybridEnsemblePredictor.generate_signal 5 60 50 0.01 "Bull") = a) ∧
  (∀ a, a ≠ HOLD →
        action (KSEStockPredictor.generate_signal 5 60 50 0.02 "Bull") = a →
        action (KSEStockPredictor.generate_signal 5 60 50 0.01 "Bull") = a).
Proof.
  apply (signal_volatility_monotone 5 60 50 0.01 0.02 "Bull"); vm_compute; discriminate.
Defined.

(** ** Monotony of the ensemble confidence *)

Lemma ensemble_confidence_value (lstm_r2 lgb_r2 xgb_r2 spread volatility : Q)
    (r : Regime) (ticker : string) (predicted_return rsi : fval) (m : gmap string fval) :
  ∃ c, HybridEnsemblePredictor.calculate_confidence_ensemble ticker predicted_return
         (Num volatility) rsi (regime_name r) (Num spread)
         (with_r2 lstm_r2 lgb_r2 xgb_r2 m) = Num c ∧
       c == reference_confidence ((lstm_r2 + lgb_r2 + xgb_r2) / 3) spread volatility r.
Proof.
  unfold HybridEnsemblePredictor.calculate_confidence_ensemble, reference_confidence.
  cbv zeta. destruct (with_r2_get lstm_r2 lgb_r2 xgb_r2 m) as (-> & -> & ->).
  change (Num lstm_r2 + Num lgb_r2 + Num xgb_r2)%F
    with (Num (lstm_r2 + lgb_r2 + xgb_r2)).
  rewrite fdiv_Num_pos by lra.
  destruct (base_confidence_reference ((lstm_r2 + lgb_r2 + xgb_r2) / 3))
    as (b & -> & Hb).
  destruct (agreement_boost_reference spread) as (g & -> & Hg).
  destruct (volatility_penalty_reference volatility) as (v & -> & Hv).
  change (Num b + Num g + Num v)%F with (Num (b + g + v)).
  destruct (regime_adjustment_reference r (b + g + v)) as (t & -> & Ht).
  destruct (clamp_reference 25 95 t) as (y & -> & Hy).
  exists y. split; [done|]. rewrite Hy, Ht, Hb, Hg, Hv. reflexivity.
Qed.

Ltac split_dec :=
  repeat match goal with
  | |- context [Qlt_le_dec ?x ?y] => destruct (Qlt_le_dec x y); try (exfalso; lra)
  end.

Lemma reference_base_mono (x y : Q) : x <= y → reference_base x <= reference_base y.
Proof.
  intros Hxy. unfold reference_base. split_dec; try lra.
  all: try (destruct (Qmin_case 85 (55 + y * 80)) as [[? E]|[? E]]; rewrite E; lra).
  destruct (Qmin_case 85 (55 + x * 80)) as [[? E]|[? E]];
    destruct (Qmin_case 85 (55 + y * 80)) as [[? E']|[? E']]; rewrite E, E'; lra.
Qed.

Lemma reference_boost_mono (x y : Q) :
  x <= y → reference_agreement_boost y <= reference_agreement_boost x.
Proof.
  intros Hxy. unfold reference_agreement_boost.
  destruct (Qmin_case x 1) as [[? E]|[? E]];
    destruct (Qmin_case y 1) as [[? E']|[? E']]; rewrite E, E'; lra.
Qed.

Lemma reference_penalty_mono (x y : Q) :
  x <= y → reference_volatility_penalty y <= reference_volatility_penalty x.
Proof. intros Hxy. unfold reference_volatility_penalty. split_dec; lra. Qed.

Lemma clamp_mono (lo hi x y : Q) : x <= y → Qmax lo (Qmin hi x) <= Qmax lo (Qmin hi y).
Proof.
  intros Hxy. apply Q.max_le_compat_l. by apply Q.min_le_compat_l.
Qed.

(** X12.  The ensemble confidence is monotone.  For finite inputs and a
    fixed regime, the score of [calculate_confidence_ensemble] does not
    decrease when the three R² values grow, when the spread of the three
    forecasts shrinks and when the volatility shrinks. *)
Theorem ensemble_confidence_monotone (lstm_r2 lgb_r2 xgb_r2 spread volatility : Q)
    (lstm_r2' lgb_r2' xgb_r2' spread' volatility' : Q)
    (r : Regime) (ticker : string) (predicted_return rsi : fval) (m : gmap string fval) :
  lstm_r2 <= lstm_r2' → lgb_r2 <= lgb_r2' → xgb_r2 <= xgb_r2' →
  spread' <= spread → volatility' <= volatility →
  ∃ c c',
    HybridEnsemblePredictor.calculate_confidence_ensemble ticker predicted_return
      (Num volatility) rsi (regime_name r) (Num spread)
      (with_r2 lstm_r2 lgb_r2 xgb_r2 m) = Num c ∧
    HybridEnsemblePredictor.calculate_confidence_ensemble ticker predicted_return
      (Num volatility') rsi (regime_name r) (Num spread')
      (with_r2 lstm_r2' lgb_r2' xgb_r2' m) = Num c' ∧
    c <= c'.
Proof.
  intros H1 H2 H3 Hs Hv.
  destruct (ensemble_confidence_value lstm_r2 lgb_r2 xgb_r2 spread volatility r ticker
              predicted_return rsi m) as (c & Ec & Hc).
  destruct (ensemble_confidence_value lstm_r2' lgb_r2' xgb_r2' spread' volatility' r ticker
              predicted_return rsi m) as (c' & Ec' & Hc').
  exists c, c'. split; [exact Ec|]. split; [exact Ec'|].
  rewrite Hc, Hc'. unfold reference_confidence. apply clamp_mono.
  pose proof (reference_base_mono ((lstm_r2 + lgb_r2 + xgb_r2) / 3)
                ((lstm_r2' + lgb_r2' + xgb_r2') / 3)) as Hb.
  pose proof (reference_boost_mono spread' spread Hs) as Hg.
  pose proof (reference_penalty_mono volatility' volatility Hv) as Hp.
  assert ((lstm_r2 + lgb_r2 + xgb_r2) / 3 <= (lstm_r2' + lgb_r2' + xgb_r2') / 3) as Havg.
  { apply Qmult_le_compat_r; [lra|]. done. }
  specialize (Hb Havg). lra.
Qed.

Lemma ensemble_confidence_monotone_witness :
  ∃ c c',
    HybridEnsemblePredictor.calculate_confidence_ensemble "ENGRO" 1
      (Num 0.02) 50 (regime_name Bull) (Num 0.5) (with_r2 0.1 0.1 0.1 ∅) = Num c ∧
    HybridEnsemblePredictor.calculate_confidence_ensemble "ENGRO" 1
      (Num 0.01) 50 (regime_name Bull) (Num 0.2) (with_r2 0.2 0.2 0.2 ∅) = Num c' ∧
    c <= c'.
Proof.
  apply (ensemble_confidence_monotone 0.1 0.1 0.1 0.5 0.02 0.2 0.2 0.2 0.2 0.01 Bull
           "ENGRO" 1 50 ∅); vm_compute; discriminate.
Defined.

(** ** Monotony of the tabular confidence *)

Ltac solve_piece :=
  unfold py_min; cbn [flt fadd fmul fabs]; split_cmp;
  do 2 eexists; (split; [reflexivity|]); (split; [reflexivity|]); lra.

Lemma tabular_base_mono (r2 r2' : Q) :
  r2 <= r2' →
  ∃ x x',
    (if (Num r2 <? 0)%F then Num 30
     else if (Num r2 <? 0.05)%F then Num 38
     else if (Num r2 <? 0.1)%F then Num 45
     else if (Num r2 <? 0.15)%F then Num 52
     else if (Num r2 <? 0.2)%F then Num 58
     else if (Num r2 <? 0.3)%F then Num 65
     else if (Num r2 <? 0.5)%F then Num 72
     else py_min 90 (60 + (Num r2 * 80))%F) = Num x ∧
    (if (Num r2' <? 0)%F then Num 30
     else if (Num r2' <? 0.05)%F then Num 38
     else if (Num r2' <? 0.1)%F then Num 45
     else if (Num r2' <? 0.15)%F then Num 52
     else if (Num r2' <? 0.2)%F then Num 58
     else if (Num r2' <? 0.3)%F then Num 65
     else if (Num r2' <? 0.5)%F then Num 72
     else py_min 90 (60 + (Num r2' * 80))%F) = Num x' ∧
    x <= x'.
Proof. intros H. solve_piece. Qed.

Lemma tabular_mape_mono (mape mape' : Q) :
  mape' <= mape →
  ∃ x x',
    (if (Num mape <? 1)%F then Num 25
     else if (Num mape <? 2)%F then Num 20
     else if (Num mape <? 5)%F then Num 15
     else if (Num mape <? 10)%F then Num 10
     else if (Num mape <? 15)%F then Num 5
     else if (Num mape <? 25)%F then Num 0
     else Num (-10)) = Num x ∧
    (if (Num mape' <? 1)%F then Num 25
     else if (Num mape' <? 2)%F then Num 20
     else if (Num mape' <? 5)%F then Num 15
     else if (Num mape' <? 10)%F then Num 10
     else if (Num mape' <? 15)%F then Num 5
     else if (Num mape' <? 25)%F then Num 0
     else Num (-10)) = Num x' ∧
    x <= x'.
Proof. intros H. solve_piece. Qed.

Lemma tabular_volatility_mono (v v' : Q) :
  v' <= v →
  ∃ x x',
    (if (Num v <? 0.005)%F then Num 0
     else if (Num v <? 0.015)%F then Num (-2)
     else if (Num v <? 0.03)%F then Num (-5)
     else if (Num v <? 0.05)%F then Num (-8)
     else Num (-15)) = Num x ∧
    (if (Num v' <? 0.005)%F then Num 0
     else if (Num v' <? 0.015)%F then Num (-2)
     else if (Num v' <? 0.03)%F then Num (-5)
     else if (Num v' <? 0.05)%F then Num (-8)
     else Num (-15)) = Num x' ∧
    x <= x'.
Proof. intros H. solve_piece. Qed.

Lemma tabular_magnitude_mono (pr pr' : Q) :
  Qabs pr' <= Qabs pr →
  ∃ x x',
    (if (fabs (Num pr) <? 0.3)%F then Num 2
     else if (fabs (Num pr) <? 2)%F then Num 1
     else if (fabs (Num pr) <? 5)%F then Num 0
     else if (fabs (Num pr) <? 10)%F then Num (-5)
     else Num (-15)) = Num x ∧
    (if (fabs (Num pr') <? 0.3)%F then Num 2
     else if (fabs (Num pr') <? 2)%F then Num 1
     else if (fabs (Num pr') <? 5)%F then Num 0
     else if (fabs (Num pr') <? 10)%F then Num (-5)
     else Num (-15)) = Num x' ∧
    x <= x'.
Proof.
  intros H. cbn [fabs]. revert H. generalize (Qabs pr') (Qabs pr). intros a' a H.
  solve_piece.
Qed.

(** X16.  The tabular confidence is monotone.  For finite metrics and
    inputs, the score of the tabular [calculate_confidence] does not
    decrease when R² grows, when the MAPE shrinks, when the volatility
    shrinks and when the predicted return shrinks in absolute value (same
    RSI, same regime). *)
Theorem tabular_confidence_monotone (models models' : gmap string KSEStockPredictor.Bundle)
    (b b' : KSEStockPredictor.Bundle) (ticker regime : string) (rsi : fval)
    (r2 r2' mape mape' pr pr' vol vol' : Q) :
  models !! ticker = Some b → models' !! ticker = Some b' →
  KSEStockPredictor.metrics b !! "r2" = Some (Num r2) →
  KSEStockPredictor.metrics b !! "mape" = Some (Num mape) →
  KSEStockPredictor.metrics b' !! "r2" = Some (Num r2') →
  KSEStockPredictor.metrics b' !! "mape" = Some (Num mape') →
  r2 <= r2' → mape' <= mape → vol' <= vol → Qabs pr' <= Qabs pr →
  ∃ c c',
    KSEStockPredictor.calculate_confidence models ticker (Num pr) (Num vol) rsi regime
      = Ok (Num c) ∧
    KSEStockPredictor.calculate_confidence models' ticker (Num pr') (Num vol') rsi regime
      = Ok (Num c') ∧
    c <= c'.
Proof.
  intros Hb Hb' Hr Hm Hr' Hm' H1 H2 H3 H4.
  unfold KSEStockPredictor.calculate_confidence, dict_item.
  rewrite Hb, Hb'. cbn [mbind result_bind]. rewrite Hr, Hm, Hr', Hm'.
  cbn [mbind result_bind mret result_ret]. cbv zeta.
  destruct (tabular_base_mono r2 r2' H1) as (x1 & x1' & -> & -> & Hx1).
  destruct (tabular_mape_mono mape mape' H2) as (x2 & x2' & -> & -> & Hx2).
  destruct (tabular_volatility_mono vol vol' H3) as (x3 & x3' & -> & -> & Hx3).
  destruct (tabular_magnitude_mono pr pr' H4) as (x4 & x4' & -> & -> & Hx4).
  destruct (String.eqb regime "Bull"); [|destruct (String.eqb regime "Bear")];
    destruct ((rsi >? 80)%F || (rsi <? 20)%F); cbn [fadd fsub fneg];
    match goal with
    | |- ∃ c c', mret (py_max _ (py_min _ (Num ?t))) = _ ∧
                 mret (py_max _ (py_min _ (Num ?t'))) = _ ∧ _ =>
        destruct (clamp_reference 20 95 t) as (y & -> & Hy);
        destruct (clamp_reference 20 95 t') as (y' & -> & Hy');
        exists y, y'; split; [reflexivity|]; split; [reflexivity|];
        rewrite Hy, Hy'; apply clamp_mono; lra
    end.
Qed.

Lemma tabular_confidence_monotone_witness :
  ∃ c c',
    KSEStockPredictor.calculate_confidence
      (KSEStockPredictor.models sample_tabular_predictor) "ENGRO" (Num 5) (Num 0.03)
      (Num 50) "Bull" = Ok (Num c) ∧
    KSEStockPredictor.calculate_confidence
      (KSEStockPredictor.models sample_tabular_predictor) "ENGRO" (Num 2) (Num 0.01)
      (Num 50) "Bull" = Ok (Num c') ∧ c <= c'.
Proof.
  apply (tabular_confidence_monotone
           (KSEStockPredictor.models sample_tabular_predictor)
           (KSEStockPredictor.models sample_tabular_predictor)
           sample_tabular_bundle sample_tabular_bundle "ENGRO" "Bull" (Num 50)
           0.5 0.5 0.1 0.1 5 2 0.03 0.01).
  - reflexivity.
  - reflexivity.
  - reflexivity.
  - reflexivity.
  - reflexivity.
  - reflexivity.
  - lra.
  - lra.
  - lra.
  - vm_compute. discriminate.
Defined.

(** ** The regime of a short history *)

Lemma trailing_return_warm_up (close : list Q) (w i : nat) :
  (i < w)%nat → trailing_return close w i = NaN.
Proof.
  intros Hi. unfold trailing_return.
  destruct (close !! i); [|done]. destruct (close !! (i - w)%nat); [|done].
  by rewrite decide_False by lia.
Qed.

Lemma regime_warm_up `{Kernels} (df : DataFrame) (w : nat) :
  ∃ labels,
    column "Regime" (str_cols (detect_market_regime df w)) = Some labels ∧
    length labels = length (bars df) ∧
    ∀ i label, labels !! i = Some label → (i < w)%nat → label = "Sideways"%string.
Proof.
  eexists. split; [apply detect_market_regime_labels|]. split.
  - by rewrite length_imap.
  - intros i label Hi Hw. rewrite list_lookup_imap in Hi.
    destruct (bars df !! i); [|done]. cbn in Hi. injection Hi as <-.
    by rewrite trailing_return_warm_up.
Qed.

Lemma engine_str_cols `{Kernels} (df : DataFrame) :
  str_cols (calculate_advanced_indicators df) = str_cols (sort_values_Date df).
Proof.
  unfold calculate_advanced_indicators. cbv zeta. unfold bollinger, price_action.
  cbn [foldl str_cols set_col]. reflexivity.
Qed.

Lemma column_reindex {V} (name : string) (rows : list nat) (cols : list (string * list V)) :
  column name ((λ '(n, s), (n, take_rows rows s)) <$> cols) =
    take_rows rows <$> column name cols.
Proof.
  induction cols as [|[n s] cols IH]; [done|]. cbn.
  destruct (String.eqb n name); [done | exact IH].
Qed.

Lemma sideways_last `{Kernels} (df : DataFrame) (regime : string) :
  (length (bars df) ≤ 252)%nat →
  (getitem (str_cols (calculate_advanced_indicators (detect_market_regime df 252))) "Regime"
     ≫= iloc_last) = Ok regime →
  regime = "Sideways"%string.
Proof.
  intros Hlen. rewrite engine_str_cols. unfold sort_values_Date, reindex, getitem.
  cbn [str_cols]. rewrite column_reindex.
  destruct (regime_warm_up df 252) as (labels & -> & Hl & Hside). cbn.
  unfold iloc_last. destruct (last _) as [r|] eqn:Hlast; [|done]. intros [= <-].
  apply last_Some_elem_of in Hlast. unfold take_rows in Hlast.
  apply list_elem_of_omap in Hlast as (i & _ & Hi).
  apply (Hside i r Hi). apply lookup_lt_Some in Hi. lia.
Qed.

(** X13.  The regime needs a year of history.  The first 252 rows of any
    history are labelled Sideways: there is no trailing 252-session return
    yet.  So for a stored history of at most 252 bars the record of
    [predict] reports the regime Sideways, in both classes. *)
Theorem short_history_sideways `{Kernels} (ticker : string) (history history' : list Bar)
    (s : HybridEnsemblePredictor.Predictor) (s' : KSEStockPredictor.Predictor) :
  data_dict (HybridEnsemblePredictor.core s) !! ticker = Some history →
  data_dict (KSEStockPredictor.core s') !! ticker = Some history' →
  (length history ≤ 252)%nat → (length history' ≤ 252)%nat →
  (∀ i label,
     (column "Regime" (str_cols (detect_market_regime (frame_of history) 252))
        ≫= (λ labels, labels !! i)) = Some label →
     (i < 252)%nat → label = "Sideways"%string) ∧
  returns (λ p, HybridEnsemblePredictor.Prediction.market_regime p = "Sideways"%string)
    (HybridEnsemblePredictor.predict ticker s).2 ∧
  returns (λ p, KSEStockPredictor.Prediction.market_regime p = "Sideways"%string)
    (KSEStockPredictor.predict ticker s').2.
Proof.
  intros Hdata Hdata' Hlen Hlen'. split; [|split].
  - intros i label.
    destruct (regime_warm_up (frame_of history) 252) as (labels & -> & _ & Hside).
    cbn. apply Hside.
  - apply post_returns.
    unfold HybridEnsemblePredictor.predict. repeat post_step.
    apply post_ensemble_on_core.
    destruct (prepare_features _ _ _ _) as [c' [df_prepared|e]]; [|exact I].
    unfold post at 1. cbv beta iota. repeat post_step. apply post_ret.
    cbn [HybridEnsemblePredictor.Prediction.market_regime].
    eapply (sideways_last (frame_of history)); [exact Hlen | eassumption].
  - apply post_returns.
    unfold KSEStockPredictor.predict. repeat post_step.
    apply post_tabular_on_core.
    destruct (prepare_features _ _ _ _) as [c' [df_prepared|e]]; [|exact I].
    unfold post at 1. cbv beta iota. repeat post_step. apply post_ret.
    cbn [KSEStockPredictor.Prediction.market_regime].
    eapply (sideways_last (frame_of history')); [exact Hlen' | eassumption].
Qed.

Lemma short_history_sideways_witness :
  (∀ i label,
     (column "Regime" (str_cols (@detect_market_regime sample_kernels (frame_of sample_history) 252))
        ≫= (λ labels, labels !! i)) = Some label →
     (i < 252)%nat → label = "Sideways"%string) ∧
  returns (λ p, HybridEnsemblePredictor.Prediction.market_regime p = "Sideways"%string)
    (@HybridEnsemblePredictor.predict sample_kernels "ENGRO" sample_predictor).2 ∧
  returns (λ p, KSEStockPredictor.Prediction.market_regime p = "Sideways"%string)
    (@KSEStockPredictor.predict sample_kernels "ENGRO" sample_tabular_predictor).2.
Proof.
  apply (@short_history_sideways sample_kernels "ENGRO" sample_history sample_history
           sample_predictor sample_tabular_predictor).
  - reflexivity.
  - reflexivity.
  - vm_compute. lia.
  - vm_compute. lia.
Defined.

(** ** On-balance volume *)

(** The value the loop of [calculate_obv] writes for a bar, from the
    previous close and the previous value. *)
Definition obv_step (prev_close : Q) (prev_obv : fval) (b : Bar) : fval :=
  if Qltb prev_close (Close b) then (prev_obv + Num (Volume b))%F
  else if Qltb (Close b) prev_close then (prev_obv - Num (Volume b))%F
  else prev_obv.

Fixpoint obv_from (prev_close : Q) (prev_obv : fval) (rest : list Bar) : Series :=
  match rest with
  | [] => []
  | b :: rest =>
      obv_step prev_close prev_obv b :: obv_from (Close b) (obv_step prev_close prev_obv b) rest
  end.

Lemma calculate_obv_unfold (b0 : Bar) (rest : list Bar) :
  calculate_obv (b0 :: rest) =
    Num (Volume b0) :: obv_from (Close b0) (Num (Volume b0)) rest.
Proof.
  unfold calculate_obv.
  assert (∀ c o acc,
    (foldl (λ '(prev_close, prev_obv, acc) (b : Bar),
              let obv :=
                if Qltb prev_close (Close b) then (prev_obv + Num (Volume b))%F
                else if Qltb (Close b) prev_close then (prev_obv - Num (Volume b))%F
                else prev_obv in
              (Close b, obv, acc ++ [obv])) (c, o, acc) rest).2
    = acc ++ obv_from c o rest) as Hfold.
  { induction rest as [|b rest IH]; intros c o acc; cbn [foldl obv_from].
    - by rewrite app_nil_r.
    - rewrite IH. by rewrite <- app_assoc. }
  apply (Hfold (Close b0) (Num (Volume b0)) [Num (Volume b0)]).
Qed.

Lemma obv_from_length (c : Q) (o : fval) (rest : list Bar) :
  length (obv_from c o rest) = length rest.
Proof. revert c o. induction rest as [|b rest IH]; intros c o; cbn; [done|]. by rewrite IH. Qed.

Lemma obv_from_step (c : Q) (o : fval) (rest : list Bar) (i : nat) (prev cur : Bar)
    (v : fval) :
  rest !! i = Some prev → rest !! S i = Some cur → obv_from c o rest !! i = Some v →
  obv_from c o rest !! S i = Some (obv_step (Close prev) v cur).
Proof.
  revert c o i. induction rest as [|b rest IH]; intros c o i; [done|].
  destruct i as [|i]; cbn [obv_from].
  - intros [= ->] Hcur [= <-]. destruct rest as [|b' rest]; [done|].
    injection Hcur as ->. done.
  - intros Hprev Hcur Hv. apply (IH _ _ i); done.
Qed.

(** The volume traded up to a row. *)
Definition total_volume (l : list Bar) : Q := foldr (λ b acc, Volume b + acc) 0 l.

Lemma obv_from_bound (c q0 : Q) (rest : list Bar) (i : nat) (v : fval) :
  Forall (λ b, 0 <= Volume b) rest →
  obv_from c (Num q0) rest !! i = Some v →
  ∃ q, v = Num q ∧
       q0 - total_volume (take (S i) rest) <= q <= q0 + total_volume (take (S i) rest).
Proof.
  intros Hvol. revert c q0 i v.
  induction Hvol as [|b rest Hb Hrest IH]; intros c q0 i v; [done|].
  assert (∃ q1, obv_step c (Num q0) b = Num q1 ∧ q0 - Volume b <= q1 <= q0 + Volume b)
    as (q1 & E1 & H1).
  { unfold obv_step. destruct (Qltb c (Close b)); [|destruct (Qltb (Close b) c)];
      cbn [fadd fsub fneg]; eexists; (split; [reflexivity|]); lra. }
  cbn [obv_from]. rewrite E1. destruct i as [|i].
  - intros [= <-]. exists q1. split; [done|].
    cbn [take total_volume foldr]. rewrite take_0. cbn [foldr]. lra.
  - intros Hv. destruct (IH _ _ _ _ Hv) as (q & -> & Hq). exists q. split; [done|].
    change (take (S (S i)) (b :: rest)) with (b :: take (S i) rest).
    cbn [total_volume foldr]. fold (total_volume (take (S i) rest)). lra.
Qed.

(** X14.  On-balance volume.  [calculate_obv] returns one value per bar;
    the first is the first volume, and each later one is the previous value
    plus the bar's volume when the close rose, minus it when the close
    fell, unchanged otherwise.  With non-negative volumes every value is
    finite and its size is at most the volume traded up to its row. *)
Theorem calculate_obv_spec (df : list Bar) :
  length (calculate_obv df) = length df ∧
  (∀ b0, df !! 0%nat = Some b0 → calculate_obv df !! 0%nat = Some (Num (Volume b0))) ∧
  (∀ i prev cur v,
     df !! i = Some prev → df !! S i = Some cur → calculate_obv df !! i = Some v →
     calculate_obv df !! S i = Some (obv_step (Close prev) v cur)) ∧
  (Forall (λ b, 0 <= Volume b) df →
   ∀ i v, calculate_obv df !! i = Some v →
          ∃ q, v = Num q ∧
               - total_volume (take (S i) df) <= q <= total_volume (take (S i) df)).
Proof.
  destruct df as [|b0 rest]; [by repeat split|].
  rewrite calculate_obv_unfold. split; [|split; [|split]].
  - cbn. by rewrite obv_from_length.
  - by intros b [= ->].
  - intros [|i] prev cur v; cbn [lookup list_lookup].
    + intros [= <-] Hcur [= <-]. destruct rest as [|b rest]; [done|].
      injection Hcur as ->. done.
    + apply obv_from_step.
  - intros Hvol [|i] v.
    + intros [= <-]. apply Forall_cons in Hvol as [H0 _]. eexists. split; [done|].
      cbn [take total_volume foldr]. rewrite take_0. cbn [foldr]. lra.
    + apply Forall_cons in Hvol as [H0 Hvol]. cbn [lookup list_lookup]. intros Hv.
      destruct (obv_from_bound _ _ _ _ _ Hvol Hv) as (q & -> & Hq).
      exists q. split; [done|].
      change (take (S (S i)) (b0 :: rest)) with (b0 :: take (S i) rest).
      cbn [total_volume foldr]. fold (total_volume (take (S i) rest)). lra.
Qed.

(** ** Loading the histories *)

(** The date and the symbol of a row. *)
Definition row_key (r : CsvRow) : Z * string := (Date (bar r), Ticker r).

Lemma same_key_spec (r r' : CsvRow) : same_key r r' = true ↔ row_key r' = row_key r.
Proof.
  unfold same_key, row_key. rewrite andb_true_iff, bool_decide_eq_true, String.eqb_eq.
  split; [by intros [-> ->] | by intros [= -> ->]].
Qed.

Lemma same_key_false (r r' : CsvRow) : same_key r r' = false ↔ row_key r' ≠ row_key r.
Proof. rewrite <- same_key_spec. by destruct (same_key r r'). Qed.

Lemma elem_of_drop_duplicates_cons (x r : CsvRow) (rest : list CsvRow) :
  r ∈ drop_duplicates (x :: rest) ↔
  r = x ∨ (r ∈ drop_duplicates rest ∧ row_key r ≠ row_key x).
Proof.
  cbn [drop_duplicates]. rewrite elem_of_cons, elem_of_filter_bool, negb_true_iff.
  by rewrite same_key_false.
Qed.

(** [first_at rows i r]: [r] is the row at position [i], and no earlier row
    has its date and symbol. *)
Definition first_at (rows : list CsvRow) (i : nat) (r : CsvRow) : Prop :=
  rows !! i = Some r ∧
  ∀ j r', (j < i)%nat → rows !! j = Some r' → row_key r' ≠ row_key r.

Lemma elem_of_drop_duplicates (rows : list CsvRow) (r : CsvRow) :
  r ∈ drop_duplicates rows ↔ ∃ i, first_at rows i r.
Proof.
  induction rows as [|x rest IH].
  - split; [by intros ?%elem_of_nil | by intros (i & ? & _)].
  - rewrite elem_of_drop_duplicates_cons, IH. split.
    + intros [->|[(i & Hi & Hfirst) Hx]].
      * exists 0%nat. split; [done|]. intros j r' Hj. lia.
      * exists (S i). split; [done|]. intros [|j] r' Hj; cbn.
        -- intros [= <-]. congruence.
        -- apply Hfirst. lia.
    + intros ([|i] & Hi & Hfirst); cbn in Hi.
      * left. congruence.
      * right. split.
        -- exists i. split; [done|]. intros j r' Hj Hr'. apply (Hfirst (S j)); [lia|done].
        -- intros E. by apply (Hfirst 0%nat x); [lia| |].
Qed.

Lemma drop_duplicates_sublist (rows : list CsvRow) : sublist (drop_duplicates rows) rows.
Proof.
  induction rows as [|x rest IH]; [done|]. cbn [drop_duplicates]. constructor.
  etrans; [apply filter_sublist | exact IH].
Qed.

Lemma drop_duplicates_NoDup (rows : list CsvRow) :
  NoDup (row_key <$> drop_duplicates rows).
Proof.
  induction rows as [|x rest IH]; [constructor|]. cbn [drop_duplicates fmap list_fmap].
  constructor.
  - intros Hin. apply list_elem_of_fmap in Hin as (r & Hk & Hr).
    apply elem_of_filter_bool in Hr as [_ Hr]. apply negb_true_iff, same_key_false in Hr.
    congruence.
  - eapply sublist_NoDup; [exact IH|]. apply fmap_sublist, filter_sublist.
Qed.

(** Every row has a representative of its date and symbol. *)
Lemma drop_duplicates_covers (rows : list CsvRow) (r : CsvRow) :
  r ∈ rows → ∃ r0, r0 ∈ drop_duplicates rows ∧ row_key r0 = row_key r.
Proof.
  induction rows as [|x rest IH]; [by intros ?%elem_of_nil|].
  intros [->|Hr]%elem_of_cons.
  - exists x. split; [apply elem_of_drop_duplicates_cons; by left | done].
  - destruct (IH Hr) as (r0 & Hr0 & Hk).
    destruct (decide (row_key r0 = row_key x)) as [E|E].
    + exists x. split; [apply elem_of_drop_duplicates_cons; by left | congruence].
    + exists r0. split; [apply elem_of_drop_duplicates_cons; by right | done].
Qed.

Section Sorted.
Context {A : Type} (date : A → Z).

#[local] Instance by_date_trans : Transitive (by_date date).
Proof. intros a b c. unfold by_date. lia. Qed.

#[local] Instance by_date_total : Total (by_date date).
Proof. intros a b. unfold by_date. lia. Qed.

Lemma sort_values_perm (l : list A) : sort_values date l ≡ₚ l.
Proof. apply merge_sort_Permutation. Qed.

Lemma sort_values_sorted (l : list A) : StronglySorted (by_date date) (sort_values date l).
Proof. apply StronglySorted_merge_sort; apply _. Qed.

Lemma sorted_strict (l : list A) :
  StronglySorted (by_date date) l → NoDup (date <$> l) →
  StronglySorted (λ a b, (date a < date b)%Z) l.
Proof.
  induction 1 as [|x l Hl IH Hx]; [constructor|]. cbn. intros [Hnot Hnd]%NoDup_cons.
  constructor; [by apply IH|]. apply Forall_forall. intros y Hy.
  rewrite Forall_forall in Hx. specialize (Hx y Hy). unfold by_date in Hx.
  assert (date x ≠ date y); [|lia].
  intros E. apply Hnot. rewrite E. apply list_elem_of_fmap. by exists y.
Qed.

End Sorted.

Lemma NoDup_dates (ticker : string) (l : list CsvRow) :
  Forall (λ r, Ticker r = ticker) l → NoDup (row_key <$> l) →
  NoDup ((λ r, Date (bar r)) <$> l).
Proof.
  induction 1 as [|x l Hx Hl IH]; [constructor|]. cbn. intros [Hnot Hnd]%NoDup_cons.
  constructor; [|by apply IH]. intros Hin. apply Hnot.
  apply list_elem_of_fmap in Hin as (y & Hd & Hy). apply list_elem_of_fmap. exists y.
  split; [|done]. rewrite Forall_forall in Hl. unfold row_key. by rewrite Hd, Hx, (Hl y Hy).
Qed.

(** The history [load_data] stores for a symbol. *)
Definition history_of (rows : list CsvRow) (ticker : string) : list Bar :=
  bar <$> sort_values (λ r, Date (bar r))
            (List.filter (λ r, String.eqb (Ticker r) ticker)
               (sort_values (λ r, Date (bar r)) (drop_duplicates rows))).

Lemma elem_of_history_rows (rows : list CsvRow) (ticker : string) (r : CsvRow) :
  r ∈ sort_values (λ r, Date (bar r))
        (List.filter (λ r, String.eqb (Ticker r) ticker)
           (sort_values (λ r, Date (bar r)) (drop_duplicates rows))) ↔
  r ∈ drop_duplicates rows ∧ Ticker r = ticker.
Proof.
  rewrite sort_values_perm, elem_of_filter_bool, sort_values_perm.
  by rewrite String.eqb_eq.
Qed.

Lemma history_of_sorted (rows : list CsvRow) (ticker : string) :
  StronglySorted (λ a b, (Date a < Date b)%Z) (history_of rows ticker).
Proof.
  unfold history_of.
  apply (StronglySorted_fmap bar (λ r r', (Date (bar r) < Date (bar r'))%Z)); [done|].
  apply (sorted_strict (λ r, Date (bar r))); [apply sort_values_sorted|].
  rewrite sort_values_perm. apply (NoDup_dates ticker).
  - apply Forall_forall. intros r [_ Hr]%elem_of_filter_bool. by apply String.eqb_eq.
  - eapply sublist_NoDup; [|apply fmap_sublist, filter_sublist].
    rewrite sort_values_perm. apply drop_duplicates_NoDup.
Qed.

(** [first_row rows ticker b]: [b] is the first bar of the file for its
    date and the symbol [ticker]. *)
Definition first_row (rows : list CsvRow) (ticker : string) (b : Bar) : Prop :=
  ∃ i, rows !! i = Some {| Ticker := ticker; bar := b |} ∧
       ∀ j r, (j < i)%nat → rows !! j = Some r →
              ¬ (Ticker r = ticker ∧ Date (bar r) = Date b).

Lemma elem_of_history_of (rows : list CsvRow) (ticker : string) (b : Bar) :
  b ∈ history_of rows ticker ↔ first_row rows ticker b.
Proof.
  unfold history_of. rewrite list_elem_of_fmap. split.
  - intros (r & -> & Hr). apply elem_of_history_rows in Hr as [Hr <-].
    apply elem_of_drop_duplicates in Hr as (i & Hi & Hfirst). exists i.
    split; [by destruct r|]. intros j r' Hj Hr' [Ht Hd].
    apply (Hfirst j r' Hj Hr'). unfold row_key. by rewrite Ht, Hd.
  - intros (i & Hi & Hfirst). exists {| Ticker := ticker; bar := b |}.
    split; [done|]. apply elem_of_history_rows. split; [|done].
    apply elem_of_drop_duplicates. exists i. split; [done|].
    intros j r' Hj Hr' [= Hd Ht]. by apply (Hfirst j r' Hj Hr').
Qed.

Lemma history_of_nonempty (rows : list CsvRow) (ticker : string) :
  ticker ∈ Ticker <$> rows → history_of rows ticker ≠ [].
Proof.
  intros (r & -> & Hr)%list_elem_of_fmap.
  destruct (drop_duplicates_covers rows r Hr) as (r0 & Hr0 & [= Hd Ht]).
  assert (bar r0 ∈ history_of rows (Ticker r)) as Hin.
  { unfold history_of. apply list_elem_of_fmap. exists r0. split; [done|].
    by apply elem_of_history_rows. }
  intros E. rewrite E in Hin. by apply elem_of_nil in Hin.
Qed.

Lemma foldl_set_history (f : string → list Bar) (tickers : list string) (c : Core) :
  let c' := foldl (λ c t, set_history t (f t) c) c tickers in
  prediction_days c' = prediction_days c ∧ feature_cols c' = feature_cols c ∧
  scalers c' = scalers c ∧
  ∀ k, data_dict c' !! k = if decide (k ∈ tickers) then Some (f k) else data_dict c !! k.
Proof.
  revert c. induction tickers as [|t tickers IH]; intros c; cbn [foldl].
  - repeat split.
  - destruct (IH (set_history t (f t) c)) as (Hp & Hf & Hs & Hd).
    split; [by rewrite Hp|]. split; [by rewrite Hf|]. split; [by rewrite Hs|].
    intros k. rewrite Hd. cbn [set_history data_dict].
    destruct (decide (k ∈ tickers)) as [Hin|Hnin].
    + rewrite decide_True; [done|]. by right.
    + destruct (decide (k = t)) as [->|Hne].
      * rewrite lookup_insert_eq. rewrite decide_True; [done|]. by left.
      * rewrite lookup_insert_ne by done.
        rewrite decide_False; [done|]. intros [?|?]%elem_of_cons; done.
Qed.

Lemma loaded_tickers (rows : list CsvRow) (ticker : string) :
  ticker ∈ merge_sort str_le
             (remove_dups
                (Ticker <$> sort_values (λ r, Date (bar r)) (drop_duplicates rows))) ↔
  ticker ∈ Ticker <$> rows.
Proof.
  rewrite merge_sort_Permutation, elem_of_remove_dups, sort_values_perm. split.
  - intros (r & -> & Hr)%list_elem_of_fmap. apply list_elem_of_fmap. exists r.
    split; [done|]. eapply elem_of_sublist; [exact Hr|]. apply drop_duplicates_sublist.
  - intros (r & -> & Hr)%list_elem_of_fmap.
    destruct (drop_duplicates_covers rows r Hr) as (r0 & Hr0 & [= _ Ht]).
    apply list_elem_of_fmap. by exists r0.
Qed.

(** X15.  [load_data] on a file with rows: it returns the updated
    [data_dict] and touches nothing else; the symbols that do not occur in
    the file keep their entry; every symbol of the file gets a history that
    is not empty, has strictly increasing dates, and consists of the first
    bar of the file for each of its dates. *)
Theorem load_data_spec (rows : list CsvRow) (c : Core) :
  rows ≠ [] →
  ∃ c', load_data rows c = (c', Ok (data_dict c')) ∧
        prediction_days c' = prediction_days c ∧
        feature_cols c' = feature_cols c ∧
        scalers c' = scalers c ∧
        ∀ ticker,
          (ticker ∉ Ticker <$> rows → data_dict c' !! ticker = data_dict c !! ticker) ∧
          (ticker ∈ Ticker <$> rows →
           ∃ history,
             data_dict c' !! ticker = Some history ∧ history ≠ [] ∧
             StronglySorted (λ a b, (Date a < Date b)%Z) history ∧
             ∀ b, b ∈ history ↔ first_row rows ticker b).
Proof.
  intros Hrows. destruct rows as [|r0 rest]; [done|]. clear Hrows.
  set (rows := r0 :: rest). unfold load_data. fold rows. cbv zeta.
  unfold mbind, st_bind, modify, gets. cbv beta iota.
  set (tickers :=
         merge_sort str_le
           (remove_dups
              (Ticker <$> sort_values (λ r, Date (bar r)) (drop_duplicates rows)))).
  exists (foldl (λ c t, set_history t (history_of rows t) c) c tickers).
  split; [reflexivity|].
  destruct (foldl_set_history (history_of rows) tickers c)
    as (Hp & Hf & Hs & Hd).
  split; [exact Hp|]. split; [exact Hf|]. split; [exact Hs|].
  intros ticker. specialize (Hd ticker). split.
  - intros Hnot. rewrite Hd, decide_False; [done|]. subst tickers. by rewrite loaded_tickers.
  - intros Hin. exists (history_of rows ticker). split.
    + rewrite Hd, decide_True; [done|]. subst tickers. by rewrite loaded_tickers.
    + split; [by apply history_of_nonempty|]. split; [apply history_of_sorted|].
      apply elem_of_history_of.
Qed.

Lemma load_data_spec_witness :
  ∃ c', load_data sample_rows sample_core = (c', Ok (data_dict c')) ∧
        prediction_days c' = prediction_days sample_core ∧
        feature_cols c' = feature_cols sample_core ∧
        scalers c' = scalers sample_core ∧
        ∀ ticker,
          (ticker ∉ Ticker <$> sample_rows →
           data_dict c' !! ticker = data_dict sample_core !! ticker) ∧
          (ticker ∈ Ticker <$> sample_rows →
           ∃ history,
             data_dict c' !! ticker = Some history ∧ history ≠ [] ∧
             StronglySorted (λ a b, (Date a < Date b)%Z) history ∧
             ∀ b, b ∈ history ↔ first_row sample_rows ticker b).
Proof.
  apply (load_data_spec sample_rows sample_core). discriminate.
Defined.

(** ** Average true range *)

Lemma calculate_atr_length (df : list Bar) (period : nat) :
  length (calculate_atr df period) = length df.
Proof.
  unfold calculate_atr, rolling_mean, rolling, sabs, ssub, col.
  rewrite length_imap, length_zip_with, length_zip, !length_fmap, !length_zip_with,
    shift_length, !length_fmap. lia.
Qed.

(** X17.  [calculate_atr] returns one value per bar, and on bars with
    [Low <= High] none of them is negative; the same holds of the column
    ATR of the indicator engine, which is the 14-session average true
    range of the date-sorted history. *)
Theorem atr_never_negative `{Kernels} (df : DataFrame) (period : nat) :
  Forall well_formed_bar (bars df) →
  length (calculate_atr (bars df) period) = length (bars df) ∧
  Forall nan_or_nonneg (calculate_atr (bars df) period) ∧
  column "ATR" (num_cols (calculate_advanced_indicators df)) =
    Some (calculate_atr (bars (sort_values_Date df)) 14) ∧
  Forall nan_or_nonneg (calculate_atr (bars (sort_values_Date df)) 14).
Proof.
  intros Hdf. split; [apply calculate_atr_length|].
  split; [by apply calculate_atr_nonneg|].
  split; [|by apply calculate_atr_nonneg, sorted_well_formed].
  unfold calculate_advanced_indicators. cbv zeta. unfold bollinger, price_action.
  cbn [foldl num_cols set_col bars]. find_column.
Qed.

Lemma atr_never_negative_witness :
  length (calculate_atr (bars (frame_of regular_bars)) 14) = length (bars (frame_of regular_bars)) ∧
  Forall nan_or_nonneg (calculate_atr (bars (frame_of regular_bars)) 14) ∧
  column "ATR" (num_cols (@calculate_advanced_indicators sample_kernels (frame_of regular_bars))) =
    Some (calculate_atr (bars (sort_values_Date (frame_of regular_bars))) 14) ∧
  Forall nan_or_nonneg (calculate_atr (bars (sort_values_Date (frame_of regular_bars))) 14).
Proof.
  apply (@atr_never_negative sample_kernels (frame_of regular_bars) 14).
  repeat constructor; unfold well_formed_bar; simpl; lra.
Defined.
